(** * SignalFx exporter: translation of metrics into SignalFx datapoints

    A shallow embedding of
    [exporter/signalfxexporter/translation/converter.go] and the
    properties of the conversion that the design document states.

    Go values are embedded as follows.
    - [string] is a byte string ([String.string]); [strings.Map] and
      [range] see it through Go's UTF-8 decoding, which is written out
      below.
    - [int64] and [uint64] are [Z]; the conversion [int64(x)] of an
      unsigned value wraps and [/] on [int64] truncates ([Z.quot]).
    - [float64] is the primitive binary64 [float].
    - [*sfxpb.Dimension] is an address into a store of [Dimension]
      objects and [[]*sfxpb.Dimension] is a slice header (backing array,
      length, capacity) over a store of backing arrays: the converter
      shares the resource dimensions between all datapoints, and the
      sanitizer writes through these pointers.
    - functions that allocate or write are state-passing functions on
      that store, in an error monad (a nil or dangling dereference is
      [None]).
    - a [pdata.Metric] is a metric whose data type is none or set with
      the data of that type; [MetricOrig] adds the metrics whose data
      type is set and whose data is nil, on which the converter
      faults. *)

From Stdlib Require Import ZArith String Ascii List Bool Lia.
From Stdlib Require Import Floats.PrimFloat.
From Stdlib Require DecimalString.
From stdpp Require Import base list.

Import ListNotations.
Local Open Scope Z_scope.

(** ** Go strings, runes and UTF-8 *)

Module utf8.

Definition rune := Z.

Definition RuneError : rune := 0xFFFD.
Definition MaxRune : rune := 0x10FFFF.
Definition RuneSelf : Z := 0x80.

(** The value of a byte of a string, and the byte with a given value. *)
Definition byte_val (c : ascii) : Z := Z.of_N (N_of_ascii c).
Definition byte_of (z : Z) : ascii := ascii_of_N (Z.to_N (z mod 256)).

(** [first]: for a leading byte above [RuneSelf], the length of the
    sequence it starts and the range accepted for its second byte; [None]
    for a byte that starts no sequence (continuation bytes, the overlong
    leads C0 and C1, and F5..FF). *)
Definition first (b0 : Z) : option (nat * Z * Z) :=
  if (0xC2 <=? b0) && (b0 <=? 0xDF) then Some (2%nat, 0x80, 0xBF)
  else if b0 =? 0xE0 then Some (3%nat, 0xA0, 0xBF)
  else if b0 =? 0xED then Some (3%nat, 0x80, 0x9F)
  else if (0xE1 <=? b0) && (b0 <=? 0xEF) then Some (3%nat, 0x80, 0xBF)
  else if b0 =? 0xF0 then Some (4%nat, 0x90, 0xBF)
  else if (0xF1 <=? b0) && (b0 <=? 0xF3) then Some (4%nat, 0x80, 0xBF)
  else if b0 =? 0xF4 then Some (4%nat, 0x80, 0x8F)
  else None.

Definition continuation (b : Z) : bool := (0x80 <=? b) && (b <=? 0xBF).

(** [utf8.DecodeRuneInString]: the first rune of [s] and its width in
    bytes; an invalid or truncated sequence is [(RuneError, 1)] and the
    empty string [(RuneError, 0)]. *)
Definition DecodeRuneInString (s : string) : rune * nat :=
  match s with
  | EmptyString => (RuneError, 0%nat)
  | String c0 s1 =>
    let b0 := byte_val c0 in
    if b0 <? RuneSelf then (b0, 1%nat)
    else
      match first b0, s1 with
      | Some (sz, lo, hi), String c1 s2 =>
        let b1 := byte_val c1 in
        if (b1 <? lo) || (hi <? b1) then (RuneError, 1%nat)
        else
          match sz, s2 with
          | 2%nat, _ => (64 * (b0 mod 32) + b1 mod 64, 2%nat)
          | _, String c2 s3 =>
            let b2 := byte_val c2 in
            if negb (continuation b2) then (RuneError, 1%nat)
            else
              match sz, s3 with
              | 3%nat, _ =>
                (4096 * (b0 mod 16) + 64 * (b1 mod 64) + b2 mod 64, 3%nat)
              | _, String c3 _ =>
                let b3 := byte_val c3 in
                if negb (continuation b3) then (RuneError, 1%nat)
                else (262144 * (b0 mod 8) + 4096 * (b1 mod 64)
                      + 64 * (b2 mod 64) + b3 mod 64, 4%nat)
              | _, EmptyString => (RuneError, 1%nat)
              end
          | _, EmptyString => (RuneError, 1%nat)
          end
      | _, _ => (RuneError, 1%nat)
      end
  end.

(** The runes that [for _, c := range s] yields, in order. *)
Fixpoint runes (s : string) : list rune :=
  match s with
  | EmptyString => []
  | String _ t1 =>
    let (r, w) := DecodeRuneInString s in
    r :: match w, t1 with
         | 2%nat, String _ t2 => runes t2
         | 3%nat, String _ (String _ t3) => runes t3
         | 4%nat, String _ (String _ (String _ t4)) => runes t4
         | _, _ => runes t1
         end
  end.

Definition surrogate (r : rune) : bool := (0xD800 <=? r) && (r <=? 0xDFFF).

(** A rune that [utf8.EncodeRune] writes as itself. *)
Definition ValidRune (r : rune) : bool :=
  (0 <=? r) && (r <=? MaxRune) && negb (surrogate r).

Definition bytes (l : list Z) : string :=
  string_of_list_ascii (List.map byte_of l).

(** [utf8.EncodeRune]: the UTF-8 encoding of [r]; a rune out of range or
    a surrogate half is written as [RuneError]. *)
Definition EncodeRune (r : rune) : string :=
  if (0 <=? r) && (r <=? 0x7F) then bytes [r]
  else if (0 <=? r) && (r <=? 0x7FF) then
    bytes [0xC0 + r / 64; 0x80 + r mod 64]
  else if negb (ValidRune r) then bytes [0xEF; 0xBF; 0xBD]
  else if r <=? 0xFFFF then
    bytes [0xE0 + r / 4096; 0x80 + (r / 64) mod 64; 0x80 + r mod 64]
  else
    bytes [0xF0 + r / 262144; 0x80 + (r / 4096) mod 64;
           0x80 + (r / 64) mod 64; 0x80 + r mod 64].

End utf8.

Module strings.
Import utf8.

(** [strings.Map]: every rune of [s] replaced by its image under
    [mapping] and encoded again; a negative image drops the rune. *)
Definition Map (mapping : rune -> rune) (s : string) : string :=
  List.fold_right
    (fun c out =>
       let r := mapping c in
       if r <? 0 then out else (EncodeRune r ++ out)%string)
    ""%string (runes s).

End strings.

Module unicode.
Import utf8.

Definition MaxLatin1 : rune := 0xFF.

(** The two range tables the converter consults. *)
Inductive RangeTable := Letter | Digit.

(** The letters of Latin-1 (the [pLmask] entries of [properties]). *)
Definition latin1Letter (r : rune) : bool :=
  (0x41 <=? r) && (r <=? 0x5A) || (0x61 <=? r) && (r <=? 0x7A)
  || (r =? 0xAA) || (r =? 0xB5) || (r =? 0xBA)
  || (0xC0 <=? r) && (r <=? 0xD6) || (0xD8 <=? r) && (r <=? 0xF6)
  || (0xF8 <=? r) && (r <=? 0xFF).

Section Tables.

(** The lookup in the Unicode range tables for runes above Latin-1; the
    tables belong to the Go library. *)
Variable isExcludingLatin : RangeTable -> rune -> bool.

Definition IsLetter (r : rune) : bool :=
  if (0 <=? r) && (r <=? MaxLatin1) then latin1Letter r
  else isExcludingLatin Letter r.

Definition IsDigit (r : rune) : bool :=
  if r <=? MaxLatin1 then (0x30 <=? r) && (r <=? 0x39)
  else isExcludingLatin Digit r.

End Tables.

End unicode.

(** ** The input model: package [pdata] *)

Module pdata.

(** [pdata.AttributeValue]: a typed attribute value. *)
Inductive AttributeValue :=
| AttributeValueNULL
| AttributeValueSTRING (s : string)
| AttributeValueINT (i : Z)
| AttributeValueDOUBLE (f : float)
| AttributeValueBOOL (b : bool).

(** [StringVal] is the empty string on a value that is not a string. *)
Definition StringVal (a : AttributeValue) : string :=
  match a with
  | AttributeValueSTRING s => s
  | _ => ""%string
  end.

(** [pdata.AttributeMap] wraps a slice of key-value pairs: [Get] returns
    the first entry with the key and [ForEach] visits the entries in
    order. *)
Definition AttributeMap := list (string * AttributeValue).

Fixpoint Get (am : AttributeMap) (key : string) : option AttributeValue :=
  match am with
  | [] => None
  | (k, v) :: rest => if (k =? key)%string then Some v else Get rest key
  end.

(** [pdata.StringMap]: the labels of a data point, visited in order. *)
Definition StringMap := list (string * string).

Inductive AggregationTemporality :=
| AggregationTemporalityUnspecified
| AggregationTemporalityDelta
| AggregationTemporalityCumulative.

Definition isDelta (t : AggregationTemporality) : bool :=
  match t with
  | AggregationTemporalityDelta => true
  | _ => false
  end.

(** Timestamps and counts are [uint64], integer values are [int64]. *)
Record IntDataPoint := {
  idp_LabelsMap : StringMap;
  idp_Timestamp : Z;
  idp_Value : Z }.

Record DoubleDataPoint := {
  ddp_LabelsMap : StringMap;
  ddp_Timestamp : Z;
  ddp_Value : float }.

Record IntHistogramDataPoint := {
  ihp_LabelsMap : StringMap;
  ihp_Timestamp : Z;
  ihp_Count : Z;
  ihp_Sum : Z;
  ihp_BucketCounts : list Z;
  ihp_ExplicitBounds : list float }.

Record DoubleHistogramDataPoint := {
  dhp_LabelsMap : StringMap;
  dhp_Timestamp : Z;
  dhp_Count : Z;
  dhp_Sum : float;
  dhp_BucketCounts : list Z;
  dhp_ExplicitBounds : list float }.

(** The data of a metric, tagged by [DataType()]. An element of a slice
    of data points, metrics or instrumentation libraries can be nil
    ([IsNil()]): such a slice is a list of options. A metric whose data
    type is set has the data of that type: on a metric whose data is
    nil the accessors of the data panic, and the converter with them.
    The metrics with nil data are those of [MetricOrig] below; what is
    stated of a [Metric] or of a [ResourceMetrics] is stated of the
    metrics and batches without one. *)
Inductive MetricData :=
| MetricDataTypeNone
| MetricDataTypeIntGauge (dps : list (option IntDataPoint))
| MetricDataTypeDoubleGauge (dps : list (option DoubleDataPoint))
| MetricDataTypeIntSum (isMonotonic : bool)
    (temporality : AggregationTemporality) (dps : list (option IntDataPoint))
| MetricDataTypeDoubleSum (isMonotonic : bool)
    (temporality : AggregationTemporality)
    (dps : list (option DoubleDataPoint))
| MetricDataTypeIntHistogram (temporality : AggregationTemporality)
    (dps : list (option IntHistogramDataPoint))
| MetricDataTypeDoubleHistogram (temporality : AggregationTemporality)
    (dps : list (option DoubleHistogramDataPoint)).

Record Metric := {
  Name : string;
  Data : MetricData }.

Record InstrumentationLibraryMetrics := {
  Metrics : list (option Metric) }.

Record ResourceMetrics := {
  ResourceAttributes : AttributeMap;
  InstrumentationLibraryMetricsSlice :
    list (option InstrumentationLibraryMetrics) }.

End pdata.

(** ** The output model: package [sfxpb], and the store *)

Module sfxpb.

Inductive MetricType := GAUGE | COUNTER | ENUM | CUMULATIVE_COUNTER.

Record Dimension := {
  Key : string;
  Value : string }.

Record Datum := {
  StrValue : option string;
  DoubleValue : option float;
  IntValue : option Z }.

End sfxpb.

Module mem.
Import sfxpb.

(** The address of a [Dimension] object; a [*sfxpb.Dimension] is an
    [option addr], nil being [None]. *)
Abbreviation addr := nat (only parsing).

(** A slice header of type [[]*sfxpb.Dimension]: the backing array (none
    for the nil slice), the length and the capacity. *)
Record slice := {
  arr : option nat;
  len : nat;
  cap : nat }.

Definition nilSlice : slice := {| arr := None; len := 0; cap := 0 |}.

(** The store: the [Dimension] objects and the backing arrays. Both only
    grow; an object or an array cell can be overwritten. *)
Record heap := {
  objects : list Dimension;
  arrays : list (list (option addr)) }.

Definition emptyHeap : heap := {| objects := []; arrays := [] |}.

(** A computation on the store that can fault. *)
Definition M (A : Type) : Type := heap -> option (A * heap).

Definition ret {A} (a : A) : M A := fun h => Some (a, h).

Definition bind {A B} (m : M A) (k : A -> M B) : M B :=
  fun h => match m h with
           | Some (a, h') => k a h'
           | None => None
           end.

Definition backing (h : heap) (s : slice) : list (option addr) :=
  match arr s with
  | Some a => default [] (arrays h !! a)
  | None => []
  end.

(** The elements [s[0], ..., s[len(s)-1]] of a slice. *)
Definition elems (h : heap) (s : slice) : list (option addr) :=
  take (len s) (backing h s).

(** [&sfxpb.Dimension{...}]: a new object. *)
Definition new (d : Dimension) : M addr :=
  fun h => Some (length (objects h),
                 {| objects := objects h ++ [d]; arrays := arrays h |}).

(** [make([]sfxpb.Dimension, n)]: [n] consecutive zero objects; the
    result is the address of the first, and [&v[i]] is that plus [i]. *)
Definition makeValues (n : nat) : M addr :=
  fun h => Some (length (objects h),
                 {| objects := objects h ++ replicate n (Build_Dimension "" "");
                    arrays := arrays h |}).

(** Reading and writing through a pointer; nil or dangling faults. *)
Definition load (p : option addr) : M Dimension :=
  fun h => match p with
           | Some a => match objects h !! a with
                       | Some d => Some (d, h)
                       | None => None
                       end
           | None => None
           end.

Definition store (p : option addr) (d : Dimension) : M unit :=
  fun h => match p with
           | Some a => if (a <? length (objects h))%nat
                       then Some (tt, {| objects := <[a := d]> (objects h);
                                         arrays := arrays h |})
                       else None
           | None => None
           end.

(** [make([]*sfxpb.Dimension, n, c)]: a new backing array of [c] nil
    cells. *)
Definition make (n c : nat) : M slice :=
  fun h => if (c <? n)%nat then None
           else Some ({| arr := Some (length (arrays h)); len := n; cap := c |},
                      {| objects := objects h;
                         arrays := arrays h ++ [replicate c None] |}).

(** [copy(dst, src)]: the first [min(len(dst), len(src))] cells. *)
Definition copy (dst src : slice) : M nat :=
  fun h =>
    let n := Nat.min (len dst) (len src) in
    match arr dst with
    | Some a =>
      Some (n, {| objects := objects h;
                  arrays := <[a := take n (elems h src) ++ drop n (backing h dst)]>
                              (arrays h) |})
    | None => Some (n, h)
    end.

(** The elements of a slice, as [range] visits them. *)
Definition read (s : slice) : M (list (option addr)) :=
  fun h => Some (elems h s, h).

Section Append.

(** The capacity [growslice] picks for a slice of capacity [old] that
    must hold [needed] elements; it belongs to the Go runtime, which
    guarantees at least [needed]. *)
Variable growslice : nat -> nat -> nat.

(** [append(s, x)]: in place when the capacity allows, else in a new
    backing array that receives the elements of [s]. *)
Definition append (s : slice) (x : option addr) : M slice :=
  fun h =>
    if (len s <? cap s)%nat then
      match arr s with
      | Some a =>
        match arrays h !! a with
        | Some cells =>
          Some ({| arr := Some a; len := S (len s); cap := cap s |},
                {| objects := objects h;
                   arrays := <[a := <[len s := x]> cells]> (arrays h) |})
        | None => None
        end
      | None => None
      end
    else
      let c := Nat.max (S (len s)) (growslice (cap s) (S (len s))) in
      Some ({| arr := Some (length (arrays h)); len := S (len s); cap := c |},
            {| objects := objects h;
               arrays := arrays h
                 ++ [elems h s ++ x :: replicate (c - S (len s)) None] |}).

End Append.

(** [for _, x := range l { acc = body(x, acc) }]. *)
Fixpoint rangeLoop {A T} (body : A -> T -> M T) (l : list A) (acc : T)
  : M T :=
  match l with
  | [] => ret acc
  | x :: rest => bind (body x acc) (rangeLoop body rest)
  end.

(** [for j, x := range l] with the index, counting from [j]. *)
Fixpoint rangeLoopFrom {A T} (body : nat -> A -> T -> M T) (j : nat)
  (l : list A) (acc : T) : M T :=
  match l with
  | [] => ret acc
  | x :: rest => bind (body j x acc) (rangeLoopFrom body (S j) rest)
  end.

(** What a slice of pointers denotes: the objects behind its elements. *)
Definition deref (h : heap) (p : option addr) : option Dimension :=
  match p with
  | Some a => objects h !! a
  | None => None
  end.

(** [None] when the slice reaches outside its backing array or one of
    its elements is nil or dangling. *)
Definition dimsOf (h : heap) (s : slice) : option (list Dimension) :=
  if (len s <=? length (backing h s))%nat
  then mapM (deref h) (elems h s)
  else None.

(** The store [h'] holds everything [h] holds, unchanged. *)
Definition extends (h h' : heap) : Prop :=
  objects h `prefix_of` objects h' /\ arrays h `prefix_of` arrays h'.

End mem.

Notation "'do' x <- m ; k" := (mem.bind m (fun x => k))
  (at level 10, x pattern, m at level 100, k at level 200).

Import utf8 pdata sfxpb mem.

(** [sfxpb.DataPoint]. The datapoints the converter returns are objects
    of their own, written once; only their dimensions are shared. *)
Record DataPoint := {
  Metric : string;
  Timestamp : Z;
  DatumValue : Datum;            (* the field [Value] *)
  MetricTypeOf : option MetricType;  (* the field [MetricType], a pointer *)
  Dimensions : slice }.

(** A datapoint as a reader of the store [h] sees it: the flat point
    with its dimensions in order. *)
Record FlatPoint := {
  fpMetric : string;
  fpTimestamp : Z;
  fpValue : Datum;
  fpType : option MetricType;
  fpDimensions : list Dimension }.

Definition view (h : heap) (dp : DataPoint) : option FlatPoint :=
  match dimsOf h (Dimensions dp) with
  | Some ds =>
    Some {| fpMetric := Metric dp; fpTimestamp := Timestamp dp;
            fpValue := DatumValue dp; fpType := MetricTypeOf dp;
            fpDimensions := ds |}
  | None => None
  end.

(** The labels of a data point as dimensions, in the order of the map. *)
Definition labelDims (labels : StringMap) : list Dimension :=
  List.map (fun kv => {| Key := fst kv; Value := snd kv |}) labels.

Definition setMetric (m : string) (dp : DataPoint) : DataPoint :=
  {| Metric := m; Timestamp := Timestamp dp; DatumValue := DatumValue dp;
     MetricTypeOf := MetricTypeOf dp; Dimensions := Dimensions dp |}.

Definition setTimestamp (t : Z) (dp : DataPoint) : DataPoint :=
  {| Metric := Metric dp; Timestamp := t; DatumValue := DatumValue dp;
     MetricTypeOf := MetricTypeOf dp; Dimensions := Dimensions dp |}.

Definition setDimensions (s : slice) (dp : DataPoint) : DataPoint :=
  {| Metric := Metric dp; Timestamp := Timestamp dp;
     DatumValue := DatumValue dp; MetricTypeOf := MetricTypeOf dp;
     Dimensions := s |}.

Definition setIntValue (v : Z) (dp : DataPoint) : DataPoint :=
  {| Metric := Metric dp; Timestamp := Timestamp dp;
     DatumValue := {| StrValue := StrValue (DatumValue dp);
                      DoubleValue := DoubleValue (DatumValue dp);
                      IntValue := Some v |};
     MetricTypeOf := MetricTypeOf dp; Dimensions := Dimensions dp |}.

Definition setDoubleValue (v : float) (dp : DataPoint) : DataPoint :=
  {| Metric := Metric dp; Timestamp := Timestamp dp;
     DatumValue := {| StrValue := StrValue (DatumValue dp);
                      DoubleValue := Some v;
                      IntValue := IntValue (DatumValue dp) |};
     MetricTypeOf := MetricTypeOf dp; Dimensions := Dimensions dp |}.

(** [*MetricTranslator]: the rule translator, known to the converter by
    its method [TranslateDataPoints] alone. *)
Record MetricTranslator := {
  TranslateDataPoints : list DataPoint -> M (list DataPoint) }.

(** [MetricsConverter]; the logger is left out. *)
Record MetricsConverter := {
  metricTranslator : option MetricTranslator }.

(** [NewMetricsConverter(logger, t)]; a nil [t] is a converter without
    translation rules. *)
Definition NewMetricsConverter (t : option MetricTranslator)
  : MetricsConverter :=
  {| metricTranslator := t |}.

(** The conversion [int64(x)] of a [uint64]. *)
Definition int64 (x : Z) : Z := (x + 2 ^ 63) mod 2 ^ 64 - 2 ^ 63.

Definition upperBoundDimensionKey : string := "upper_bound".

(** The strings of the pattern [[A-Za-z0-9_-]+], and the strings of
    ASCII characters. *)
Definition keyChar (c : ascii) : bool :=
  let b := byte_val c in
  (0x41 <=? b) && (b <=? 0x5A) || (0x61 <=? b) && (b <=? 0x7A)
  || (0x30 <=? b) && (b <=? 0x39) || (b =? 0x5F) || (b =? 0x2D).

Fixpoint allChars (p : ascii -> bool) (s : string) : bool :=
  match s with
  | EmptyString => true
  | String c t => p c && allChars p t
  end.

Definition matchesKeyPattern (s : string) : bool :=
  match s with
  | EmptyString => false
  | String _ _ => allChars keyChar s
  end.

Definition isASCII (s : string) : bool :=
  allChars (fun c => byte_val c <? RuneSelf) s.

(** The elements of a slice of pointers that are not nil. *)
Fixpoint nonNil {A} (l : list (option A)) : list A :=
  match l with
  | [] => []
  | Some x :: rest => x :: nonNil rest
  | None :: rest => nonNil rest
  end.

(** The backing array of [s] was allocated after the store [h] was
    taken. *)
Definition newSlice (h : heap) (s : slice) : Prop :=
  exists a, arr s = Some a /\ (length (arrays h) <= a)%nat.

(** The slice [s] lies within its backing array. *)
Definition inBounds (h : heap) (s : slice) : Prop :=
  (len s <= length (backing h s))%nat.

(** ** Metrics whose data is nil

    [pdata.Metric] wraps a pointer to the metric of the protocol, and
    the data of that metric is behind a pointer of its own: the data
    type of a metric can be set while its data is nil. [DataType()]
    answers by the type alone, and the accessors of the data
    ([IntGauge().DataPoints()], [IntSum().IsMonotonic()],
    [IntHistogram().AggregationTemporality()] and the like) fault on
    nil data. *)

(** The data types that come with data. *)
Inductive TypedData :=
| TypeIntGauge
| TypeDoubleGauge
| TypeIntSum
| TypeDoubleSum
| TypeIntHistogram
| TypeDoubleHistogram.

(** A metric as the converter receives it: one whose data type is none
    or set with the data of that type, or one whose data type is set
    and whose data is nil. *)
Inductive MetricOrig :=
| DataOf (m : pdata.Metric)
| NilDataOf (name : string) (dataType : TypedData).

Record InstrumentationLibraryMetricsOrig := {
  MetricsOrig : list (option MetricOrig) }.

Record ResourceMetricsOrig := {
  ResourceAttributesOrig : AttributeMap;
  InstrumentationLibraryMetricsSliceOrig :
    list (option InstrumentationLibraryMetricsOrig) }.

(** The batch has a metric whose data is nil, in an instrumentation
    library that is not nil. *)
Definition isNilData (m : option MetricOrig) : bool :=
  match m with
  | Some (NilDataOf _ _) => true
  | _ => false
  end.

Definition hasNilData (rm : ResourceMetricsOrig) : bool :=
  existsb
    (fun ilm =>
       match ilm with
       | Some ilm => existsb isNilData (MetricsOrig ilm)
       | None => false
       end)
    (InstrumentationLibraryMetricsSliceOrig rm).

(** A batch whose metrics all have their data, as received. *)
Definition withDataLibrary (ilm : InstrumentationLibraryMetrics)
  : InstrumentationLibraryMetricsOrig :=
  {| MetricsOrig := List.map (option_map DataOf) (Metrics ilm) |}.

Definition withData (rm : ResourceMetrics) : ResourceMetricsOrig :=
  {| ResourceAttributesOrig := ResourceAttributes rm;
     InstrumentationLibraryMetricsSliceOrig :=
       List.map (option_map withDataLibrary)
         (InstrumentationLibraryMetricsSlice rm) |}.

(** ** Sample values

    Instances of what the converter imports, with the values the
    packages give their constants, and inputs on which the statements
    below are evaluated. *)

Module Sample.

(** A part of the Unicode tables above Latin-1: the capital and small
    letters of the Greek and Cyrillic alphabets and the Arabic-Indic
    digits. The samples hold no rune above Latin-1 but the euro sign and
    the replacement character, which are neither letters nor digits. *)
Definition isExcludingLatin (t : unicode.RangeTable) (r : rune) : bool :=
  match t with
  | unicode.Letter =>
    (0x391 <=? r) && (r <=? 0x3A1) || (0x3A3 <=? r) && (r <=? 0x3A9)
    || (0x3B1 <=? r) && (r <=? 0x3C9) || (0x410 <=? r) && (r <=? 0x44F)
  | unicode.Digit => (0x660 <=? r) && (r <=? 0x669)
  end.

(** [strconv.FormatFloat] on the two values that the samples format,
    positive infinity and one half. Every other value is given the
    text of zero, which is its text for zero alone: the statements take
    the function as a parameter, and the samples format nothing else. *)
Definition FormatFloat (f : float) (_ : ascii) (_ _ : Z) : string :=
  if PrimFloat.eqb f infinity then "+Inf"
  else if PrimFloat.eqb f 0.5 then "0.5"
  else "0".

(** A [growslice] that doubles. *)
Definition growslice (old needed : nat) : nat := Nat.max needed (2 * old).

(** [tracetranslator.AttributeValueToString]: a string as it is, a
    boolean and an integer in their usual text, a floating-point number
    through [FormatFloat], null as the empty string. *)
Definition AttributeValueToString (a : AttributeValue) (_ : bool) : string :=
  match a with
  | AttributeValueNULL => ""
  | AttributeValueSTRING s => s
  | AttributeValueBOOL true => "true"
  | AttributeValueBOOL false => "false"
  | AttributeValueINT i => DecimalString.NilZero.string_of_int (Z.to_int i)
  | AttributeValueDOUBLE f => FormatFloat f "f" (-1) 64
  end.

Definition AttributeCloudAccount : string := "cloud.account.id".
Definition AttributeCloudRegion : string := "cloud.region".
Definition AttributeHostID : string := "host.id".
Definition AttributeCloudProvider : string := "cloud.provider".
Definition AttributeCloudProviderAWS : string := "aws".
Definition AttributeCloudProviderGCP : string := "gcp".
Definition SFxAccessTokenLabel : string := "com.splunk.signalfx.access_token".

(** A store with one resource dimension and the slice that holds it. *)
Definition store1 : heap :=
  {| objects := [{| Key := "service.name"; Value := "checkout" |}];
     arrays := [[Some 0%nat]] |}.

Definition extraDims1 : slice := {| arr := Some 0%nat; len := 1; cap := 1 |}.

Definition intPoint : IntDataPoint :=
  {| idp_LabelsMap := [("path"%string, "/a"%string)];
     idp_Timestamp := 1000000000;
     idp_Value := 42 |}.

Definition basePoint1 : DataPoint :=
  {| Metric := "requests_total";
     Timestamp := 0;
     DatumValue := {| StrValue := None; DoubleValue := None;
                      IntValue := None |};
     MetricTypeOf := Some CUMULATIVE_COUNTER;
     Dimensions := nilSlice |}.

(** A histogram data point with two buckets and one bound, and one with
    three buckets and one bound. *)
Definition histPoint : IntHistogramDataPoint :=
  {| ihp_LabelsMap := [("path"%string, "/a"%string)];
     ihp_Timestamp := 5000000;
     ihp_Count := 3;
     ihp_Sum := 7;
     ihp_BucketCounts := [1; 2];
     ihp_ExplicitBounds := [0.5%float] |}.

Definition badHistPoint : IntHistogramDataPoint :=
  {| ihp_LabelsMap := [("path"%string, "/a"%string)];
     ihp_Timestamp := 5000000;
     ihp_Count := 3;
     ihp_Sum := 7;
     ihp_BucketCounts := [1; 2; 3];
     ihp_ExplicitBounds := [0.5%float] |}.

Definition histMetric : pdata.Metric :=
  {| Name := "latency";
     Data := MetricDataTypeIntHistogram AggregationTemporalityDelta
               [Some histPoint; None; Some badHistPoint] |}.

Definition awsAttributes : AttributeMap :=
  [("cloud.provider"%string, AttributeValueSTRING "aws");
   ("host.id"%string, AttributeValueSTRING "i-1");
   ("cloud.region"%string, AttributeValueSTRING "us-east-1");
   ("cloud.account.id"%string, AttributeValueSTRING "111");
   ("com.splunk.signalfx.access_token"%string, AttributeValueSTRING "secret");
   ("service.name"%string, AttributeValueSTRING "checkout")].

Definition gcpAttributes : AttributeMap :=
  [("cloud.provider"%string, AttributeValueSTRING "gcp");
   ("cloud.account.id"%string, AttributeValueSTRING "acc1");
   ("host.id"%string, AttributeValueSTRING "h1");
   ("cloud.region"%string, AttributeValueSTRING "europe-west1")].

(** A rule translator with one rule that renames the dimension key
    [from] to [to_], writing through the pointers as the sanitizer
    does. *)
Definition renameDimensionKey (from to_ : string) : MetricTranslator :=
  {| TranslateDataPoints := fun dps =>
       do _ <- rangeLoop
                 (fun dp _ =>
                    do ds <- read (Dimensions dp);
                    rangeLoop
                      (fun d _ =>
                         do dim <- load d;
                         if (Key dim =? from)%string
                         then store d {| Key := to_; Value := Value dim |}
                         else ret tt)
                      ds tt)
                 dps tt;
       ret dps |}.

Definition renameDotted : MetricTranslator := renameDimensionKey "a.b" "c".

(** A batch of one gauge with one data point, whose label has the key
    [a.b]. *)
Definition dottedBatch : ResourceMetrics :=
  {| ResourceAttributes := [];
     InstrumentationLibraryMetricsSlice :=
       [Some {| Metrics :=
                  [Some {| Name := "m";
                           Data := MetricDataTypeIntGauge
                                     [Some {| idp_LabelsMap :=
                                                [("a.b"%string, "x"%string)];
                                              idp_Timestamp := 1000000;
                                              idp_Value := 1 |}] |}] |}] |}.

(** A batch of a resource with an access token and one gauge with one
    data point, one of whose labels has the access-token key. *)
Definition tokenBatch : ResourceMetrics :=
  {| ResourceAttributes := awsAttributes;
     InstrumentationLibraryMetricsSlice :=
       [Some {| Metrics :=
                  [Some {| Name := "m";
                           Data := MetricDataTypeIntGauge
                                     [Some {| idp_LabelsMap :=
                                                [(SFxAccessTokenLabel,
                                                  "secret"%string)];
                                              idp_Timestamp := 1000000;
                                              idp_Value := 1 |}] |}] |}] |}.

(** Two datapoints that share the resource dimension of [store1], and
    the store after the sanitizer. *)
Definition sharedPoints : list DataPoint :=
  [setDimensions extraDims1 basePoint1;
   setMetric "errors_total" (setDimensions extraDims1 basePoint1)].

Definition store1Sanitized : heap :=
  {| objects := [{| Key := "service_name"; Value := "checkout" |}];
     arrays := [[Some 0%nat]] |}.

(** A gauge, a monotonic sum of unspecified temporality, and histogram
    data points without bucket counts and with a count of [2^63]. *)
Definition gaugeMetric : pdata.Metric :=
  {| Name := "queue_length";
     Data := MetricDataTypeIntGauge [Some intPoint; None] |}.

Definition unspecifiedSum : pdata.Metric :=
  {| Name := "requests_total";
     Data := MetricDataTypeIntSum true AggregationTemporalityUnspecified
               [Some intPoint] |}.

Definition noBucketPoint : IntHistogramDataPoint :=
  {| ihp_LabelsMap := [("path"%string, "/a"%string)];
     ihp_Timestamp := 5000000;
     ihp_Count := 3;
     ihp_Sum := 7;
     ihp_BucketCounts := [];
     ihp_ExplicitBounds := [0.5%float] |}.

Definition hugeCountPoint : IntHistogramDataPoint :=
  {| ihp_LabelsMap := [];
     ihp_Timestamp := 5000000;
     ihp_Count := 2 ^ 63;
     ihp_Sum := 7;
     ihp_BucketCounts := [];
     ihp_ExplicitBounds := [] |}.

(** A histogram data point with one bucket and no bound, whose count
    and bucket count are [2^63]. *)
Definition overflowHistPoint : IntHistogramDataPoint :=
  {| ihp_LabelsMap := [];
     ihp_Timestamp := 5000000;
     ihp_Count := 2 ^ 63;
     ihp_Sum := 7;
     ihp_BucketCounts := [2 ^ 63];
     ihp_ExplicitBounds := [] |}.

(** A batch as received whose second metric, a sum, has nil data. *)
Definition nilDataBatch : ResourceMetricsOrig :=
  {| ResourceAttributesOrig := [];
     InstrumentationLibraryMetricsSliceOrig :=
       [None;
        Some {| MetricsOrig :=
                  [Some (DataOf gaugeMetric);
                   Some (NilDataOf "cpu" TypeIntSum)] |}] |}.

(** A key of four bytes: the euro sign and the letter A. *)
Definition euroKey : string := bytes [0xE2; 0x82; 0xAC; 0x41].

(** What a result of the conversion reads as. *)
Definition resultViews (r : option (list DataPoint * heap))
  : option (list FlatPoint) :=
  match r with
  | Some (dps, h) => mapM (view h) dps
  | None => None
  end.

End Sample.

(** ** The converter *)

Section Converter.

(** What the converter imports: the Unicode tables, [strconv.FormatFloat]
    (value, format, precision, bit size), [growslice],
    [tracetranslator.AttributeValueToString], and the constants of the
    packages [conventions] and [splunk]. *)
Variable isExcludingLatin : unicode.RangeTable -> rune -> bool.
Variable FormatFloat : float -> ascii -> Z -> Z -> string.
Variable growslice : nat -> nat -> nat.
Variable AttributeValueToString : AttributeValue -> bool -> string.
Variable AttributeCloudAccount : string.
Variable AttributeCloudRegion : string.
Variable AttributeHostID : string.
Variable AttributeCloudProvider : string.
Variable AttributeCloudProviderAWS : string.
Variable AttributeCloudProviderGCP : string.
Variable SFxAccessTokenLabel : string.

(** The runes that [filterMap] keeps: letters, digits, ['_'] and ['-']. *)
Definition keptRune (r : rune) : bool :=
  unicode.IsLetter isExcludingLatin r || unicode.IsDigit isExcludingLatin r
  || (r =? 0x5F) || (r =? 0x2D).

Definition filterMap (r : rune) : rune :=
  if keptRune r then r else 0x5F.

Definition filterKeyChars (str : string) : string :=
  strings.Map filterMap str.

Definition float64ToDimValue (f : float) : string :=
  FormatFloat f "g"%char (-1) 64.

Definition infinityBoundSFxDimValue : string :=
  float64ToDimValue infinity.

Definition timestampToSignalFx (ts : Z) : Z :=
  Z.quot (int64 ts) 1000000.

Definition getStringAttr (attrs : AttributeMap) (key : string) : string :=
  match Get attrs key with
  | Some a => StringVal a
  | None => ""%string
  end.

(** The closure of [labels.ForEach] in [labelsToDimensions]: it fills
    [dimensionsValue[pos]], appends its address, and advances [pos]. *)
Definition labelsToDimensions_each (dimensionsValue : addr)
  (kv : string * string) (st : slice * nat) : M (slice * nat) :=
  let (dimensions, pos) := st in
  let p := Some (dimensionsValue + pos)%nat in
  do d <- load p;
  do _ <- store p {| Key := fst kv; Value := Value d |};
  do d <- load p;
  do _ <- store p {| Key := Key d; Value := snd kv |};
  do dimensions <- append growslice dimensions p;
  ret (dimensions, S pos).

Definition labelsToDimensions (labels : StringMap) (extraDims : slice)
  : M slice :=
  do dimensions <- make (len extraDims) (length labels + len extraDims);
  do _ <- copy dimensions extraDims;
  if (length labels =? 0)%nat then ret dimensions
  else
    do dimensionsValue <- makeValues (length labels);
    do st <- rangeLoop (labelsToDimensions_each dimensionsValue) labels
               (dimensions, 0%nat);
    ret (fst st).

Definition convertIntDatapoints (in_ : list (option IntDataPoint))
  (basePoint : DataPoint) (extraDims : slice) : M (list DataPoint) :=
  rangeLoop
    (fun inDp out =>
       match inDp with
       | None => ret out
       | Some inDp =>
         let dp := basePoint in
         let dp := setTimestamp (timestampToSignalFx (idp_Timestamp inDp)) dp in
         do dims <- labelsToDimensions (idp_LabelsMap inDp) extraDims;
         let dp := setDimensions dims dp in
         let dp := setIntValue (idp_Value inDp) dp in
         ret (out ++ [dp])
       end)
    in_ [].

Definition convertDoubleDatapoints (in_ : list (option DoubleDataPoint))
  (basePoint : DataPoint) (extraDims : slice) : M (list DataPoint) :=
  rangeLoop
    (fun inDp out =>
       match inDp with
       | None => ret out
       | Some inDp =>
         let dp := basePoint in
         let dp := setTimestamp (timestampToSignalFx (ddp_Timestamp inDp)) dp in
         do dims <- labelsToDimensions (ddp_LabelsMap inDp) extraDims;
         let dp := setDimensions dims dp in
         let dp := setDoubleValue (ddp_Value inDp) dp in
         ret (out ++ [dp])
       end)
    in_ [].

Definition fromMetricDataTypeToMetricType (metric : pdata.Metric)
  : option MetricType :=
  match Data metric with
  | MetricDataTypeIntGauge _ => Some GAUGE
  | MetricDataTypeDoubleGauge _ => Some GAUGE
  | MetricDataTypeIntSum isMonotonic temporality _ =>
    if negb isMonotonic then Some GAUGE
    else if isDelta temporality then Some COUNTER
    else Some CUMULATIVE_COUNTER
  | MetricDataTypeDoubleSum isMonotonic temporality _ =>
    if negb isMonotonic then Some GAUGE
    else if isDelta temporality then Some COUNTER
    else Some CUMULATIVE_COUNTER
  | MetricDataTypeIntHistogram temporality _ =>
    if isDelta temporality then Some COUNTER
    else Some CUMULATIVE_COUNTER
  | MetricDataTypeDoubleHistogram temporality _ =>
    if isDelta temporality then Some COUNTER
    else Some CUMULATIVE_COUNTER
  | MetricDataTypeNone => None
  end.

Definition makeBaseDataPoint (m : pdata.Metric) : DataPoint :=
  {| Metric := Name m;
     Timestamp := 0;
     DatumValue := {| StrValue := None; DoubleValue := None;
                      IntValue := None |};
     MetricTypeOf := fromMetricDataTypeToMetricType m;
     Dimensions := nilSlice |}.

(** The body of [for j, c := range counts] of both histogram
    conversions. *)
Definition bucketPoint (labels : StringMap) (bounds : list float)
  (ts : Z) (basePoint : DataPoint) (extraDims : slice)
  (j : nat) (c : Z) (out : list DataPoint) : M (list DataPoint) :=
  let bound :=
    if (j <? length bounds)%nat
    then float64ToDimValue (nth j bounds PrimFloat.zero)
    else infinityBoundSFxDimValue in
  let dp := basePoint in
  let dp := setMetric (Metric basePoint ++ "_bucket") dp in
  let dp := setTimestamp ts dp in
  do dims <- labelsToDimensions labels extraDims;
  do ub <- new {| Key := upperBoundDimensionKey; Value := bound |};
  do dims <- append growslice dims (Some ub);
  let dp := setDimensions dims dp in
  let dp := setIntValue (int64 c) dp in
  ret (out ++ [dp]).

Definition convertIntHistogram (histDPs : list (option IntHistogramDataPoint))
  (basePoint : DataPoint) (extraDims : slice) : M (list DataPoint) :=
  rangeLoop
    (fun histDP out =>
       match histDP with
       | None => ret out
       | Some histDP =>
         let ts := timestampToSignalFx (ihp_Timestamp histDP) in
         let countDP := basePoint in
         let countDP := setMetric (Metric basePoint ++ "_count") countDP in
         let countDP := setTimestamp ts countDP in
         do dims <- labelsToDimensions (ihp_LabelsMap histDP) extraDims;
         let countDP := setDimensions dims countDP in
         let countDP := setIntValue (int64 (ihp_Count histDP)) countDP in
         let sumDP := basePoint in
         let sumDP := setTimestamp ts sumDP in
         do dims <- labelsToDimensions (ihp_LabelsMap histDP) extraDims;
         let sumDP := setDimensions dims sumDP in
         let sumDP := setIntValue (ihp_Sum histDP) sumDP in
         let out := out ++ [countDP; sumDP] in
         let bounds := ihp_ExplicitBounds histDP in
         let counts := ihp_BucketCounts histDP in
         if (0 <? length counts)%nat
            && negb (length counts =? length bounds + 1)%nat
         then ret out
         else
           rangeLoopFrom
             (bucketPoint (ihp_LabelsMap histDP) bounds ts basePoint extraDims)
             0%nat counts out
       end)
    histDPs [].

Definition convertDoubleHistogram
  (histDPs : list (option DoubleHistogramDataPoint))
  (basePoint : DataPoint) (extraDims : slice) : M (list DataPoint) :=
  rangeLoop
    (fun histDP out =>
       match histDP with
       | None => ret out
       | Some histDP =>
         let ts := timestampToSignalFx (dhp_Timestamp histDP) in
         let countDP := basePoint in
         let countDP := setMetric (Metric basePoint ++ "_count") countDP in
         let countDP := setTimestamp ts countDP in
         do dims <- labelsToDimensions (dhp_LabelsMap histDP) extraDims;
         let countDP := setDimensions dims countDP in
         let countDP := setIntValue (int64 (dhp_Count histDP)) countDP in
         let sumDP := basePoint in
         let sumDP := setTimestamp ts sumDP in
         do dims <- labelsToDimensions (dhp_LabelsMap histDP) extraDims;
         let sumDP := setDimensions dims sumDP in
         let sumDP := setDoubleValue (dhp_Sum histDP) sumDP in
         let out := out ++ [countDP; sumDP] in
         let bounds := dhp_ExplicitBounds histDP in
         let counts := dhp_BucketCounts histDP in
         if (0 <? length counts)%nat
            && negb (length counts =? length bounds + 1)%nat
         then ret out
         else
           rangeLoopFrom
             (bucketPoint (dhp_LabelsMap histDP) bounds ts basePoint extraDims)
             0%nat counts out
       end)
    histDPs [].

(** The end of [metricToSfxDataPoints]: the datapoints go through
    [c.metricTranslator.TranslateDataPoints] when the converter has a
    rule translator. *)
Definition translate (c : MetricsConverter) (dps : list DataPoint)
  : M (list DataPoint) :=
  match metricTranslator c with
  | Some t => TranslateDataPoints t dps
  | None => ret dps
  end.

(** [MetricDataTypeNone] returns before the rule translator; every other
    case of the switch falls through to it. *)
Definition metricToSfxDataPoints (c : MetricsConverter)
  (metric : pdata.Metric) (extraDimensions : slice) : M (list DataPoint) :=
  let basePoint := makeBaseDataPoint metric in
  match Data metric with
  | MetricDataTypeNone => ret []
  | MetricDataTypeIntGauge dps =>
    do dps <- convertIntDatapoints dps basePoint extraDimensions;
    translate c dps
  | MetricDataTypeIntSum _ _ dps =>
    do dps <- convertIntDatapoints dps basePoint extraDimensions;
    translate c dps
  | MetricDataTypeDoubleGauge dps =>
    do dps <- convertDoubleDatapoints dps basePoint extraDimensions;
    translate c dps
  | MetricDataTypeDoubleSum _ _ dps =>
    do dps <- convertDoubleDatapoints dps basePoint extraDimensions;
    translate c dps
  | MetricDataTypeIntHistogram _ dps =>
    do dps <- convertIntHistogram dps basePoint extraDimensions;
    translate c dps
  | MetricDataTypeDoubleHistogram _ dps =>
    do dps <- convertDoubleHistogram dps basePoint extraDimensions;
    translate c dps
  end.

(** [d.Key = filterKeyChars(d.Key)] through the pointer [d]. *)
Definition sanitizeDimension (d : option addr) : M unit :=
  do dim <- load d;
  store d {| Key := filterKeyChars (Key dim); Value := Value dim |}.

(** [dps] is a slice of pointers to datapoints none of which is nil, as
    the conversions build it; [sanitizeDataPointDimensions_ptr] below is
    the function on a slice that can hold nil. *)
Definition sanitizeDataPointDimensions (dps : list DataPoint) : M unit :=
  rangeLoop
    (fun dp _ =>
       do ds <- read (Dimensions dp);
       rangeLoop (fun d _ => sanitizeDimension d) ds tt)
    dps tt.

(** The filters of the two cloud providers, and the one that keeps every
    key. *)
Definition filterAll (k : string) : bool := true.

Definition filterAWS (k : string) : bool :=
  negb (k =? AttributeCloudAccount)%string
  && negb (k =? AttributeCloudRegion)%string
  && negb (k =? AttributeHostID)%string
  && negb (k =? AttributeCloudProvider)%string.

Definition filterGCP (k : string) : bool :=
  negb (k =? AttributeCloudAccount)%string
  && negb (k =? AttributeHostID)%string
  && negb (k =? AttributeCloudProvider)%string.

Definition resourceAttributesToDimensions (resourceAttr : AttributeMap)
  : M slice :=
  let dims := nilSlice in
  let accountID := getStringAttr resourceAttr AttributeCloudAccount in
  let region := getStringAttr resourceAttr AttributeCloudRegion in
  let instanceID := getStringAttr resourceAttr AttributeHostID in
  let provider := getStringAttr resourceAttr AttributeCloudProvider in
  do (filter, dims) <-
    (if (provider =? AttributeCloudProviderAWS)%string then
       if (instanceID =? "")%string || (region =? "")%string
          || (accountID =? "")%string
       then ret (filterAll, dims)
       else
         do d <- new {| Key := "AWSUniqueId";
                        Value := instanceID ++ "_" ++ region ++ "_"
                                 ++ accountID |};
         do dims <- append growslice dims (Some d);
         ret (filterAWS, dims)
     else if (provider =? AttributeCloudProviderGCP)%string then
       if (accountID =? "")%string || (instanceID =? "")%string
       then ret (filterAll, dims)
       else
         do d <- new {| Key := "gcp_id";
                        Value := accountID ++ "_" ++ instanceID |};
         do dims <- append growslice dims (Some d);
         ret (filterGCP, dims)
     else ret (filterAll, dims));
  rangeLoop
    (fun kv dims =>
       let k := fst kv in
       let val := snd kv in
       if (k =? SFxAccessTokenLabel)%string then ret dims
       else if negb (filter k) then ret dims
       else
         do d <- new {| Key := k; Value := AttributeValueToString val false |};
         append growslice dims (Some d))
    resourceAttr dims.

(** The first part of [MetricDataToSignalFxV2]: the resource dimensions
    and the two loops that gather the datapoints of every metric. *)
Definition collectDataPoints (c : MetricsConverter) (rm : ResourceMetrics)
  : M (list DataPoint) :=
  let sfxDatapoints := [] in
  do extraDimensions <- resourceAttributesToDimensions (ResourceAttributes rm);
  rangeLoop
    (fun ilm sfxDatapoints =>
       match ilm with
       | None => ret sfxDatapoints
       | Some ilm =>
         rangeLoop
           (fun m sfxDatapoints =>
              match m with
              | None => ret sfxDatapoints
              | Some m =>
                do dps <- metricToSfxDataPoints c m extraDimensions;
                ret (sfxDatapoints ++ dps)
              end)
           (Metrics ilm) sfxDatapoints
       end)
    (InstrumentationLibraryMetricsSlice rm) sfxDatapoints.

Definition MetricDataToSignalFxV2 (c : MetricsConverter)
  (rm : ResourceMetrics) : M (list DataPoint) :=
  do sfxDatapoints <- collectDataPoints c rm;
  do _ <- sanitizeDataPointDimensions sfxDatapoints;
  ret sfxDatapoints.

(** ** Auxiliary definitions of the statements *)

(** The text that [strings.Map] builds from a list of runes. *)
Definition encodeAll (f : rune -> rune) (l : list rune) : string :=
  List.fold_right
    (fun c out => if f c <? 0 then out else (EncodeRune (f c) ++ out)%string)
    ""%string l.

Definition zeroDimension : Dimension := {| Key := ""; Value := "" |}.

(** The value of [bound] for the bucket of index [j]. *)
Definition bucketBound (bounds : list float) (j : nat) : string :=
  if (j <? length bounds)%nat
  then float64ToDimValue (nth j bounds PrimFloat.zero)
  else infinityBoundSFxDimValue.

(** The datapoint of a bucket, given the slice of its dimensions. *)
Definition bucketDataPoint (basePoint : DataPoint) (ts : Z) (c : Z)
  (s : slice) : DataPoint :=
  setIntValue (int64 c)
    (setDimensions s
       (setTimestamp ts (setMetric (Metric basePoint ++ "_bucket") basePoint))).

(** [s] is a slice allocated after [h0] that in [h'] holds the resource
    dimensions of [e] followed by [extra]. *)
Definition sliceHolds (h0 : heap) (e : slice) (h' : heap) (s : slice)
  (extra : list Dimension) : Prop :=
  newSlice h0 s /\ inBounds h' s
  /\ forall ds, dimsOf h0 e = Some ds -> dimsOf h' s = Some (ds ++ extra).

(** [counts] is present and its length is not that of [bounds] plus
    one. *)
Definition bucketMismatch (counts : list Z) (bounds : list float) : bool :=
  (0 <? length counts)%nat && negb (length counts =? length bounds + 1)%nat.

(** The attributes that pass [keep] and are not the access token, as
    dimensions, in the order of the map. *)
Definition plainDimensions (keep : string -> bool) (attrs : AttributeMap)
  : list Dimension :=
  List.map
    (fun kv => {| Key := fst kv;
                  Value := AttributeValueToString (snd kv) false |})
    (List.filter
       (fun kv => negb (fst kv =? SFxAccessTokenLabel)%string && keep (fst kv))
       attrs).

(** The slice [s] is the only one on its backing array, which was
    allocated after [h0], and reaches its capacity at most. *)
Definition owns (h0 h : heap) (s : slice) : Prop :=
  extends h0 h
  /\ (len s <= cap s)%nat /\ (cap s <= length (backing h s))%nat
  /\ forall a, arr s = Some a -> (length (arrays h0) <= a)%nat.

(** The dimensions of a resource: the cloud identifier, when the provider
    and its attributes give one, and the plain dimensions. *)
Definition resourceDimensions (resourceAttr : AttributeMap)
  : list Dimension :=
  let accountID := getStringAttr resourceAttr AttributeCloudAccount in
  let region := getStringAttr resourceAttr AttributeCloudRegion in
  let instanceID := getStringAttr resourceAttr AttributeHostID in
  let provider := getStringAttr resourceAttr AttributeCloudProvider in
  if (provider =? AttributeCloudProviderAWS)%string then
    if (instanceID =? "")%string || (region =? "")%string
       || (accountID =? "")%string
    then plainDimensions filterAll resourceAttr
    else {| Key := "AWSUniqueId";
            Value := instanceID ++ "_" ++ region ++ "_" ++ accountID |}
         :: plainDimensions filterAWS resourceAttr
  else if (provider =? AttributeCloudProviderGCP)%string then
    if (accountID =? "")%string || (instanceID =? "")%string
    then plainDimensions filterAll resourceAttr
    else {| Key := "gcp_id"; Value := accountID ++ "_" ++ instanceID |}
         :: plainDimensions filterGCP resourceAttr
  else plainDimensions filterAll resourceAttr.

(** A dimension and a flat point with the keys sanitized. *)
Definition sanitizeDim (d : Dimension) : Dimension :=
  {| Key := filterKeyChars (Key d); Value := Value d |}.

Definition sanitizeFlat (fp : FlatPoint) : FlatPoint :=
  {| fpMetric := fpMetric fp; fpTimestamp := fpTimestamp fp;
     fpValue := fpValue fp; fpType := fpType fp;
     fpDimensions := List.map sanitizeDim (fpDimensions fp) |}.

(** The objects [O] after the sanitizer has gone through the pointers
    [V], however often it met each. *)
Definition sanitizedAt (V : list (option nat)) (O : list Dimension)
  : list Dimension :=
  imap (fun i d => if bool_decide (Some i ∈ V) then sanitizeDim d else d) O.

(** The datapoints of a histogram data point, given the slice of their
    dimensions: the count, and the sum of an integer and of a
    floating-point histogram. *)
Definition countDataPoint (basePoint : DataPoint) (ts : Z) (count : Z)
  (s : slice) : DataPoint :=
  setIntValue (int64 count)
    (setDimensions s
       (setTimestamp ts (setMetric (Metric basePoint ++ "_count") basePoint))).

Definition intSumDataPoint (basePoint : DataPoint) (ts : Z) (sum : Z)
  (s : slice) : DataPoint :=
  setIntValue sum (setDimensions s (setTimestamp ts basePoint)).

Definition doubleSumDataPoint (basePoint : DataPoint) (ts : Z) (sum : float)
  (s : slice) : DataPoint :=
  setDoubleValue sum (setDimensions s (setTimestamp ts basePoint)).

(** The slice [e] reads the same in [h'] as in [h]: its entries, its
    backing array, and the objects behind its entries. *)
Definition sliceUnchanged (h h' : heap) (e : slice) : Prop :=
  elems h' e = elems h e
  /\ (forall a, arr e = Some a -> (a < length (arrays h))%nat ->
        arrays h' !! a = arrays h !! a)
  /\ (forall p d, p ∈ elems h e -> deref h p = Some d ->
        deref h' p = Some d).

(** The conversion of a metric by its shape, as [metricToSfxDataPoints]
    does it before it hands the datapoints to the rule translator. *)
Definition shapePoints (metric : pdata.Metric) (extraDimensions : slice)
  : M (list DataPoint) :=
  let basePoint := makeBaseDataPoint metric in
  match Data metric with
  | MetricDataTypeNone => ret []
  | MetricDataTypeIntGauge dps =>
    convertIntDatapoints dps basePoint extraDimensions
  | MetricDataTypeIntSum _ _ dps =>
    convertIntDatapoints dps basePoint extraDimensions
  | MetricDataTypeDoubleGauge dps =>
    convertDoubleDatapoints dps basePoint extraDimensions
  | MetricDataTypeDoubleSum _ _ dps =>
    convertDoubleDatapoints dps basePoint extraDimensions
  | MetricDataTypeIntHistogram _ dps =>
    convertIntHistogram dps basePoint extraDimensions
  | MetricDataTypeDoubleHistogram _ dps =>
    convertDoubleHistogram dps basePoint extraDimensions
  end.

(** The label maps of the data points of a metric. *)
Definition metricLabels (metric : pdata.Metric) : list StringMap :=
  match Data metric with
  | MetricDataTypeNone => []
  | MetricDataTypeIntGauge dps => List.map idp_LabelsMap (nonNil dps)
  | MetricDataTypeIntSum _ _ dps => List.map idp_LabelsMap (nonNil dps)
  | MetricDataTypeDoubleGauge dps => List.map ddp_LabelsMap (nonNil dps)
  | MetricDataTypeDoubleSum _ _ dps => List.map ddp_LabelsMap (nonNil dps)
  | MetricDataTypeIntHistogram _ dps => List.map ihp_LabelsMap (nonNil dps)
  | MetricDataTypeDoubleHistogram _ dps =>
    List.map dhp_LabelsMap (nonNil dps)
  end.

(** The dimensions that a datapoint has after the resource dimensions:
    the labels of a data point of the metric and, for a bucket, an
    [upper_bound]. *)
Definition ownDimensions (metric : pdata.Metric) (extra : list Dimension)
  : Prop :=
  exists labels, In labels (metricLabels metric)
    /\ (extra = labelDims labels
        \/ exists ub, extra = labelDims labels
                              ++ [{| Key := upperBoundDimensionKey;
                                     Value := ub |}]).

(** The metrics of a batch, in order, without the nil entries. *)
Definition batchMetrics (rm : ResourceMetrics) : list pdata.Metric :=
  concat (List.map (fun ilm => nonNil (Metrics ilm))
            (nonNil (InstrumentationLibraryMetricsSlice rm))).

(** The pipeline that sanitizes before it translates: the datapoints of
    every metric assembled, every dimension key sanitized, and the rule
    translator applied to the result. *)
Definition sanitizeThenTranslate (c : MetricsConverter)
  (rm : ResourceMetrics) : M (list DataPoint) :=
  do sfxDatapoints <- collectDataPoints {| metricTranslator := None |} rm;
  do _ <- sanitizeDataPointDimensions sfxDatapoints;
  translate c sfxDatapoints.

(** The datapoints of one histogram data point: count, sum, and the
    buckets unless the lengths of the bucket arrays disagree. *)
Definition histogramGroup {A} (labelsOf : A -> StringMap) (tsOf : A -> Z)
  (countsOf : A -> list Z) (boundsOf : A -> list float)
  (mkCount mkSum : A -> slice -> DataPoint) (basePoint : DataPoint)
  (h0 : heap) (e : slice) (h' : heap) (x : A) (group : list DataPoint)
  : Prop :=
  exists sc ss buckets,
    group = mkCount x sc :: mkSum x ss :: buckets
    /\ sliceHolds h0 e h' sc (labelDims (labelsOf x))
    /\ sliceHolds h0 e h' ss (labelDims (labelsOf x))
    /\ if bucketMismatch (countsOf x) (boundsOf x) then buckets = []
       else Forall2
              (fun jc p =>
                 exists s, p = bucketDataPoint basePoint (tsOf x) (snd jc) s
                   /\ sliceHolds h0 e h' s
                        (labelDims (labelsOf x)
                         ++ [{| Key := upperBoundDimensionKey;
                                Value := bucketBound (boundsOf x) (fst jc) |}]))
              (combine (seq 0 (length (countsOf x))) (countsOf x)) buckets.

(** The pointers that the sanitizer goes through for a list of
    datapoints. *)
Definition visited (h : heap) (dps : list DataPoint) : list (option nat) :=
  concat (List.map (fun dp => elems h (Dimensions dp)) dps).

(** What holds of a datapoint that the conversion of [m] emits. *)
Definition emittedFor (m : pdata.Metric) (h : heap) (e : slice) (h' : heap)
  (dp : DataPoint) : Prop :=
  MetricTypeOf dp = fromMetricDataTypeToMetricType m
  /\ exists extra, sliceHolds h e h' (Dimensions dp) extra
                   /\ ownDimensions m extra.

(** ** Auxiliary definitions of the further statements *)

(** The text [s] with every byte replaced by its image under [f]. *)
Fixpoint mapBytes (f : ascii -> ascii) (s : string) : string :=
  match s with
  | EmptyString => EmptyString
  | String c t => String (f c) (mapBytes f t)
  end.

(** [sanitizeDataPointDimensions] on the slice it ranges over, a slice
    of pointers to datapoints: an entry is a pointer to a datapoint or
    nil, and [dp.Dimensions] faults on a nil entry. On a slice without
    a nil entry it is [sanitizeDataPointDimensions] on the datapoints
    pointed to. *)
Definition sanitizeDataPointDimensions_ptr (dps : list (option DataPoint))
  : M unit :=
  rangeLoop
    (fun p _ =>
       match p with
       | None => fun _ => None
       | Some dp =>
         do ds <- read (Dimensions dp);
         rangeLoop (fun d _ => sanitizeDimension d) ds tt
       end)
    dps tt.

(** What becomes of an ASCII character of a key: a character of
    [[A-Za-z0-9_-]] stays, any other is an underscore. *)
Definition asciiKey (c : ascii) : ascii :=
  if keyChar c then c else "_"%char.

(** The elements of [s] in [h'] are those of the resource-level list
    [e], as the store [h0] has them, followed by pointers to dimensions
    allocated after [h0]. *)
Definition sharesResource (h0 : heap) (e : slice) (h' : heap) (s : slice)
  : Prop :=
  exists own,
    elems h' s = elems h0 e ++ List.map Some own
    /\ Forall (fun a => (length (objects h0) <= a < length (objects h'))%nat)
         own
    /\ inBounds h' s.

(** The number of datapoints of a histogram data point: the count, the
    sum, and one for every bucket count unless the bucket arrays
    disagree. *)
Definition histogramPoints (counts : list Z) (bounds : list float) : nat :=
  if bucketMismatch counts bounds then 2%nat else (2 + length counts)%nat.

(** The number of datapoints that a metric is converted to. *)
Definition pointCount (metric : pdata.Metric) : nat :=
  match Data metric with
  | MetricDataTypeNone => 0%nat
  | MetricDataTypeIntGauge dps => length (nonNil dps)
  | MetricDataTypeIntSum _ _ dps => length (nonNil dps)
  | MetricDataTypeDoubleGauge dps => length (nonNil dps)
  | MetricDataTypeDoubleSum _ _ dps => length (nonNil dps)
  | MetricDataTypeIntHistogram _ dps =>
    list_sum
      (List.map (fun x => histogramPoints (ihp_BucketCounts x)
                            (ihp_ExplicitBounds x)) (nonNil dps))
  | MetricDataTypeDoubleHistogram _ dps =>
    list_sum
      (List.map (fun x => histogramPoints (dhp_BucketCounts x)
                            (dhp_ExplicitBounds x)) (nonNil dps))
  end.

(** Every element of [s] points to a dimension allocated after [h0]. *)
Definition freshElems (h0 h : heap) (s : slice) : Prop :=
  Forall (fun p => exists a, p = Some a /\ (length (objects h0) <= a)%nat)
    (elems h s).

(** [s] is valid UTF-8: the runes that it decodes to, encoded again, are
    [s] (a byte that does not decode would come back as the three bytes
    of [U+FFFD]). *)
Definition validUTF8 (s : string) : Prop :=
  encodeAll (fun r => r) (runes s) = s.

(** The addresses of [l] are distinct and lie from [lo] up to [hi]. *)
Definition distinctIn (lo hi : nat) (l : list nat) : Prop :=
  NoDup l /\ Forall (fun a => (lo <= a < hi)%nat) l.

(** The datapoints [dps] were emitted while the store went from [h] to
    [h']: each has its dimensions on a backing array of its own,
    allocated in between, and they are the elements of the
    resource-level list [e] followed by pointers to dimensions of its
    own, allocated in between. [infos] lists, for every datapoint, the
    addresses of its own dimensions and of its backing array. *)
Definition emittedBetween (h0 : heap) (e : slice) (h h' : heap)
  (dps : list DataPoint) (infos : list (list nat * nat)) : Prop :=
  Forall2
    (fun dp i =>
       arr (Dimensions dp) = Some (snd i)
       /\ elems h' (Dimensions dp) = elems h0 e ++ List.map Some (fst i)
       /\ inBounds h' (Dimensions dp))
    dps infos
  /\ distinctIn (length (objects h)) (length (objects h'))
       (concat (List.map fst infos))
  /\ distinctIn (length (arrays h)) (length (arrays h')) (List.map snd infos).


(** ** The converter on batches as received *)

(** [metricToSfxDataPoints] on a metric as received. On nil data it
    faults before it has allocated anything: for a sum in
    [fromMetricDataTypeToMetricType], at [IsMonotonic()], for a
    histogram there too, at [AggregationTemporality()], and for a gauge
    at [DataPoints()] in the [switch]. *)
Definition metricToSfxDataPoints_orig (c : MetricsConverter)
  (metric : MetricOrig) (extraDimensions : slice) : M (list DataPoint) :=
  match metric with
  | DataOf m => metricToSfxDataPoints c m extraDimensions
  | NilDataOf _ _ => fun _ => None
  end.

Definition collectDataPoints_orig (c : MetricsConverter)
  (rm : ResourceMetricsOrig) : M (list DataPoint) :=
  let sfxDatapoints := [] in
  do extraDimensions <-
    resourceAttributesToDimensions (ResourceAttributesOrig rm);
  rangeLoop
    (fun ilm sfxDatapoints =>
       match ilm with
       | None => ret sfxDatapoints
       | Some ilm =>
         rangeLoop
           (fun m sfxDatapoints =>
              match m with
              | None => ret sfxDatapoints
              | Some m =>
                do dps <- metricToSfxDataPoints_orig c m extraDimensions;
                ret (sfxDatapoints ++ dps)
              end)
           (MetricsOrig ilm) sfxDatapoints
       end)
    (InstrumentationLibraryMetricsSliceOrig rm) sfxDatapoints.

(** [MetricDataToSignalFxV2] on a batch as received. *)
Definition MetricDataToSignalFxV2_orig (c : MetricsConverter)
  (rm : ResourceMetricsOrig) : M (list DataPoint) :=
  do sfxDatapoints <- collectDataPoints_orig c rm;
  do _ <- sanitizeDataPointDimensions sfxDatapoints;
  ret sfxDatapoints.

(** ** UTF-8: encoding and decoding agree *)

Lemma byte_val_range c : 0 <= byte_val c < 256.
Proof.
  unfold byte_val. pose proof (N_ascii_bounded c). lia.
Qed.

Lemma byte_val_byte_of z : 0 <= z < 256 -> byte_val (byte_of z) = z.
Proof.
  intros Hz. unfold byte_val, byte_of.
  rewrite Z.mod_small by lia.
  rewrite N_ascii_embedding by lia. lia.
Qed.

Lemma byte_of_byte_val c : byte_of (byte_val c) = c.
Proof.
  unfold byte_val, byte_of. pose proof (N_ascii_bounded c).
  rewrite Z.mod_small by lia. rewrite N2Z.id. apply ascii_N_embedding.
Qed.

(** Arithmetic and propositional solvers look at the whole context; the
    imports of the section play no part in the facts below. *)
Ltac forget_imports :=
  try clear isExcludingLatin; try clear FormatFloat; try clear growslice;
  try clear AttributeValueToString; try clear AttributeCloudAccount;
  try clear AttributeCloudRegion; try clear AttributeHostID;
  try clear AttributeCloudProvider; try clear AttributeCloudProviderAWS;
  try clear AttributeCloudProviderGCP; try clear SFxAccessTokenLabel.

Ltac zsolve := Z.div_mod_to_equations; lia.

Ltac decide_tests :=
  repeat match goal with
  | |- context [Z.leb ?a ?b] =>
    destruct (Z.leb_spec a b); try (exfalso; zsolve); simpl
  | |- context [Z.ltb ?a ?b] =>
    destruct (Z.ltb_spec a b); try (exfalso; zsolve); simpl
  | |- context [Z.eqb ?a ?b] =>
    destruct (Z.eqb_spec a b); try (exfalso; zsolve); simpl
  end.

Lemma DecodeRune_encode r rest :
  ValidRune r = true ->
  DecodeRuneInString (EncodeRune r ++ rest)%string
  = (r, String.length (EncodeRune r)).
Proof.
  forget_imports.
  unfold ValidRune, surrogate, MaxRune. intros Hv.
  apply andb_true_iff in Hv as [Hv Hs]. apply andb_true_iff in Hv as [H0 H1].
  apply Z.leb_le in H0, H1.
  unfold EncodeRune, ValidRune, surrogate, MaxRune.
  destruct (Z.leb_spec 0 r); [|lia]. simpl.
  destruct (Z.leb_spec r 0x7F); simpl.
  { unfold DecodeRuneInString. rewrite byte_val_byte_of by lia.
    unfold RuneSelf. destruct (Z.ltb_spec r 128); [reflexivity|lia]. }
  destruct (Z.leb_spec r 0x7FF); simpl.
  { unfold DecodeRuneInString, RuneSelf, first.
    assert (0 <= 192 + r / 64 < 256) by (clear Hs; Z.div_mod_to_equations; lia).
    repeat (rewrite byte_val_byte_of by zsolve).
    decide_tests. 
    f_equal. zsolve. }
  destruct (Z.leb_spec r 1114111); [|lia]. simpl.
  rewrite Hs. simpl.
  destruct (Z.leb_spec r 0xFFFF); simpl.
  { unfold DecodeRuneInString, RuneSelf, first, continuation.
    repeat (rewrite byte_val_byte_of by zsolve).
    apply negb_true_iff, andb_false_iff in Hs.
    rewrite !Z.leb_gt in Hs.
    decide_tests; f_equal; zsolve. }
  { unfold DecodeRuneInString, RuneSelf, first, continuation.
    repeat (rewrite byte_val_byte_of by zsolve).
    decide_tests; f_equal; zsolve. }
Qed.

Lemma runes_unfold c t :
  runes (String c t)
  = let (r, w) := DecodeRuneInString (String c t) in
    r :: match w, t with
         | 2%nat, String _ t2 => runes t2
         | 3%nat, String _ (String _ t3) => runes t3
         | 4%nat, String _ (String _ (String _ t4)) => runes t4
         | _, _ => runes t
         end.
Proof. reflexivity. Qed.

Lemma EncodeRune_cases r :
  (exists a, EncodeRune r = bytes [a])
  \/ (exists a b, EncodeRune r = bytes [a; b])
  \/ (exists a b c, EncodeRune r = bytes [a; b; c])
  \/ (exists a b c d, EncodeRune r = bytes [a; b; c; d]).
Proof.
  unfold EncodeRune.
  repeat match goal with
         | |- context [if ?b then _ else _] => destruct b
         end; eauto 10.
Qed.

Lemma runes_encode r rest :
  ValidRune r = true -> runes (EncodeRune r ++ rest)%string = r :: runes rest.
Proof.
  intros Hv. pose proof (DecodeRune_encode r rest Hv) as Hd.
  destruct (EncodeRune_cases r)
    as [(a & E)|[(a & b & E)|[(a & b & c & E)|(a & b & c & d & E)]]];
    rewrite E in *;
    cbn [bytes List.map string_of_list_ascii String.append String.length] in *;
    rewrite runes_unfold, Hd; reflexivity.
Qed.

Lemma ValidRune_RuneError : ValidRune RuneError = true.
Proof. reflexivity. Qed.

Lemma DecodeRune_valid s : ValidRune (fst (DecodeRuneInString s)) = true.
Proof.
  forget_imports.
  destruct s as [|c0 s1]; [reflexivity|].
  unfold DecodeRuneInString, RuneSelf.
  pose proof (byte_val_range c0).
  destruct (Z.ltb_spec (byte_val c0) 128).
  { unfold ValidRune, surrogate, MaxRune; cbn [fst]. decide_tests; auto. }
  unfold first.
  repeat match goal with
         | |- context [if ?b then _ else _] =>
           let E := fresh "E" in destruct b eqn:E; cbn [fst]
         | |- context [match ?s with EmptyString => _ | String _ _ => _ end] =>
           destruct s; cbn [fst]
         end; try reflexivity.
  all: repeat match goal with
         | H : negb _ = false |- _ => apply negb_false_iff in H
         | H : orb _ _ = false |- _ => apply orb_false_iff in H as [? ?]
         | H : andb _ _ = true |- _ => apply andb_true_iff in H as [? ?]
         | H : continuation _ = true |- _ => unfold continuation in H
         | H : Z.leb _ _ = true |- _ => apply Z.leb_le in H
         | H : Z.ltb _ _ = false |- _ => apply Z.ltb_ge in H
         | H : Z.eqb _ _ = true |- _ => apply Z.eqb_eq in H
         | H : Z.eqb _ _ = false |- _ => apply Z.eqb_neq in H
         | H : Z.leb _ _ = false |- _ => apply Z.leb_gt in H
         | H : andb _ _ = false |- _ =>
           apply andb_false_iff in H; rewrite !Z.leb_gt in H
         end.
  all: unfold ValidRune, surrogate, MaxRune.
  all: repeat match goal with
         | c : ascii |- _ => pose proof (byte_val_range c);
                             generalize dependent (byte_val c); clear c; intros
         end.
  all: apply andb_true_iff; split; [apply andb_true_iff; split; apply Z.leb_le
                                   |apply negb_true_iff, andb_false_iff;
                                    rewrite !Z.leb_gt]; zsolve.
Qed.

Lemma runes_valid_fuel n s :
  (String.length s <= n)%nat -> Forall (fun r => ValidRune r = true) (runes s).
Proof.
  revert s. induction n as [|n IH]; intros s Hn.
  { destruct s; [constructor|simpl in Hn; lia]. }
  destruct s as [|c t]; [constructor|].
  rewrite runes_unfold.
  pose proof (DecodeRune_valid (String c t)) as Hv.
  destruct (DecodeRuneInString (String c t)) as [r w].
  constructor; [exact Hv|].
  simpl in Hn.
  destruct w as [|[|[|[|[|w]]]]]; destruct t as [|? [|? [|? ?]]];
    apply IH; simpl in *; lia.
Qed.

Lemma runes_valid s : Forall (fun r => ValidRune r = true) (runes s).
Proof. apply (runes_valid_fuel (String.length s)). lia. Qed.

Lemma runes_ascii c t :
  byte_val c < 128 -> runes (String c t) = byte_val c :: runes t.
Proof.
  intros Hc. rewrite runes_unfold. unfold DecodeRuneInString, RuneSelf.
  destruct (Z.ltb_spec (byte_val c) 128); [reflexivity|lia].
Qed.

Lemma Map_encodeAll f s : strings.Map f s = encodeAll f (runes s).
Proof. reflexivity. Qed.

Lemma ValidRune_nonneg r : ValidRune r = true -> (r <? 0) = false.
Proof.
  unfold ValidRune. intros H.
  apply andb_true_iff in H as [H _]. apply andb_true_iff in H as [H _].
  apply Z.leb_le in H. apply Z.ltb_ge. exact H.
Qed.

Lemma runes_encodeAll f l :
  Forall (fun r => ValidRune (f r) = true) l ->
  runes (encodeAll f l) = List.map f l.
Proof.
  induction 1 as [|r l Hr Hl IH]; [reflexivity|].
  cbn [encodeAll List.fold_right List.map].
  rewrite (ValidRune_nonneg _ Hr).
  rewrite runes_encode by exact Hr.
  f_equal. exact IH.
Qed.

Lemma encodeAll_map_idem f l :
  (forall r, f (f r) = f r) -> encodeAll f (List.map f l) = encodeAll f l.
Proof.
  intros Hf. induction l as [|r l IH]; [reflexivity|].
  cbn [encodeAll List.fold_right List.map]. rewrite Hf.
  fold (encodeAll f (List.map f l)). fold (encodeAll f l).
  rewrite IH. reflexivity.
Qed.



Lemma filterMap_cases r : filterMap r = r \/ filterMap r = 0x5F.
Proof.
  unfold filterMap. destruct (keptRune _); auto.
Qed.

Lemma filterMap_idem r : filterMap (filterMap r) = filterMap r.
Proof.
  unfold filterMap.
  destruct (keptRune r) eqn:E; [rewrite E; reflexivity|].
  unfold keptRune. rewrite orb_true_r. reflexivity.
Qed.

Lemma filterMap_valid r : ValidRune r = true -> ValidRune (filterMap r) = true.
Proof.
  intros Hr. destruct (filterMap_cases r) as [-> | ->]; [exact Hr|reflexivity].
Qed.

Lemma runes_filterKeyChars s :
  runes (filterKeyChars s) = List.map filterMap (runes s).
Proof.
  unfold filterKeyChars. rewrite Map_encodeAll.
  apply runes_encodeAll.
  eapply List.Forall_impl; [|apply runes_valid].
  intros r Hr. apply filterMap_valid, Hr.
Qed.

Lemma filterKeyChars_idem s :
  filterKeyChars (filterKeyChars s) = filterKeyChars s.
Proof.
  unfold filterKeyChars at 1. rewrite Map_encodeAll.
  rewrite runes_filterKeyChars.
  rewrite encodeAll_map_idem by apply filterMap_idem. reflexivity.
Qed.

Lemma filterMap_ascii b :
  0 <= b < 128 ->
  0 <= filterMap b < 128 /\ keyChar (byte_of (filterMap b)) = true.
Proof.
  intros Hb.
  assert (Hk : forall x, 0 <= x < 128 ->
            (x = 95 \/ x = 45 \/ 48 <= x <= 57 \/ 65 <= x <= 90
             \/ 97 <= x <= 122) ->
            keyChar (byte_of x) = true).
  { intros x Hx Hc. unfold keyChar. rewrite byte_val_byte_of by lia.
    decide_tests; try reflexivity; exfalso; lia. }
  unfold filterMap, keptRune, unicode.IsLetter, unicode.IsDigit,
    unicode.MaxLatin1, unicode.latin1Letter.
  destruct (Z.leb_spec 0 b); [|lia].
  destruct (Z.leb_spec b 255); [|lia]. cbn [andb].
  match goal with
  | |- context [if ?c then _ else _] => destruct c eqn:E
  end; [|split; [lia|apply Hk; lia]].
  split; [lia|]. apply Hk; [lia|].
  repeat match type of E with
         | orb _ _ = true => apply orb_true_iff in E as [E|E]
         end;
  repeat match goal with
         | H : andb _ _ = true |- _ => apply andb_true_iff in H as [? ?]
         | H : Z.leb _ _ = true |- _ => apply Z.leb_le in H
         | H : Z.eqb _ _ = true |- _ => apply Z.eqb_eq in H
         end; lia.
Qed.

Lemma filterKeyChars_ascii s :
  isASCII s = true ->
  allChars keyChar (filterKeyChars s) = true
  /\ String.length (filterKeyChars s) = String.length s.
Proof.
  unfold filterKeyChars, strings.Map.
  induction s as [|c t IH]; [split; reflexivity|].
  cbn [isASCII allChars]. intros Hs.
  apply andb_true_iff in Hs as [Hc Ht]. apply Z.ltb_lt in Hc.
  unfold RuneSelf in Hc. pose proof (byte_val_range c) as Hr.
  rewrite runes_ascii by exact Hc. cbn [List.fold_right].
  destruct (IH Ht) as [IH1 IH2]. clear IH.
  set (out := List.fold_right _ _ (runes t)) in *.
  destruct (filterMap_ascii (byte_val c)) as [Hf Hk]; [lia|].
  destruct (Z.ltb_spec (filterMap (byte_val c)) 0); [lia|].
  unfold EncodeRune.
  destruct (Z.leb_spec 0 (filterMap (byte_val c))); [|lia].
  destruct (Z.leb_spec (filterMap (byte_val c)) 127); [|lia].
  cbn [andb bytes List.map string_of_list_ascii String.append allChars
       String.length].
  rewrite Hk, IH1, IH2. split; reflexivity.
Qed.

Lemma filterKeyChars_matches s :
  isASCII s = true -> s <> ""%string ->
  matchesKeyPattern (filterKeyChars s) = true.
Proof.
  intros Hs Hne. destruct (filterKeyChars_ascii s Hs) as [Hk Hl].
  destruct (filterKeyChars s) as [|c t] eqn:E.
  - destruct s; [congruence|discriminate Hl].
  - exact Hk.
Qed.


(** ** The store: extension and what a slice denotes *)

Lemma extends_refl h : extends h h.
Proof. split; reflexivity. Qed.

Lemma extends_trans h1 h2 h3 : extends h1 h2 -> extends h2 h3 -> extends h1 h3.
Proof. intros [? ?] [? ?]. split; etrans; eauto. Qed.

Lemma deref_extends h h' p d :
  extends h h' -> deref h p = Some d -> deref h' p = Some d.
Proof.
  intros [Ho _]. destruct p as [a|]; [|discriminate]. cbn [deref].
  intros Hd. eapply prefix_lookup_Some; eauto.
Qed.

Lemma elems_extends h h' s :
  extends h h' -> (len s <= length (backing h s))%nat ->
  backing h' s = backing h s /\ elems h' s = elems h s
  \/ len s = 0%nat.
Proof.
  intros [_ Ha] Hlen. unfold elems, backing in *.
  destruct (arr s) as [a|]; [|right; simpl in Hlen; lia].
  destruct (arrays h !! a) as [c|] eqn:E.
  - left. rewrite (prefix_lookup_Some _ _ _ _ E Ha). split; reflexivity.
  - right. simpl in Hlen. lia.
Qed.

Lemma dimsOf_extends h h' s ds :
  extends h h' -> dimsOf h s = Some ds -> dimsOf h' s = Some ds.
Proof.
  intros Hext. unfold dimsOf.
  destruct (Nat.leb_spec (len s) (length (backing h s))) as [Hlen|]; [|done].
  intros Hm.
  destruct (elems_extends h h' s Hext Hlen) as [[Hb He]|H0].
  - rewrite Hb, He. destruct (Nat.leb_spec (len s) (length (backing h s)));
      [|lia].
    apply mapM_Some in Hm. apply mapM_Some.
    eapply Forall2_impl; [exact Hm|]. intros p d. apply deref_extends, Hext.
  - unfold elems in *. rewrite H0 in *. simpl in *. exact Hm.
Qed.

Lemma view_extends h h' p fp :
  extends h h' -> view h p = Some fp -> view h' p = Some fp.
Proof.
  intros Hext. unfold view.
  destruct (dimsOf h (Dimensions p)) as [ds|] eqn:E; [|done].
  rewrite (dimsOf_extends _ _ _ _ Hext E). done.
Qed.

(** ** [labelsToDimensions]: the slice it builds *)

Lemma insert_middle {A} (l1 l2 : list A) (x y : A) (n : nat) :
  n = length l1 -> <[n := y]> (l1 ++ x :: l2) = l1 ++ y :: l2.
Proof.
  intros ->. rewrite insert_app_r_alt by lia.
  rewrite Nat.sub_diag. reflexivity.
Qed.

Lemma labelDims_app l1 l2 : labelDims (l1 ++ l2) = labelDims l1 ++ labelDims l2.
Proof. apply List.map_app. Qed.

Lemma length_labelDims l : length (labelDims l) = length l.
Proof. apply List.length_map. Qed.

Lemma labelsToDimensions_each_run O A E seen kv (todo : StringMap) C :
  (length E + length seen < C)%nat ->
  labelsToDimensions_each (length O) kv
    ({| arr := Some (length A); len := length E + length seen; cap := C |},
     length seen)
    {| objects := O ++ labelDims seen
                    ++ zeroDimension :: replicate (length todo) zeroDimension;
       arrays := A ++ [E ++ List.map Some (seq (length O) (length seen))
                         ++ None :: replicate (length todo) None] |}
  = Some (({| arr := Some (length A); len := S (length E + length seen);
              cap := C |}, S (length seen)),
          {| objects := O ++ labelDims (seen ++ [kv])
                          ++ replicate (length todo) zeroDimension;
             arrays := A ++ [E ++ List.map Some
                                    (seq (length O) (S (length seen)))
                               ++ replicate (length todo) None] |}).
Proof.
  intros HC. unfold labelsToDimensions_each, bind, load, store, append.
  cbn [objects arrays arr len cap].
  assert (Hn : (length O + length seen)%nat = length (O ++ labelDims seen)).
  { rewrite length_app, length_labelDims. reflexivity. }
  rewrite !(app_assoc O).
  assert (Hlt : forall x l,
    (length O + length seen
     <? length ((O ++ labelDims seen) ++ x :: l))%nat = true).
  { intros x l. apply Nat.ltb_lt. rewrite length_app. simpl. lia. }
  rewrite (list_lookup_middle _ _ _ _ Hn). cbn [objects arrays].
  rewrite Hlt. cbn [objects arrays].
  rewrite (insert_middle _ _ _ _ _ Hn).
  rewrite (list_lookup_middle _ _ _ _ Hn). cbn [objects arrays].
  rewrite Hlt. cbn [objects arrays Key Value].
  rewrite (insert_middle _ _ _ _ _ Hn).
  destruct (Nat.ltb_spec (length E + length seen) C) as [_|]; [|lia].
  rewrite (list_lookup_middle A [] _ (length A) eq_refl).
  rewrite (insert_middle A [] _ _ (length A) eq_refl).
  unfold ret. do 3 f_equal.
  - rewrite labelDims_app, <- !app_assoc. destruct kv. reflexivity.
  - do 2 f_equal.
    rewrite (app_assoc E), insert_middle
      by (rewrite length_app, List.length_map, length_seq; reflexivity).
    rewrite seq_S, List.map_app, <- !app_assoc. reflexivity.
Qed.

Lemma labelsToDimensions_loop_run O A E C (todo : StringMap) : forall seen,
  (length E + length seen + length todo <= C)%nat ->
  rangeLoop (labelsToDimensions_each (length O)) todo
    ({| arr := Some (length A); len := length E + length seen; cap := C |},
     length seen)
    {| objects := O ++ labelDims seen ++ replicate (length todo) zeroDimension;
       arrays := A ++ [E ++ List.map Some (seq (length O) (length seen))
                         ++ replicate (length todo) None] |}
  = Some (({| arr := Some (length A);
              len := length E + length (seen ++ todo); cap := C |},
           length (seen ++ todo)),
          {| objects := O ++ labelDims (seen ++ todo);
             arrays := A ++ [E ++ List.map Some
                                    (seq (length O) (length (seen ++ todo)))]
          |}).
Proof.
  induction todo as [|kv todo IH]; intros seen HC.
  - cbn [rangeLoop replicate length]. rewrite !app_nil_r. reflexivity.
  - cbn [rangeLoop replicate length]. unfold bind at 1.
    cbn [length] in HC.
    rewrite labelsToDimensions_each_run by lia.
    specialize (IH (seen ++ [kv])).
    rewrite length_app in IH. cbn [length] in IH.
    rewrite Nat.add_1_r in IH.
    replace (length E + S (length seen))%nat
      with (S (length E + length seen)) in IH by lia.
    rewrite IH by lia.
    rewrite <- !app_assoc. cbn [app].
    rewrite !length_app. cbn [length].
    replace (S (length seen) + length todo)%nat
      with (length seen + S (length todo))%nat by lia.
    reflexivity.
Qed.

Lemma elems_extends_eq h h' s :
  extends h h' -> (len s <= length (backing h s))%nat ->
  elems h' s = elems h s.
Proof.
  intros Hext Hlen.
  destruct (elems_extends h h' s Hext Hlen) as [[_ He]|H0]; [exact He|].
  unfold elems. rewrite H0. reflexivity.
Qed.

Lemma length_elems h s :
  (len s <= length (backing h s))%nat -> length (elems h s) = len s.
Proof. intros H. unfold elems. rewrite length_take. lia. Qed.

Lemma extends_app h O' A' :
  extends h {| objects := objects h ++ O'; arrays := arrays h ++ A' |}.
Proof. split; cbn; apply prefix_app_r; reflexivity. Qed.

Lemma labelsToDimensions_run labels e h :
  (len e <= length (backing h e))%nat ->
  labelsToDimensions labels e h
  = Some ({| arr := Some (length (arrays h));
             len := len e + length labels;
             cap := length labels + len e |},
          {| objects := objects h ++ labelDims labels;
             arrays := arrays h
               ++ [elems h e
                   ++ List.map Some (seq (length (objects h)) (length labels))]
          |}).
Proof.
  intros Hlen. unfold labelsToDimensions, bind, make, copy.
  destruct (Nat.ltb_spec (length labels + len e) (len e)) as [|_]; [lia|].
  cbn [arr len cap objects arrays]. rewrite Nat.min_id.
  set (h1 := {| objects := objects h;
                arrays := arrays h ++ [replicate (length labels + len e) None]
             |}).
  assert (He : elems h1 e = elems h e).
  { apply elems_extends_eq; [|exact Hlen].
    pose proof (extends_app h [] [replicate (length labels + len e) None]) as X.
    rewrite app_nil_r in X. exact X. }
  rewrite He. unfold backing at 1. cbn [arr h1 arrays].
  rewrite (list_lookup_middle (arrays h) [] _ _ eq_refl).
  rewrite (insert_middle (arrays h) [] _ _ _ eq_refl).
  cbn [default from_option id].
  unfold elems at 1. rewrite take_idemp. fold (elems h e).
  rewrite drop_replicate.
  replace (length labels + len e - len e)%nat with (length labels) by lia.
  pose proof (length_elems h e Hlen) as HE.
  destruct labels as [|kv labels].
  - cbn [length Nat.eqb ret replicate seq List.map labelDims].
    rewrite !app_nil_r, Nat.add_0_r. reflexivity.
  - cbn [length Nat.eqb]. unfold makeValues. cbn [objects arrays].
    pose proof (labelsToDimensions_loop_run (objects h) (arrays h)
                  (elems h e) (S (length labels) + len e) (kv :: labels) [])
      as Hloop.
    rewrite HE in Hloop.
    cbn [length app labelDims List.map seq replicate] in Hloop.
    rewrite Nat.add_0_r in Hloop.
    cbn [replicate]. unfold zeroDimension in Hloop.
    cbn [Nat.add] in *.
    rewrite Hloop by lia. reflexivity.
Qed.

Lemma dimsOf_bounds h s ds :
  dimsOf h s = Some ds -> (len s <= length (backing h s))%nat.
Proof.
  unfold dimsOf.
  destruct (Nat.leb_spec (len s) (length (backing h s))); [auto|discriminate].
Qed.

Lemma dimsOf_elems h s ds :
  dimsOf h s = Some ds ->
  Forall2 (fun p d => deref h p = Some d) (elems h s) ds.
Proof.
  intros H. pose proof (dimsOf_bounds _ _ _ H) as Hb. unfold dimsOf in H.
  destruct (Nat.leb_spec (len s) (length (backing h s))); [|lia].
  apply mapM_Some, H.
Qed.

Lemma deref_fresh h O news rest :
  objects h = O ++ news ++ rest ->
  Forall2 (fun p d => deref h p = Some d)
          (List.map Some (seq (length O) (length news))) news.
Proof.
  revert O. induction news as [|d news IH]; intros O HO; [constructor|].
  cbn [length seq List.map]. constructor.
  - cbn. rewrite HO. apply list_lookup_middle. reflexivity.
  - specialize (IH (O ++ [d])). rewrite length_app in IH. cbn [length] in IH.
    rewrite Nat.add_1_r in IH. apply IH. rewrite HO, <- app_assoc. reflexivity.
Qed.

(** The slice that [labelsToDimensions] returns is new, full, and holds
    the extra dimensions followed by the labels. *)
Lemma labelsToDimensions_post labels e h :
  inBounds h e ->
  exists s h',
    labelsToDimensions labels e h = Some (s, h')
    /\ extends h h'
    /\ arr s = Some (length (arrays h)) /\ len s = cap s
    /\ inBounds h' s
    /\ forall ds, dimsOf h e = Some ds ->
                  dimsOf h' s = Some (ds ++ labelDims labels).
Proof.
  intros Hb. pose proof (length_elems _ _ Hb) as HE.
  eexists _, _. split; [apply labelsToDimensions_run, Hb|].
  split; [apply extends_app|].
  split; [reflexivity|]. split; [cbn; lia|].
  assert (Hel : elems
    {| objects := objects h ++ labelDims labels;
       arrays := arrays h
         ++ [elems h e
             ++ List.map Some (seq (length (objects h)) (length labels))] |}
    {| arr := Some (length (arrays h)); len := len e + length labels;
       cap := length labels + len e |}
    = elems h e
      ++ List.map Some (seq (length (objects h)) (length labels))).
  { unfold elems at 1, backing. cbn [arr len arrays].
    rewrite (list_lookup_middle (arrays h) [] _ _ eq_refl).
    cbn [default from_option id].
    apply take_ge. rewrite length_app, List.length_map, length_seq. lia. }
  assert (Hin : inBounds
    {| objects := objects h ++ labelDims labels;
       arrays := arrays h
         ++ [elems h e
             ++ List.map Some (seq (length (objects h)) (length labels))] |}
    {| arr := Some (length (arrays h)); len := len e + length labels;
       cap := length labels + len e |}).
  { unfold inBounds, backing. cbn [arr len arrays].
    rewrite (list_lookup_middle (arrays h) [] _ _ eq_refl).
    cbn [default from_option id].
    rewrite length_app, List.length_map, length_seq. lia. }
  split; [exact Hin|].
  intros ds Hds. unfold dimsOf. rewrite Hel.
  apply Nat.leb_le in Hin. rewrite Hin.
  apply mapM_Some, Forall2_app.
  - eapply Forall2_impl; [apply dimsOf_elems, Hds|].
    intros p d. apply deref_extends, extends_app.
  - rewrite <- (length_labelDims labels).
    apply (deref_fresh _ _ _ []). cbn [objects]. rewrite app_nil_r. reflexivity.
Qed.

Lemma inBounds_extends h h' s : extends h h' -> inBounds h s -> inBounds h' s.
Proof.
  unfold inBounds. intros Hext Hb.
  destruct (elems_extends h h' s Hext Hb) as [[-> _] | ->]; [exact Hb|lia].
Qed.

(** ** Loops that append to their output *)

Lemma rangeLoop_emits {A} (body : A -> list DataPoint -> M (list DataPoint))
  (h0 : heap) (R : heap -> A -> list DataPoint -> Prop) :
  (forall x out h, extends h0 h ->
     exists new h', body x out h = Some (out ++ new, h')
                    /\ extends h h' /\ R h' x new) ->
  (forall h h' x new, extends h h' -> R h x new -> R h' x new) ->
  forall l out h, extends h0 h ->
    exists groups h',
      rangeLoop body l out h = Some (out ++ concat groups, h')
      /\ extends h h' /\ Forall2 (R h') l groups.
Proof.
  intros Hbody Hstable. induction l as [|x l IH]; intros out h Hh.
  - exists [], h. cbn. rewrite app_nil_r.
    split; [reflexivity|]. split; [apply extends_refl|constructor].
  - destruct (Hbody x out h Hh) as (new & h1 & Hrun & Hext & HR).
    destruct (IH (out ++ new) h1 (extends_trans _ _ _ Hh Hext))
      as (groups & h' & Hloop & Hext' & HF).
    exists (new :: groups), h'. cbn [rangeLoop concat]. unfold bind.
    rewrite Hrun, Hloop, <- app_assoc.
    split; [reflexivity|]. split; [eapply extends_trans; eauto|].
    constructor; [eapply Hstable; eauto|exact HF].
Qed.

Lemma rangeLoopFrom_emits {A}
  (body : nat -> A -> list DataPoint -> M (list DataPoint))
  (h0 : heap) (R : heap -> nat -> A -> list DataPoint -> Prop) :
  (forall j x out h, extends h0 h ->
     exists new h', body j x out h = Some (out ++ new, h')
                    /\ extends h h' /\ R h' j x new) ->
  (forall h h' j x new, extends h h' -> R h j x new -> R h' j x new) ->
  forall l j out h, extends h0 h ->
    exists groups h',
      rangeLoopFrom body j l out h = Some (out ++ concat groups, h')
      /\ extends h h'
      /\ Forall2 (fun jx new => R h' (fst jx) (snd jx) new)
                 (combine (seq j (length l)) l) groups.
Proof.
  intros Hbody Hstable. induction l as [|x l IH]; intros j out h Hh.
  - exists [], h. cbn. rewrite app_nil_r.
    split; [reflexivity|]. split; [apply extends_refl|constructor].
  - destruct (Hbody j x out h Hh) as (new & h1 & Hrun & Hext & HR).
    destruct (IH (S j) (out ++ new) h1 (extends_trans _ _ _ Hh Hext))
      as (groups & h' & Hloop & Hext' & HF).
    exists (new :: groups), h'. cbn [rangeLoopFrom concat]. unfold bind.
    rewrite Hrun, Hloop, <- app_assoc.
    split; [reflexivity|]. split; [eapply extends_trans; eauto|].
    cbn [length seq combine].
    constructor; [eapply Hstable; eauto|exact HF].
Qed.

(** One datapoint for every element that is not nil. *)
Lemma Forall2_nonNil {A} (Q : A -> DataPoint -> Prop)
  (l : list (option A)) (groups : list (list DataPoint)) :
  Forall2 (fun x new => match x with
                        | Some x => exists p, new = [p] /\ Q x p
                        | None => new = []
                        end) l groups ->
  Forall2 Q (nonNil l) (concat groups).
Proof.
  induction 1 as [|x new l groups Hx _ IH]; [constructor|].
  destruct x as [x|].
  - destruct Hx as (p & -> & HQ). cbn. constructor; assumption.
  - subst new. cbn. exact IH.
Qed.

(** ** Gauge and sum data points *)

Lemma newSlice_extends h h' s : extends h h' -> newSlice h' s -> newSlice h s.
Proof.
  intros [_ Ha] (a & Hs & Hle). exists a. split; [exact Hs|].
  apply prefix_length in Ha. lia.
Qed.

Lemma convertDatapoints_generic {A} (labelsOf : A -> StringMap)
  (mk : A -> slice -> DataPoint) (e : slice) (in_ : list (option A)) h :
  inBounds h e ->
  exists out h',
    rangeLoop
      (fun inDp out =>
         match inDp with
         | None => ret out
         | Some inDp =>
           do dims <- labelsToDimensions (labelsOf inDp) e;
           ret (out ++ [mk inDp dims])
         end) in_ [] h = Some (out, h')
    /\ extends h h'
    /\ Forall2 (fun x dp =>
         exists s, dp = mk x s /\ newSlice h s /\ inBounds h' s
           /\ forall ds, dimsOf h e = Some ds ->
                dimsOf h' s = Some (ds ++ labelDims (labelsOf x)))
       (nonNil in_) out.
Proof.
  intros Hb.
  pose (R := fun (h' : heap) (x : option A) (new : list DataPoint) =>
    match x with
    | Some x =>
      exists p, new = [p] /\
        exists s, p = mk x s /\ newSlice h s /\ inBounds h' s
          /\ forall ds, dimsOf h e = Some ds ->
               dimsOf h' s = Some (ds ++ labelDims (labelsOf x))
    | None => new = []
    end).
  edestruct (rangeLoop_emits
    (fun inDp out =>
       match inDp with
       | None => ret out
       | Some inDp =>
         do dims <- labelsToDimensions (labelsOf inDp) e;
         ret (out ++ [mk inDp dims])
       end) h R) as (groups & h' & Hrun & Hext & HF).
  - intros [x|] out h1 Hh1.
    + destruct (labelsToDimensions_post (labelsOf x) e h1
                  (inBounds_extends _ _ _ Hh1 Hb))
        as (s & h2 & Hrun & Hext & Harr & _ & Hin & Hds).
      exists [mk x s], h2. unfold bind. rewrite Hrun.
      split; [reflexivity|]. split; [exact Hext|].
      exists (mk x s). split; [reflexivity|]. exists s.
      split; [reflexivity|].
      split; [eapply newSlice_extends; [exact Hh1|];
              exists (length (arrays h1)); split; [exact Harr|lia]|].
      split; [exact Hin|].
      intros ds Hd. apply Hds. eapply dimsOf_extends; eauto.
    + exists [], h1. rewrite app_nil_r.
      split; [reflexivity|]. split; [apply extends_refl|reflexivity].
  - intros h1 h2 [x|] new Hext; [|auto].
    intros (p & -> & s & -> & Hnew & Hin & Hds).
    exists (mk x s). split; [reflexivity|]. exists s.
    split; [reflexivity|]. split; [exact Hnew|].
    split; [eapply inBounds_extends; eauto|].
    intros ds Hd. eapply dimsOf_extends; eauto.
  - apply extends_refl.
  - exists (concat groups), h'. split; [exact Hrun|]. split; [exact Hext|].
    apply Forall2_nonNil. eapply Forall2_impl; [exact HF|].
    intros [x|] new; auto.
Qed.

(** ** Allocation and [append] *)

Lemma new_post d h :
  exists h', new d h = Some (length (objects h), h')
             /\ extends h h'
             /\ arrays h' = arrays h
             /\ objects h' = objects h ++ [d]
             /\ deref h' (Some (length (objects h))) = Some d.
Proof.
  eexists. split; [reflexivity|].
  split; [pose proof (extends_app h [d] []) as X;
          rewrite app_nil_r in X; exact X|].
  split; [reflexivity|]. split; [reflexivity|].
  cbn. apply list_lookup_middle. reflexivity.
Qed.

Lemma backing_last (O : list Dimension) A cells s :
  arr s = Some (length A) ->
  backing {| objects := O; arrays := A ++ [cells] |} s = cells.
Proof.
  intros Hs. unfold backing. rewrite Hs. cbn [arrays].
  rewrite (list_lookup_middle A [] _ _ eq_refl). reflexivity.
Qed.

(** [append] to a full slice: a new backing array, the old one is not
    written. *)
Lemma append_full_post s x h :
  len s = cap s -> inBounds h s ->
  exists s' h',
    append growslice s x h = Some (s', h')
    /\ extends h h'
    /\ objects h' = objects h
    /\ arr s' = Some (length (arrays h)) /\ len s' = S (len s)
    /\ inBounds h' s' /\ (len s' <= cap s' <= length (backing h' s'))%nat
    /\ forall ds d, dimsOf h s = Some ds -> deref h x = Some d ->
                    dimsOf h' s' = Some (ds ++ [d]).
Proof.
  intros Hfull Hb. unfold append. rewrite Hfull, Nat.ltb_irrefl.
  rewrite <- Hfull.
  set (c := Nat.max (S (len s)) (growslice (len s) (S (len s)))).
  set (cells := elems h s ++ x :: replicate (c - S (len s)) None).
  set (s' := {| arr := Some (length (arrays h)); len := S (len s); cap := c |}).
  set (h' := {| objects := objects h; arrays := arrays h ++ [cells] |}).
  assert (Hext : extends h h').
  { pose proof (extends_app h [] [cells]) as X.
    rewrite app_nil_r in X. exact X. }
  assert (Hback : backing h' s' = cells) by (apply backing_last; reflexivity).
  assert (Hlen : length cells = c).
  { unfold cells. rewrite length_app, (length_elems _ _ Hb). cbn [length].
    rewrite length_replicate. lia. }
  assert (Hin : inBounds h' s').
  { unfold inBounds. rewrite Hback, Hlen. cbn. lia. }
  exists s', h'. split; [reflexivity|]. split; [exact Hext|].
  split; [reflexivity|]. split; [reflexivity|]. split; [reflexivity|].
  split; [exact Hin|].
  split; [rewrite Hback, Hlen; cbn; lia|].
  intros ds d Hds Hx. unfold dimsOf.
  apply Nat.leb_le in Hin. rewrite Hin.
  unfold elems. rewrite Hback. cbn [len s'].
  unfold cells.
  rewrite cons_middle, app_assoc, take_app_length'
    by (rewrite length_app, (length_elems _ _ Hb); cbn; lia).
  apply mapM_Some, Forall2_app.
  - eapply Forall2_impl; [apply dimsOf_elems, Hds|].
    intros p d'. apply deref_extends, Hext.
  - constructor; [|constructor]. eapply deref_extends; eauto.
Qed.

(** ** Histogram data points *)

Lemma bucketPoint_post labels bounds ts basePoint e j c out h :
  inBounds h e ->
  exists s h',
    bucketPoint labels bounds ts basePoint e j c out h
    = Some (out ++ [bucketDataPoint basePoint ts c s], h')
    /\ extends h h'
    /\ newSlice h s /\ inBounds h' s
    /\ forall ds, dimsOf h e = Some ds ->
         dimsOf h' s
         = Some (ds ++ labelDims labels
                 ++ [{| Key := upperBoundDimensionKey;
                        Value := bucketBound bounds j |}]).
Proof.
  intros Hb.
  destruct (labelsToDimensions_post labels e h Hb)
    as (s1 & h1 & Hrun1 & Hext1 & Harr1 & Hfull1 & Hin1 & Hds1).
  destruct (new_post {| Key := upperBoundDimensionKey;
                        Value := bucketBound bounds j |} h1)
    as (h2 & Hrun2 & Hext2 & Harr2 & Hobj2 & Hub).
  destruct (append_full_post s1 (Some (length (objects h1))) h2 Hfull1
              (inBounds_extends _ _ _ Hext2 Hin1))
    as (s3 & h3 & Hrun3 & Hext3 & Hobj3 & Harr3 & Hlen3 & Hin3 & _ & Hds3).
  exists s3, h3. unfold bucketPoint, bind. rewrite Hrun1.
  fold (bucketBound bounds j). rewrite Hrun2, Hrun3.
  split; [reflexivity|].
  split; [eauto using extends_trans|].
  split.
  { exists (length (arrays h2)). split; [exact Harr3|].
    destruct Hext1 as [_ Ha1]. apply prefix_length in Ha1.
    rewrite Harr2. lia. }
  split; [exact Hin3|].
  intros ds Hds. rewrite app_assoc. apply Hds3; [|exact Hub].
  eapply dimsOf_extends; [exact Hext2|]. apply Hds1, Hds.
Qed.

Lemma sliceHolds_extends h0 e h1 h2 s extra :
  extends h1 h2 -> sliceHolds h0 e h1 s extra -> sliceHolds h0 e h2 s extra.
Proof.
  intros Hext (Hnew & Hin & Hds). split; [exact Hnew|].
  split; [eapply inBounds_extends; eauto|].
  intros ds Hd. eapply dimsOf_extends; eauto.
Qed.

Lemma Forall2_singletons {A} (Q : A -> DataPoint -> Prop)
  (l : list A) (groups : list (list DataPoint)) :
  Forall2 (fun x new => exists p, new = [p] /\ Q x p) l groups ->
  Forall2 Q l (concat groups).
Proof.
  induction 1 as [|x new l groups (p & -> & HQ) _ IH]; [constructor|].
  cbn. constructor; assumption.
Qed.

Lemma Forall2_nonNil_groups {A} (Q : A -> list DataPoint -> Prop)
  (l : list (option A)) (groups : list (list DataPoint)) :
  Forall2 (fun x new => match x with
                        | Some x => Q x new
                        | None => new = []
                        end) l groups ->
  exists groups', concat groups' = concat groups
                  /\ Forall2 Q (nonNil l) groups'.
Proof.
  induction 1 as [|x new l groups Hx _ (groups' & Hc & IH)].
  - exists []. split; [reflexivity|constructor].
  - destruct x as [x|].
    + exists (new :: groups'). cbn. rewrite Hc.
      split; [reflexivity|]. constructor; assumption.
    + subst new. exists groups'. split; [exact Hc|exact IH].
Qed.

Lemma histogramGroup_extends {A} labelsOf tsOf countsOf boundsOf mkCount mkSum
  basePoint h0 e h1 h2 (x : A) group :
  extends h1 h2 ->
  histogramGroup labelsOf tsOf countsOf boundsOf mkCount mkSum basePoint
    h0 e h1 x group ->
  histogramGroup labelsOf tsOf countsOf boundsOf mkCount mkSum basePoint
    h0 e h2 x group.
Proof.
  intros Hext (sc & ss & buckets & -> & Hc & Hs & Hb).
  exists sc, ss, buckets. split; [reflexivity|].
  split; [eapply sliceHolds_extends; eauto|].
  split; [eapply sliceHolds_extends; eauto|].
  destruct (bucketMismatch _ _); [exact Hb|].
  eapply Forall2_impl; [exact Hb|].
  intros jc p (s & -> & Hh). exists s. split; [reflexivity|].
  eapply sliceHolds_extends; eauto.
Qed.

Lemma bucketLoop_post labels bounds ts basePoint e counts out h :
  inBounds h e ->
  exists buckets h',
    rangeLoopFrom (bucketPoint labels bounds ts basePoint e) 0 counts out h
    = Some (out ++ buckets, h')
    /\ extends h h'
    /\ Forall2
         (fun jc p =>
            exists s, p = bucketDataPoint basePoint ts (snd jc) s
              /\ sliceHolds h e h' s
                   (labelDims labels
                    ++ [{| Key := upperBoundDimensionKey;
                           Value := bucketBound bounds (fst jc) |}]))
         (combine (seq 0 (length counts)) counts) buckets.
Proof.
  intros Hb.
  edestruct (rangeLoopFrom_emits
    (bucketPoint labels bounds ts basePoint e) h
    (fun h' j c new =>
       exists p, new = [p] /\
         exists s, p = bucketDataPoint basePoint ts c s
           /\ sliceHolds h e h' s
                (labelDims labels
                 ++ [{| Key := upperBoundDimensionKey;
                        Value := bucketBound bounds j |}])))
    as (groups & h' & Hrun & Hext & HF).
  - intros j c out1 h1 Hh1.
    destruct (bucketPoint_post labels bounds ts basePoint e j c out1 h1
                (inBounds_extends _ _ _ Hh1 Hb))
      as (s & h2 & Hrun & Hext & Hnew & Hin & Hds).
    exists [bucketDataPoint basePoint ts c s], h2.
    split; [exact Hrun|]. split; [exact Hext|].
    eexists. split; [reflexivity|]. exists s. split; [reflexivity|].
    split; [eapply newSlice_extends; eauto|]. split; [exact Hin|].
    intros ds Hd. apply Hds. eapply dimsOf_extends; eauto.
  - intros h1 h2 j c new Hext (p & -> & s & -> & Hh).
    eexists. split; [reflexivity|]. exists s. split; [reflexivity|].
    eapply sliceHolds_extends; eauto.
  - apply extends_refl.
  - exists (concat groups), h'. split; [exact Hrun|]. split; [exact Hext|].
    apply Forall2_singletons. exact HF.
Qed.

Lemma convertHistogram_generic {A} (labelsOf : A -> StringMap)
  (tsOf : A -> Z) (countsOf : A -> list Z) (boundsOf : A -> list float)
  (mkCount mkSum : A -> slice -> DataPoint) (basePoint : DataPoint)
  (e : slice) (histDPs : list (option A)) h :
  inBounds h e ->
  exists groups h',
    rangeLoop
      (fun histDP out =>
         match histDP with
         | None => ret out
         | Some histDP =>
           do dims <- labelsToDimensions (labelsOf histDP) e;
           do dims' <- labelsToDimensions (labelsOf histDP) e;
           if bucketMismatch (countsOf histDP) (boundsOf histDP)
           then ret (out ++ [mkCount histDP dims; mkSum histDP dims'])
           else
             rangeLoopFrom
               (bucketPoint (labelsOf histDP) (boundsOf histDP) (tsOf histDP)
                  basePoint e)
               0%nat (countsOf histDP)
               (out ++ [mkCount histDP dims; mkSum histDP dims'])
         end) histDPs [] h = Some (concat groups, h')
    /\ extends h h'
    /\ Forall2
         (histogramGroup labelsOf tsOf countsOf boundsOf mkCount mkSum
            basePoint h e h')
         (nonNil histDPs) groups.
Proof.
  intros Hb.
  edestruct (rangeLoop_emits
    (fun histDP out =>
       match histDP with
       | None => ret out
       | Some histDP =>
         do dims <- labelsToDimensions (labelsOf histDP) e;
         do dims' <- labelsToDimensions (labelsOf histDP) e;
         if bucketMismatch (countsOf histDP) (boundsOf histDP)
         then ret (out ++ [mkCount histDP dims; mkSum histDP dims'])
         else
           rangeLoopFrom
             (bucketPoint (labelsOf histDP) (boundsOf histDP) (tsOf histDP)
                basePoint e)
             0%nat (countsOf histDP)
             (out ++ [mkCount histDP dims; mkSum histDP dims'])
       end) h
    (fun h' x new =>
       match x with
       | Some x => histogramGroup labelsOf tsOf countsOf boundsOf mkCount
                     mkSum basePoint h e h' x new
       | None => new = []
       end)) as (groups & h' & Hrun & Hext & HF).
  - intros [x|] out h1 Hh1.
    + pose proof (inBounds_extends _ _ _ Hh1 Hb) as Hb1.
      destruct (labelsToDimensions_post (labelsOf x) e h1 Hb1)
        as (sc & h2 & Hrun2 & Hext2 & Harr2 & _ & Hin2 & Hds2).
      pose proof (inBounds_extends _ _ _ Hext2 Hb1) as Hb2.
      destruct (labelsToDimensions_post (labelsOf x) e h2 Hb2)
        as (ss & h3 & Hrun3 & Hext3 & Harr3 & _ & Hin3 & Hds3).
      pose proof (inBounds_extends _ _ _ Hext3 Hb2) as Hb3.
      assert (Hc : sliceHolds h e h3 sc (labelDims (labelsOf x))).
      { split; [eapply newSlice_extends; [exact Hh1|];
                exists (length (arrays h1)); split; [exact Harr2|lia]|].
        split; [eapply inBounds_extends; eauto|].
        intros ds Hd. eapply dimsOf_extends; [exact Hext3|].
        apply Hds2. eapply dimsOf_extends; eauto. }
      assert (Hs : sliceHolds h e h3 ss (labelDims (labelsOf x))).
      { split; [eapply newSlice_extends;
                  [exact (extends_trans _ _ _ Hh1 Hext2)|];
                exists (length (arrays h2)); split; [exact Harr3|lia]|].
        split; [exact Hin3|].
        intros ds Hd. apply Hds3.
        eapply dimsOf_extends; [exact (extends_trans _ _ _ Hh1 Hext2)|].
        exact Hd. }
      unfold bind. rewrite Hrun2, Hrun3.
      destruct (bucketMismatch (countsOf x) (boundsOf x)) eqn:Hm.
      * exists [mkCount x sc; mkSum x ss], h3.
        split; [reflexivity|].
        split; [eauto using extends_trans|].
        exists sc, ss, []. rewrite Hm. auto.
      * destruct (bucketLoop_post (labelsOf x) (boundsOf x) (tsOf x)
                    basePoint e (countsOf x)
                    (out ++ [mkCount x sc; mkSum x ss]) h3 Hb3)
          as (buckets & h4 & Hrun4 & Hext4 & HF4).
        exists (mkCount x sc :: mkSum x ss :: buckets), h4.
        rewrite Hrun4, <- app_assoc.
        split; [reflexivity|].
        split; [eauto using extends_trans|].
        exists sc, ss, buckets. rewrite Hm.
        split; [reflexivity|].
        split; [eapply sliceHolds_extends; eauto|].
        split; [eapply sliceHolds_extends; eauto|].
        eapply Forall2_impl; [exact HF4|].
        intros jc p (s & -> & Hnew & Hin & Hds).
        exists s. split; [reflexivity|].
        split; [eapply newSlice_extends;
                  [exact (extends_trans _ _ _ Hh1
                            (extends_trans _ _ _ Hext2 Hext3))|exact Hnew]|].
        split; [exact Hin|].
        intros ds Hd. apply Hds.
        eapply dimsOf_extends;
          [exact (extends_trans _ _ _ Hh1 (extends_trans _ _ _ Hext2 Hext3))|].
        exact Hd.
    + exists [], h1. rewrite app_nil_r.
      split; [reflexivity|]. split; [apply extends_refl|reflexivity].
  - intros h1 h2 [x|] new Hext; [|auto].
    apply histogramGroup_extends, Hext.
  - apply extends_refl.
  - destruct (Forall2_nonNil_groups _ _ _ HF) as (groups' & Hc & HF').
    exists groups', h'. rewrite Hc.
    split; [exact Hrun|]. split; [exact Hext|exact HF'].
Qed.

(** ** The resource dimensions *)

Lemma prefix_insert_ge {A} (l0 l : list A) (a : nat) (x : A) :
  l0 `prefix_of` l -> (length l0 <= a)%nat -> l0 `prefix_of` <[a := x]> l.
Proof.
  intros [k ->] Ha. rewrite insert_app_r_alt by exact Ha.
  apply prefix_app_r. reflexivity.
Qed.

Lemma owns_inBounds h0 h s : owns h0 h s -> inBounds h s.
Proof. intros (_ & ? & ? & _). unfold inBounds. lia. Qed.

Lemma owns_nil h : owns h h nilSlice.
Proof.
  split; [apply extends_refl|]. cbn. split; [lia|]. split; [lia|].
  intros a Ha. discriminate Ha.
Qed.

Lemma dimsOf_nil h : dimsOf h nilSlice = Some [].
Proof. reflexivity. Qed.

Lemma append_owned_post h0 s x h ds d :
  owns h0 h s -> dimsOf h s = Some ds -> deref h x = Some d ->
  exists s' h',
    append growslice s x h = Some (s', h')
    /\ owns h0 h' s' /\ objects h' = objects h
    /\ dimsOf h' s' = Some (ds ++ [d]).
Proof.
  intros (Hext & Hlc & Hcb & Hfresh) Hds Hx.
  destruct (Nat.ltb_spec (len s) (cap s)) as [Hlt|Hge].
  - unfold append. apply Nat.ltb_lt in Hlt as Hlt'. rewrite Hlt'. clear Hlt'.
    unfold backing in Hcb.
    destruct (arr s) as [a|] eqn:Ha; [|cbn in Hcb; lia].
    destruct (arrays h !! a) as [cells|] eqn:Hcells; [|cbn in Hcb; lia].
    cbn [default from_option id] in Hcb.
    set (cells' := <[len s := x]> cells).
    set (s' := {| arr := Some a; len := S (len s); cap := cap s |}).
    set (h' := {| objects := objects h;
                  arrays := <[a := cells']> (arrays h) |}).
    assert (Hback : backing h' s' = cells').
    { unfold backing. cbn [arr s' arrays h'].
      rewrite list_lookup_insert_eq; [reflexivity|].
      apply lookup_lt_Some in Hcells. exact Hcells. }
    assert (Hlen' : length cells' = length cells)
      by (unfold cells'; apply length_insert).
    assert (Hel : elems h' s' = elems h s ++ [x]).
    { unfold elems. rewrite Hback. cbn [len s'].
      unfold backing. rewrite Ha, Hcells. cbn [default from_option id].
      unfold cells'.
      rewrite (take_S_r _ _ x) by (apply list_lookup_insert_eq; lia).
      rewrite take_insert_ge by lia. reflexivity. }
    exists s', h'. split; [reflexivity|].
    split.
    { split.
      - destruct Hext as [Ho Har]. split; [exact Ho|].
        cbn [arrays h']. apply prefix_insert_ge; [exact Har|].
        apply Hfresh. reflexivity.
      - cbn [len cap s']. split; [lia|]. rewrite Hback, Hlen'.
        split; [exact Hcb|]. intros a' Ha'. apply Hfresh.
        cbn in Ha'. congruence. }
    split; [reflexivity|].
    unfold dimsOf. rewrite Hback, Hlen', Hel. cbn [len s'].
    destruct (Nat.leb_spec (S (len s)) (length cells)); [|lia].
    apply mapM_Some, Forall2_app.
    + apply dimsOf_elems in Hds. exact Hds.
    + constructor; [exact Hx|constructor].
  - assert (Hfull : len s = cap s) by lia.
    assert (Hb : inBounds h s) by (unfold inBounds; lia).
    destruct (append_full_post s x h Hfull Hb)
      as (s' & h' & Hrun & Hext' & Hobj & Harr & Hlen & Hin & Hcap & Hds').
    exists s', h'. split; [exact Hrun|].
    split.
    { split; [eapply extends_trans; eauto|].
      split; [lia|]. split; [lia|].
      intros a Ha. rewrite Harr in Ha. injection Ha as <-.
      destruct Hext as [_ Har]. apply prefix_length in Har. exact Har. }
    split; [exact Hobj|]. apply Hds'; assumption.
Qed.

Lemma owns_extends_objects h0 h s h' :
  owns h0 h s -> extends h h' -> arrays h' = arrays h -> owns h0 h' s.
Proof.
  intros (Hext & Hlc & Hcb & Hfresh) Hext' Harr.
  split; [eapply extends_trans; eauto|]. split; [exact Hlc|].
  split; [unfold backing in *; rewrite Harr; exact Hcb|exact Hfresh].
Qed.

(** [&sfxpb.Dimension{...}] followed by [append]. *)
Lemma appendNew_post h0 s d h ds :
  owns h0 h s -> dimsOf h s = Some ds ->
  exists s' h',
    (do p <- new d; append growslice s (Some p)) h = Some (s', h')
    /\ owns h0 h' s' /\ dimsOf h' s' = Some (ds ++ [d]).
Proof.
  intros Hown Hds.
  destruct (new_post d h) as (h1 & Hrun1 & Hext1 & Harr1 & Hobj1 & Hd).
  destruct (append_owned_post h0 s (Some (length (objects h))) h1 ds d
              (owns_extends_objects _ _ _ _ Hown Hext1 Harr1)
              (dimsOf_extends _ _ _ _ Hext1 Hds) Hd)
    as (s' & h' & Hrun & Hown' & _ & Hds').
  exists s', h'. unfold bind. rewrite Hrun1. auto.
Qed.

Lemma resourceLoop_post h0 keep attrs : forall s h acc,
  owns h0 h s -> dimsOf h s = Some acc ->
  exists s' h',
    rangeLoop
      (fun kv dims =>
         let k := fst kv in
         let val := snd kv in
         if (k =? SFxAccessTokenLabel)%string then ret dims
         else if negb (keep k) then ret dims
         else
           do d <- new {| Key := k;
                          Value := AttributeValueToString val false |};
           append growslice dims (Some d))
      attrs s h = Some (s', h')
    /\ owns h0 h' s'
    /\ dimsOf h' s' = Some (acc ++ plainDimensions keep attrs).
Proof.
  induction attrs as [|[k v] attrs IH]; intros s h acc Hown Hds.
  - exists s, h. cbn. rewrite app_nil_r. auto.
  - cbn [rangeLoop fst snd]. unfold plainDimensions.
    cbn [List.filter fst snd]. fold (plainDimensions keep attrs).
    destruct (k =? SFxAccessTokenLabel)%string; cbn [negb andb].
    { unfold bind, ret. apply IH; assumption. }
    destruct (keep k); cbn [negb].
    2: { unfold bind, ret. apply IH; assumption. }
    destruct (appendNew_post h0 s
                {| Key := k; Value := AttributeValueToString v false |}
                h acc Hown Hds) as (s1 & h1 & Hrun1 & Hown1 & Hds1).
    destruct (IH s1 h1 _ Hown1 Hds1) as (s' & h' & Hrun & Hown' & Hds').
    exists s', h'. unfold bind at 1. rewrite Hrun1.
    split; [exact Hrun|]. split; [exact Hown'|].
    rewrite Hds', <- app_assoc. reflexivity.
Qed.

Lemma resourceAttributesToDimensions_post attrs h :
  exists s h',
    resourceAttributesToDimensions attrs h = Some (s, h')
    /\ owns h h' s
    /\ dimsOf h' s = Some (resourceDimensions attrs).
Proof.
  unfold resourceAttributesToDimensions, resourceDimensions.
  set (accountID := getStringAttr attrs AttributeCloudAccount).
  set (region := getStringAttr attrs AttributeCloudRegion).
  set (instanceID := getStringAttr attrs AttributeHostID).
  set (provider := getStringAttr attrs AttributeCloudProvider).
  assert (Hplain : forall keep,
    exists s h',
      (do (filter, dims) <- ret (keep, nilSlice);
       rangeLoop
         (fun kv dims =>
            let k := fst kv in
            let val := snd kv in
            if (k =? SFxAccessTokenLabel)%string then ret dims
            else if negb (filter k) then ret dims
            else
              do d <- new {| Key := k;
                             Value := AttributeValueToString val false |};
              append growslice dims (Some d))
         attrs dims) h = Some (s, h')
      /\ owns h h' s /\ dimsOf h' s = Some (plainDimensions keep attrs)).
  { intros keep. unfold bind at 1, ret at 1.
    apply (resourceLoop_post h keep attrs nilSlice h []);
      [apply owns_nil|apply dimsOf_nil]. }
  assert (Hsynth : forall keep d,
    exists s h',
      (do (filter, dims) <-
         (do p <- new d;
          do dims <- append growslice nilSlice (Some p);
          ret (keep, dims));
       rangeLoop
         (fun kv dims =>
            let k := fst kv in
            let val := snd kv in
            if (k =? SFxAccessTokenLabel)%string then ret dims
            else if negb (filter k) then ret dims
            else
              do d <- new {| Key := k;
                             Value := AttributeValueToString val false |};
              append growslice dims (Some d))
         attrs dims) h = Some (s, h')
      /\ owns h h' s /\ dimsOf h' s = Some (d :: plainDimensions keep attrs)).
  { intros keep d.
    destruct (appendNew_post h nilSlice d h [] (owns_nil h) (dimsOf_nil h))
      as (s1 & h1 & Hrun1 & Hown1 & Hds1).
    destruct (resourceLoop_post h keep attrs s1 h1 _ Hown1 Hds1)
      as (s' & h' & Hrun & Hown' & Hds').
    exists s', h'. unfold bind in Hrun1 |- *.
    destruct (new d h) as [[p hp]|]; [|discriminate].
    rewrite Hrun1. unfold ret. auto. }
  destruct (provider =? AttributeCloudProviderAWS)%string.
  { destruct ((instanceID =? "")%string || (region =? "")%string
              || (accountID =? "")%string);
      [apply Hplain|apply Hsynth]. }
  destruct (provider =? AttributeCloudProviderGCP)%string.
  { destruct ((accountID =? "")%string || (instanceID =? "")%string);
      [apply Hplain|apply Hsynth]. }
  apply Hplain.
Qed.

(** ** The sanitizer: writing through shared pointers *)

Lemma sanitizeDim_idem d : sanitizeDim (sanitizeDim d) = sanitizeDim d.
Proof.
  unfold sanitizeDim. cbn [Key Value]. rewrite filterKeyChars_idem.
  reflexivity.
Qed.

Lemma sanitizedAt_nil O : sanitizedAt [] O = O.
Proof.
  apply list_eq. intros i. unfold sanitizedAt. rewrite list_lookup_imap.
  destruct (O !! i); [|reflexivity]. cbn.
  rewrite bool_decide_eq_false_2; [reflexivity|]. apply not_elem_of_nil.
Qed.

Lemma sanitizedAt_app V1 V2 O :
  sanitizedAt V2 (sanitizedAt V1 O) = sanitizedAt (V1 ++ V2) O.
Proof.
  forget_imports.
  apply list_eq. intros i. unfold sanitizedAt. rewrite !list_lookup_imap.
  destruct (O !! i) as [d|]; [|reflexivity]. cbn. f_equal.
  destruct (decide (Some i ∈ V1)) as [H1|H1];
    destruct (decide (Some i ∈ V2)) as [H2|H2];
    repeat first [rewrite (bool_decide_eq_true_2 (Some i ∈ V1)) by exact H1
                 |rewrite (bool_decide_eq_false_2 (Some i ∈ V1)) by exact H1
                 |rewrite (bool_decide_eq_true_2 (Some i ∈ V2)) by exact H2
                 |rewrite (bool_decide_eq_false_2 (Some i ∈ V2)) by exact H2].
  - rewrite bool_decide_eq_true_2 by (apply elem_of_app; auto).
    apply sanitizeDim_idem.
  - rewrite bool_decide_eq_true_2 by (apply elem_of_app; auto). reflexivity.
  - rewrite bool_decide_eq_true_2 by (apply elem_of_app; auto). reflexivity.
  - rewrite bool_decide_eq_false_2; [reflexivity|].
    rewrite elem_of_app. tauto.
Qed.

Lemma sanitizedAt_one a O d :
  O !! a = Some d -> <[a := sanitizeDim d]> O = sanitizedAt [Some a] O.
Proof.
  intros Ha. apply list_eq. intros i. unfold sanitizedAt.
  rewrite list_lookup_imap.
  destruct (decide (i = a)) as [->|Hne].
  - rewrite list_lookup_insert_eq by (eapply lookup_lt_Some; eauto).
    rewrite Ha. cbn.
    rewrite bool_decide_eq_true_2 by (apply list_elem_of_here). reflexivity.
  - rewrite list_lookup_insert_ne by congruence.
    destruct (O !! i); [|reflexivity]. cbn.
    rewrite bool_decide_eq_false_2; [reflexivity|].
    rewrite list_elem_of_singleton. congruence.
Qed.

Lemma sanitizeDimension_run p h d :
  deref h p = Some d ->
  sanitizeDimension p h
  = Some (tt, {| objects := sanitizedAt [p] (objects h);
                 arrays := arrays h |}).
Proof.
  intros Hd. destruct p as [a|]; [|discriminate]. cbn [deref] in Hd.
  unfold sanitizeDimension, bind, load, store. rewrite Hd.
  pose proof (lookup_lt_Some _ _ _ Hd) as Hlt.
  apply Nat.ltb_lt in Hlt. rewrite Hlt.
  fold (sanitizeDim d). rewrite (sanitizedAt_one _ _ _ Hd). reflexivity.
Qed.

Lemma deref_sanitizedAt V O A p :
  deref {| objects := sanitizedAt V O; arrays := A |} p
  = (fun d => if bool_decide (p ∈ V) then sanitizeDim d else d)
      <$> deref {| objects := O; arrays := A |} p.
Proof.
  destruct p as [a|]; [|reflexivity]. cbn [deref objects].
  unfold sanitizedAt. rewrite list_lookup_imap. reflexivity.
Qed.

Lemma sanitizeLoop_run ds : forall h,
  Forall (fun p => is_Some (deref h p)) ds ->
  rangeLoop (fun d _ => sanitizeDimension d) ds tt h
  = Some (tt, {| objects := sanitizedAt ds (objects h);
                 arrays := arrays h |}).
Proof.
  induction ds as [|p ds IH]; intros h Hall.
  - cbn. rewrite sanitizedAt_nil. destruct h; reflexivity.
  - inversion Hall as [|? ? [d Hd] Hrest]; subst.
    cbn [rangeLoop]. unfold bind. rewrite (sanitizeDimension_run _ _ _ Hd).
    rewrite IH.
    + cbn [objects arrays]. rewrite sanitizedAt_app. reflexivity.
    + eapply Forall_impl; [exact Hrest|]. intros q [dq Hq].
      destruct h as [O A]. rewrite deref_sanitizedAt. cbn [objects arrays].
      cbn [objects] in Hq. rewrite Hq. cbn. eauto.
Qed.

Lemma dimsOf_sanitizedAt_Some V O A s ds :
  dimsOf {| objects := O; arrays := A |} s = Some ds ->
  Forall (fun p => p ∈ V) (elems {| objects := O; arrays := A |} s) ->
  dimsOf {| objects := sanitizedAt V O; arrays := A |} s
  = Some (List.map sanitizeDim ds).
Proof.
  intros Hds HV. pose proof (dimsOf_bounds _ _ _ Hds) as Hb.
  pose proof (dimsOf_elems _ _ _ Hds) as HF.
  unfold dimsOf.
  change (backing {| objects := sanitizedAt V O; arrays := A |} s)
    with (backing {| objects := O; arrays := A |} s).
  change (elems {| objects := sanitizedAt V O; arrays := A |} s)
    with (elems {| objects := O; arrays := A |} s).
  apply Nat.leb_le in Hb. rewrite Hb. apply mapM_Some.
  set (l := elems {| objects := O; arrays := A |} s) in *. clearbody l.
  clear Hds Hb. revert HV.
  induction HF as [|p d ps ds' Hp _ IH]; intros HV; [constructor|].
  inversion HV; subst. cbn [List.map]. constructor; [|apply IH; assumption].
  rewrite deref_sanitizedAt, Hp. cbn.
  rewrite bool_decide_eq_true_2 by assumption. reflexivity.
Qed.

Lemma dimsOf_sanitizedAt_is_Some V O A s :
  is_Some (dimsOf {| objects := O; arrays := A |} s) ->
  is_Some (dimsOf {| objects := sanitizedAt V O; arrays := A |} s).
Proof.
  intros [ds Hds]. pose proof (dimsOf_bounds _ _ _ Hds) as Hb.
  pose proof (dimsOf_elems _ _ _ Hds) as HF.
  unfold dimsOf.
  change (backing {| objects := sanitizedAt V O; arrays := A |} s)
    with (backing {| objects := O; arrays := A |} s).
  change (elems {| objects := sanitizedAt V O; arrays := A |} s)
    with (elems {| objects := O; arrays := A |} s).
  apply Nat.leb_le in Hb. rewrite Hb. apply mapM_is_Some.
  set (l := elems {| objects := O; arrays := A |} s) in *. clearbody l.
  clear Hds Hb. induction HF as [|p d ps ds' Hp _ IH]; constructor; [|exact IH].
  cbn. rewrite deref_sanitizedAt, Hp. cbn. eauto.
Qed.

Lemma sanitizeDataPointDimensions_run dps : forall h,
  Forall (fun dp => is_Some (dimsOf h (Dimensions dp))) dps ->
  sanitizeDataPointDimensions dps h
  = Some (tt, {| objects := sanitizedAt (visited h dps) (objects h);
                 arrays := arrays h |}).
Proof.
  unfold sanitizeDataPointDimensions.
  induction dps as [|dp dps IH]; intros h Hall.
  - cbn. rewrite sanitizedAt_nil. destruct h; reflexivity.
  - inversion Hall as [|? ? [ds Hds] Hrest]; subst.
    cbn [rangeLoop]. unfold bind at 1 2, read.
    rewrite sanitizeLoop_run.
    2: { apply dimsOf_elems in Hds.
         clear -Hds. induction Hds; constructor; eauto. }
    destruct h as [O A]. cbn [objects arrays].
    rewrite IH.
    + cbn [objects arrays]. rewrite sanitizedAt_app. reflexivity.
    + eapply Forall_impl; [exact Hrest|]. intros q Hq.
      apply dimsOf_sanitizedAt_is_Some, Hq.
Qed.

Lemma view_sanitizedAt V h dp fp :
  view h dp = Some fp ->
  Forall (fun p => p ∈ V) (elems h (Dimensions dp)) ->
  view {| objects := sanitizedAt V (objects h); arrays := arrays h |} dp
  = Some (sanitizeFlat fp).
Proof.
  unfold view. destruct (dimsOf h (Dimensions dp)) as [ds|] eqn:Hds; [|done].
  intros [= <-] HV. destruct h as [O A].
  cbn [objects arrays]. rewrite (dimsOf_sanitizedAt_Some V O A _ ds Hds HV).
  reflexivity.
Qed.

Lemma elems_visited h dps dp :
  dp ∈ dps -> Forall (fun p => p ∈ visited h dps) (elems h (Dimensions dp)).
Proof.
  intros Hin. apply Forall_forall. intros p Hp. unfold visited.
  apply list_elem_of_In, in_concat.
  exists (elems h (Dimensions dp)). split.
  - apply in_map_iff. exists dp. split; [reflexivity|].
    apply list_elem_of_In, Hin.
  - apply list_elem_of_In, Hp.
Qed.

(** ** Gauge and sum data points: the dimensions of a datapoint *)

Lemma view_sliceHolds h e h' dp s extra ds :
  Dimensions dp = s ->
  sliceHolds h e h' s extra ->
  dimsOf h e = Some ds ->
  view h' dp
  = Some {| fpMetric := Metric dp; fpTimestamp := Timestamp dp;
            fpValue := DatumValue dp; fpType := MetricTypeOf dp;
            fpDimensions := ds ++ extra |}.
Proof.
  intros <- (_ & _ & Hds) Hd. unfold view. rewrite (Hds _ Hd). reflexivity.
Qed.

Lemma convertIntDatapoints_post in_ basePoint e h :
  inBounds h e ->
  exists out h',
    convertIntDatapoints in_ basePoint e h = Some (out, h')
    /\ extends h h'
    /\ Forall2 (fun x dp =>
         exists s,
           dp = setIntValue (idp_Value x)
                  (setDimensions s
                     (setTimestamp (timestampToSignalFx (idp_Timestamp x))
                        basePoint))
           /\ sliceHolds h e h' s (labelDims (idp_LabelsMap x)))
       (nonNil in_) out.
Proof.
  intros Hb.
  destruct (convertDatapoints_generic idp_LabelsMap
              (fun x s => setIntValue (idp_Value x)
                            (setDimensions s
                               (setTimestamp
                                  (timestampToSignalFx (idp_Timestamp x))
                                  basePoint)))
              e in_ h Hb) as (out & h' & Hrun & Hext & HF).
  exists out, h'. split; [exact Hrun|]. split; [exact Hext|].
  eapply Forall2_impl; [exact HF|].
  intros x dp (s & -> & Hnew & Hin & Hds). exists s.
  split; [reflexivity|]. split; [exact Hnew|]. split; [exact Hin|exact Hds].
Qed.

Lemma convertDoubleDatapoints_post in_ basePoint e h :
  inBounds h e ->
  exists out h',
    convertDoubleDatapoints in_ basePoint e h = Some (out, h')
    /\ extends h h'
    /\ Forall2 (fun x dp =>
         exists s,
           dp = setDoubleValue (ddp_Value x)
                  (setDimensions s
                     (setTimestamp (timestampToSignalFx (ddp_Timestamp x))
                        basePoint))
           /\ sliceHolds h e h' s (labelDims (ddp_LabelsMap x)))
       (nonNil in_) out.
Proof.
  intros Hb.
  destruct (convertDatapoints_generic ddp_LabelsMap
              (fun x s => setDoubleValue (ddp_Value x)
                            (setDimensions s
                               (setTimestamp
                                  (timestampToSignalFx (ddp_Timestamp x))
                                  basePoint)))
              e in_ h Hb) as (out & h' & Hrun & Hext & HF).
  exists out, h'. split; [exact Hrun|]. split; [exact Hext|].
  eapply Forall2_impl; [exact HF|].
  intros x dp (s & -> & Hnew & Hin & Hds). exists s.
  split; [reflexivity|]. split; [exact Hnew|]. split; [exact Hin|exact Hds].
Qed.

(** C7. For every gauge or sum data point, integer or floating-point, the
    dimension sequence of the datapoint that [convertIntDatapoints] or
    [convertDoubleDatapoints] emits for it is the resource-level
    dimension list [ds] first, followed by the labels of the data point
    in their order; it holds all of both. The datapoints come one for
    each data point that is not nil, in order, with the name and type of
    the base point, the timestamp in milliseconds and the value. *)
Theorem labels_follow_resource_dimensions basePoint e h ds :
  dimsOf h e = Some ds ->
  (forall in_,
     exists out h',
       convertIntDatapoints in_ basePoint e h = Some (out, h')
       /\ Forall2 (fun x dp =>
            view h' dp
            = Some {| fpMetric := Metric basePoint;
                      fpTimestamp := timestampToSignalFx (idp_Timestamp x);
                      fpValue :=
                        {| StrValue := StrValue (DatumValue basePoint);
                           DoubleValue := DoubleValue (DatumValue basePoint);
                           IntValue := Some (idp_Value x) |};
                      fpType := MetricTypeOf basePoint;
                      fpDimensions := ds ++ labelDims (idp_LabelsMap x) |})
          (nonNil in_) out)
  /\ (forall in_,
     exists out h',
       convertDoubleDatapoints in_ basePoint e h = Some (out, h')
       /\ Forall2 (fun x dp =>
            view h' dp
            = Some {| fpMetric := Metric basePoint;
                      fpTimestamp := timestampToSignalFx (ddp_Timestamp x);
                      fpValue :=
                        {| StrValue := StrValue (DatumValue basePoint);
                           DoubleValue := Some (ddp_Value x);
                           IntValue := IntValue (DatumValue basePoint) |};
                      fpType := MetricTypeOf basePoint;
                      fpDimensions := ds ++ labelDims (ddp_LabelsMap x) |})
          (nonNil in_) out).
Proof.
  intros Hds. pose proof (dimsOf_bounds _ _ _ Hds) as Hb. split; intros in_.
  - destruct (convertIntDatapoints_post in_ basePoint e h Hb)
      as (out & h' & Hrun & _ & HF).
    exists out, h'. split; [exact Hrun|].
    eapply Forall2_impl; [exact HF|].
    intros x dp (s & -> & Hh).
    erewrite (view_sliceHolds h e h' _ s);
      [reflexivity|reflexivity|exact Hh|exact Hds].
  - destruct (convertDoubleDatapoints_post in_ basePoint e h Hb)
      as (out & h' & Hrun & _ & HF).
    exists out, h'. split; [exact Hrun|].
    eapply Forall2_impl; [exact HF|].
    intros x dp (s & -> & Hh).
    erewrite (view_sliceHolds h e h' _ s);
      [reflexivity|reflexivity|exact Hh|exact Hds].
Qed.

(** ** Histogram data points *)

Lemma convertIntHistogram_post histDPs basePoint e h :
  inBounds h e ->
  exists groups h',
    convertIntHistogram histDPs basePoint e h = Some (concat groups, h')
    /\ extends h h'
    /\ Forall2
         (histogramGroup ihp_LabelsMap
            (fun x => timestampToSignalFx (ihp_Timestamp x))
            ihp_BucketCounts ihp_ExplicitBounds
            (fun x => countDataPoint basePoint
                        (timestampToSignalFx (ihp_Timestamp x)) (ihp_Count x))
            (fun x => intSumDataPoint basePoint
                        (timestampToSignalFx (ihp_Timestamp x)) (ihp_Sum x))
            basePoint h e h')
         (nonNil histDPs) groups.
Proof.
  intros Hb.
  exact (convertHistogram_generic ihp_LabelsMap
           (fun x => timestampToSignalFx (ihp_Timestamp x))
           ihp_BucketCounts ihp_ExplicitBounds
           (fun x => countDataPoint basePoint
                       (timestampToSignalFx (ihp_Timestamp x)) (ihp_Count x))
           (fun x => intSumDataPoint basePoint
                       (timestampToSignalFx (ihp_Timestamp x)) (ihp_Sum x))
           basePoint e histDPs h Hb).
Qed.

Lemma convertDoubleHistogram_post histDPs basePoint e h :
  inBounds h e ->
  exists groups h',
    convertDoubleHistogram histDPs basePoint e h = Some (concat groups, h')
    /\ extends h h'
    /\ Forall2
         (histogramGroup dhp_LabelsMap
            (fun x => timestampToSignalFx (dhp_Timestamp x))
            dhp_BucketCounts dhp_ExplicitBounds
            (fun x => countDataPoint basePoint
                        (timestampToSignalFx (dhp_Timestamp x)) (dhp_Count x))
            (fun x => doubleSumDataPoint basePoint
                        (timestampToSignalFx (dhp_Timestamp x)) (dhp_Sum x))
            basePoint h e h')
         (nonNil histDPs) groups.
Proof.
  intros Hb.
  exact (convertHistogram_generic dhp_LabelsMap
           (fun x => timestampToSignalFx (dhp_Timestamp x))
           dhp_BucketCounts dhp_ExplicitBounds
           (fun x => countDataPoint basePoint
                       (timestampToSignalFx (dhp_Timestamp x)) (dhp_Count x))
           (fun x => doubleSumDataPoint basePoint
                       (timestampToSignalFx (dhp_Timestamp x)) (dhp_Sum x))
           basePoint e histDPs h Hb).
Qed.

(** ** The resource-level dimension list is not written *)

Lemma sliceUnchanged_extends h h' e :
  extends h h' -> inBounds h e -> sliceUnchanged h h' e.
Proof.
  intros Hext Hb. split; [apply elems_extends_eq; assumption|]. split.
  - intros a _ Ha. destruct Hext as [_ Har]. symmetry.
    apply prefix_lookup_lt; assumption.
  - intros p d _. apply deref_extends, Hext.
Qed.

Lemma histogramGroup_newSlices {A} labelsOf tsOf countsOf boundsOf
  mkCount mkSum basePoint h e h' (xs : list A) groups :
  (forall x s, Dimensions (mkCount x s) = s) ->
  (forall x s, Dimensions (mkSum x s) = s) ->
  Forall2 (histogramGroup labelsOf tsOf countsOf boundsOf mkCount mkSum
             basePoint h e h') xs groups ->
  Forall (fun dp => newSlice h (Dimensions dp)) (concat groups).
Proof.
  intros Hc Hs HF. induction HF as [|x g xs groups Hg _ IH]; [constructor|].
  cbn [concat]. apply Forall_app. split; [|exact IH].
  destruct Hg as (sc & ss & buckets & -> & (Hnc & _) & (Hns & _) & Hb).
  constructor; [rewrite Hc; exact Hnc|].
  constructor; [rewrite Hs; exact Hns|].
  destruct (bucketMismatch _ _); [subst; constructor|].
  clear -Hb. induction Hb as [|jc p l buckets (s & -> & Hn & _) _ IH];
    constructor; [exact Hn|exact IH].
Qed.

(** C10. Converting the data points of a metric does not modify the
    resource-level dimension list [extraDims] passed in: after
    [convertIntDatapoints], [convertDoubleDatapoints],
    [convertIntHistogram] and [convertDoubleHistogram] the slice has the
    entries it had, its backing array is as it was, and so are the
    dimensions its entries point to; the dimensions of every datapoint
    emitted are in a backing array allocated by the conversion, and it is
    to this array that the [upper_bound] dimension is appended. *)
Theorem conversion_leaves_extraDims basePoint extraDims h :
  inBounds h extraDims ->
  (forall in_,
     exists out h',
       convertIntDatapoints in_ basePoint extraDims h = Some (out, h')
       /\ sliceUnchanged h h' extraDims
       /\ Forall (fun dp => newSlice h (Dimensions dp)) out)
  /\ (forall in_,
     exists out h',
       convertDoubleDatapoints in_ basePoint extraDims h = Some (out, h')
       /\ sliceUnchanged h h' extraDims
       /\ Forall (fun dp => newSlice h (Dimensions dp)) out)
  /\ (forall histDPs,
     exists out h',
       convertIntHistogram histDPs basePoint extraDims h = Some (out, h')
       /\ sliceUnchanged h h' extraDims
       /\ Forall (fun dp => newSlice h (Dimensions dp)) out)
  /\ (forall histDPs,
     exists out h',
       convertDoubleHistogram histDPs basePoint extraDims h = Some (out, h')
       /\ sliceUnchanged h h' extraDims
       /\ Forall (fun dp => newSlice h (Dimensions dp)) out).
Proof.
  intros Hb. repeat split.
  - intros in_.
    destruct (convertIntDatapoints_post in_ basePoint extraDims h Hb)
      as (out & h' & Hrun & Hext & HF).
    exists out, h'. split; [exact Hrun|].
    split; [apply sliceUnchanged_extends; assumption|].
    clear -HF. induction HF as [|x dp xs out (s & -> & Hn & _) _ IH];
      constructor; [exact Hn|exact IH].
  - intros in_.
    destruct (convertDoubleDatapoints_post in_ basePoint extraDims h Hb)
      as (out & h' & Hrun & Hext & HF).
    exists out, h'. split; [exact Hrun|].
    split; [apply sliceUnchanged_extends; assumption|].
    clear -HF. induction HF as [|x dp xs out (s & -> & Hn & _) _ IH];
      constructor; [exact Hn|exact IH].
  - intros histDPs.
    destruct (convertIntHistogram_post histDPs basePoint extraDims h Hb)
      as (groups & h' & Hrun & Hext & HF).
    exists (concat groups), h'. split; [exact Hrun|].
    split; [apply sliceUnchanged_extends; assumption|].
    eapply histogramGroup_newSlices; [| |exact HF]; reflexivity.
  - intros histDPs.
    destruct (convertDoubleHistogram_post histDPs basePoint extraDims h Hb)
      as (groups & h' & Hrun & Hext & HF).
    exists (concat groups), h'. split; [exact Hrun|].
    split; [apply sliceUnchanged_extends; assumption|].
    eapply histogramGroup_newSlices; [| |exact HF]; reflexivity.
Qed.

(** ** The datapoints of a histogram data point *)

Lemma bucketMismatch_valid (counts : list Z) (bounds : list float) :
  length counts = S (length bounds) -> bucketMismatch counts bounds = false.
Proof.
  intros H. unfold bucketMismatch. rewrite H.
  replace (length bounds + 1)%nat with (S (length bounds)) by lia.
  rewrite Nat.eqb_refl. apply andb_false_r.
Qed.


Lemma bucketBound_last (bounds : list float) :
  bucketBound bounds (length bounds) = float64ToDimValue infinity.
Proof. unfold bucketBound. rewrite Nat.ltb_irrefl. reflexivity. Qed.

(** The views of the datapoints of a group. *)
Lemma histogramGroup_views {A} (labelsOf : A -> StringMap) tsOf countsOf
  boundsOf mkCount mkSum basePoint h e h' (x : A) group ds :
  (forall x s, Dimensions (mkCount x s) = s) ->
  (forall x s, Dimensions (mkSum x s) = s) ->
  dimsOf h e = Some ds ->
  histogramGroup labelsOf tsOf countsOf boundsOf mkCount mkSum basePoint
    h e h' x group ->
  exists sc ss buckets,
    group = mkCount x sc :: mkSum x ss :: buckets
    /\ view h' (mkCount x sc)
       = Some {| fpMetric := Metric (mkCount x sc);
                 fpTimestamp := Timestamp (mkCount x sc);
                 fpValue := DatumValue (mkCount x sc);
                 fpType := MetricTypeOf (mkCount x sc);
                 fpDimensions := ds ++ labelDims (labelsOf x) |}
    /\ view h' (mkSum x ss)
       = Some {| fpMetric := Metric (mkSum x ss);
                 fpTimestamp := Timestamp (mkSum x ss);
                 fpValue := DatumValue (mkSum x ss);
                 fpType := MetricTypeOf (mkSum x ss);
                 fpDimensions := ds ++ labelDims (labelsOf x) |}
    /\ if bucketMismatch (countsOf x) (boundsOf x) then buckets = []
       else Forall2
              (fun jc p =>
                 view h' p
                 = Some {| fpMetric := Metric basePoint ++ "_bucket";
                           fpTimestamp := tsOf x;
                           fpValue :=
                             {| StrValue := StrValue (DatumValue basePoint);
                                DoubleValue :=
                                  DoubleValue (DatumValue basePoint);
                                IntValue := Some (int64 (snd jc)) |};
                           fpType := MetricTypeOf basePoint;
                           fpDimensions :=
                             ds ++ labelDims (labelsOf x)
                             ++ [{| Key := upperBoundDimensionKey;
                                    Value := bucketBound (boundsOf x) (fst jc)
                                 |}] |})
              (combine (seq 0 (length (countsOf x))) (countsOf x)) buckets.
Proof.
  intros Hc Hs Hds (sc & ss & buckets & -> & Hhc & Hhs & Hb).
  exists sc, ss, buckets. split; [reflexivity|].
  split; [eapply view_sliceHolds; eauto|].
  split; [eapply view_sliceHolds; eauto|].
  destruct (bucketMismatch _ _); [exact Hb|].
  eapply Forall2_impl; [exact Hb|].
  intros jc p (s & -> & Hh).
  erewrite (view_sliceHolds h e h' _ s); [reflexivity|reflexivity|exact Hh|].
  exact Hds.
Qed.

Lemma int64_small x : 0 <= x < 2 ^ 63 -> int64 x = x.
Proof. forget_imports. intros H. unfold int64. zsolve. Qed.

Lemma int64_large x : 2 ^ 63 <= x < 2 ^ 64 -> int64 x = x - 2 ^ 64.
Proof. forget_imports. intros H. unfold int64. zsolve. Qed.

(** The bound of the bucket of index [j], read off the explicit bounds
    followed by positive infinity. *)
Lemma bucketBound_lookup (bounds : list float) j b :
  (bounds ++ [infinity]) !! j = Some b ->
  bucketBound bounds j = FormatFloat b "g" (-1) 64.
Proof.
  intros Hj. unfold bucketBound.
  destruct (Nat.ltb_spec j (length bounds)) as [Hlt|Hge].
  - rewrite lookup_app_l in Hj by exact Hlt.
    rewrite nth_lookup, Hj. reflexivity.
  - rewrite lookup_app_r in Hj by exact Hge.
    apply list_lookup_singleton_Some in Hj as [_ <-]. reflexivity.
Qed.

Lemma Forall2_combine_seq {A B C} (P : nat * A -> C -> Prop)
  (Q : B * A -> C -> Prop) (l : list A) : forall (bl : list B) k cs,
  length bl = length l ->
  (forall i b a c, bl !! i = Some b -> P ((k + i)%nat, a) c -> Q (b, a) c) ->
  Forall2 P (combine (seq k (length l)) l) cs ->
  Forall2 Q (combine bl l) cs.
Proof.
  induction l as [|a l IH]; intros bl k cs Hlen HPQ HF.
  - destruct bl; [|discriminate]. cbn in HF |- *. inversion HF. constructor.
  - destruct bl as [|b bl]; [discriminate|].
    cbn [length seq combine] in HF |- *.
    inversion HF as [|? c ? cs' Hc Hrest]; subst.
    constructor.
    + apply (HPQ 0%nat b a c); [reflexivity|].
      rewrite Nat.add_0_r. exact Hc.
    + apply (IH bl (S k)); [cbn in Hlen; lia| |exact Hrest].
      intros i b' a' c' Hb' Hp. apply (HPQ (S i) b' a' c'); [exact Hb'|].
      rewrite Nat.add_succ_r. exact Hp.
Qed.

Lemma combine_snoc {A B} (l1 : list A) (l2 : list B) a b :
  length l1 = length l2 ->
  combine (l1 ++ [a]) (l2 ++ [b]) = combine l1 l2 ++ [(a, b)].
Proof.
  revert l2. induction l1 as [|x l1 IH]; intros [|y l2] Hlen;
    try discriminate; [reflexivity|].
  cbn. rewrite IH by (cbn in Hlen; lia). reflexivity.
Qed.

(** The buckets of a histogram data point against its explicit bounds
    followed by positive infinity, with the values written out. *)
Lemma bucket_views_explicit h' name ts sv dv ty (ds labels : list Dimension)
  (bounds : list float) (counts : list Z) buckets :
  length counts = S (length bounds) ->
  Forall2
    (fun jc p =>
       view h' p
       = Some {| fpMetric := name; fpTimestamp := ts;
                 fpValue := {| StrValue := sv; DoubleValue := dv;
                               IntValue := Some (int64 (snd jc)) |};
                 fpType := ty;
                 fpDimensions :=
                   ds ++ labels
                   ++ [{| Key := upperBoundDimensionKey;
                          Value := bucketBound bounds (fst jc) |}] |})
    (combine (seq 0 (length counts)) counts) buckets ->
  Forall2
    (fun bc p =>
       exists v,
         (0 <= snd bc < 2 ^ 63 -> v = snd bc)
         /\ (2 ^ 63 <= snd bc < 2 ^ 64 -> v = snd bc - 2 ^ 64)
         /\ view h' p
            = Some {| fpMetric := name; fpTimestamp := ts;
                      fpValue := {| StrValue := sv; DoubleValue := dv;
                                    IntValue := Some v |};
                      fpType := ty;
                      fpDimensions :=
                        ds ++ labels
                        ++ [{| Key := "upper_bound";
                               Value := FormatFloat (fst bc) "g" (-1) 64 |}]
                   |})
    (combine (bounds ++ [infinity]) counts) buckets
  /\ exists firstDPs lastDP lastFP,
       buckets = firstDPs ++ [lastDP]
       /\ view h' lastDP = Some lastFP
       /\ last (fpDimensions lastFP)
          = Some {| Key := "upper_bound";
                    Value := FormatFloat infinity "g" (-1) 64 |}.
Proof.
  intros Hlen HF.
  assert (HQ : Forall2
    (fun bc p =>
       exists v,
         (0 <= snd bc < 2 ^ 63 -> v = snd bc)
         /\ (2 ^ 63 <= snd bc < 2 ^ 64 -> v = snd bc - 2 ^ 64)
         /\ view h' p
            = Some {| fpMetric := name; fpTimestamp := ts;
                      fpValue := {| StrValue := sv; DoubleValue := dv;
                                    IntValue := Some v |};
                      fpType := ty;
                      fpDimensions :=
                        ds ++ labels
                        ++ [{| Key := "upper_bound";
                               Value := FormatFloat (fst bc) "g" (-1) 64 |}]
                   |})
    (combine (bounds ++ [infinity]) counts) buckets).
  { eapply (Forall2_combine_seq _ _ counts (bounds ++ [infinity]) 0%nat);
      [rewrite length_app; cbn; lia| |exact HF].
    intros i b a p Hb Hp. cbn [fst snd Nat.add] in Hp |- *.
    exists (int64 a). split; [apply int64_small|].
    split; [apply int64_large|].
    rewrite Hp, (bucketBound_lookup _ _ _ Hb). reflexivity. }
  split; [exact HQ|].
  destruct counts as [|c0 counts] using rev_ind; [discriminate|].
  clear IHcounts. rewrite length_app in Hlen. cbn in Hlen.
  rewrite combine_snoc in HQ by lia.
  apply Forall2_app_inv_l in HQ.
  destruct HQ as (k1 & k2 & _ & Hk2 & ->).
  inversion Hk2 as [|? p ? k2' (v & _ & _ & Hp) Hnil]; subst.
  inversion Hnil; subst.
  eexists k1, p, _. split; [reflexivity|]. split; [exact Hp|].
  cbn [fpDimensions fst]. rewrite !app_assoc. apply last_snoc.
Qed.

(** C2. For every histogram data point whose bucket counts are one more
    than its explicit bounds ([N] counts), integer or floating-point, the
    converter emits, in order, [2 + N] datapoints: the count, named
    [<metric name>_count], with an integer value that is the count of
    the data point when the count is below [2^63] (the count is a
    [uint64] converted to [int64]: from [2^63] on the value is the count
    less [2^64]); the sum, under the name of the metric; and [N] buckets
    named [<metric name>_bucket], each with an integer value, the bucket
    count under the same conversion (the floating-point value is nil,
    also for a floating-point histogram), and with an [upper_bound]
    dimension after the resource dimensions and the labels. The buckets
    go with the explicit bounds in order, followed by positive
    infinity: the [upper_bound] of the last bucket is the text of
    positive infinity. *)
Theorem histogram_data_point_flat_points (m : pdata.Metric) e h ds :
  dimsOf h e = Some ds ->
  (forall histDPs,
     exists groups h',
       convertIntHistogram histDPs (makeBaseDataPoint m) e h
       = Some (concat groups, h')
       /\ Forall2
            (fun x group =>
               length (ihp_BucketCounts x) = S (length (ihp_ExplicitBounds x))
               ->
               exists countDP sumDP buckets countValue,
                 group = countDP :: sumDP :: buckets
                 /\ length group = (2 + length (ihp_BucketCounts x))%nat
                 /\ (0 <= ihp_Count x < 2 ^ 63 -> countValue = ihp_Count x)
                 /\ (2 ^ 63 <= ihp_Count x < 2 ^ 64 ->
                     countValue = ihp_Count x - 2 ^ 64)
                 /\ view h' countDP
                    = Some {| fpMetric := Name m ++ "_count";
                              fpTimestamp :=
                                timestampToSignalFx (ihp_Timestamp x);
                              fpValue :=
                                {| StrValue := None; DoubleValue := None;
                                   IntValue := Some countValue |};
                              fpType := fromMetricDataTypeToMetricType m;
                              fpDimensions :=
                                ds ++ labelDims (ihp_LabelsMap x) |}
                 /\ view h' sumDP
                    = Some {| fpMetric := Name m;
                              fpTimestamp :=
                                timestampToSignalFx (ihp_Timestamp x);
                              fpValue :=
                                {| StrValue := None; DoubleValue := None;
                                   IntValue := Some (ihp_Sum x) |};
                              fpType := fromMetricDataTypeToMetricType m;
                              fpDimensions :=
                                ds ++ labelDims (ihp_LabelsMap x) |}
                 /\ Forall2
                      (fun bc bucketDP =>
                         exists bucketValue,
                           (0 <= snd bc < 2 ^ 63 -> bucketValue = snd bc)
                           /\ (2 ^ 63 <= snd bc < 2 ^ 64 ->
                               bucketValue = snd bc - 2 ^ 64)
                           /\ view h' bucketDP
                              = Some {| fpMetric := Name m ++ "_bucket";
                                        fpTimestamp :=
                                          timestampToSignalFx
                                            (ihp_Timestamp x);
                                        fpValue :=
                                          {| StrValue := None;
                                             DoubleValue := None;
                                             IntValue := Some bucketValue |};
                                        fpType :=
                                          fromMetricDataTypeToMetricType m;
                                        fpDimensions :=
                                          ds ++ labelDims (ihp_LabelsMap x)
                                          ++ [{| Key := "upper_bound";
                                                 Value :=
                                                   FormatFloat (fst bc) "g"
                                                     (-1) 64 |}] |})
                      (combine (ihp_ExplicitBounds x ++ [infinity])
                         (ihp_BucketCounts x))
                      buckets
                 /\ exists firstDPs lastDP lastFP,
                      buckets = firstDPs ++ [lastDP]
                      /\ view h' lastDP = Some lastFP
                      /\ last (fpDimensions lastFP)
                         = Some {| Key := "upper_bound";
                                   Value := FormatFloat infinity "g" (-1) 64
                                |})
            (nonNil histDPs) groups)
  /\ (forall histDPs,
     exists groups h',
       convertDoubleHistogram histDPs (makeBaseDataPoint m) e h
       = Some (concat groups, h')
       /\ Forall2
            (fun x group =>
               length (dhp_BucketCounts x) = S (length (dhp_ExplicitBounds x))
               ->
               exists countDP sumDP buckets countValue,
                 group = countDP :: sumDP :: buckets
                 /\ length group = (2 + length (dhp_BucketCounts x))%nat
                 /\ (0 <= dhp_Count x < 2 ^ 63 -> countValue = dhp_Count x)
                 /\ (2 ^ 63 <= dhp_Count x < 2 ^ 64 ->
                     countValue = dhp_Count x - 2 ^ 64)
                 /\ view h' countDP
                    = Some {| fpMetric := Name m ++ "_count";
                              fpTimestamp :=
                                timestampToSignalFx (dhp_Timestamp x);
                              fpValue :=
                                {| StrValue := None; DoubleValue := None;
                                   IntValue := Some countValue |};
                              fpType := fromMetricDataTypeToMetricType m;
                              fpDimensions :=
                                ds ++ labelDims (dhp_LabelsMap x) |}
                 /\ view h' sumDP
                    = Some {| fpMetric := Name m;
                              fpTimestamp :=
                                timestampToSignalFx (dhp_Timestamp x);
                              fpValue :=
                                {| StrValue := None;
                                   DoubleValue := Some (dhp_Sum x);
                                   IntValue := None |};
                              fpType := fromMetricDataTypeToMetricType m;
                              fpDimensions :=
                                ds ++ labelDims (dhp_LabelsMap x) |}
                 /\ Forall2
                      (fun bc bucketDP =>
                         exists bucketValue,
                           (0 <= snd bc < 2 ^ 63 -> bucketValue = snd bc)
                           /\ (2 ^ 63 <= snd bc < 2 ^ 64 ->
                               bucketValue = snd bc - 2 ^ 64)
                           /\ view h' bucketDP
                              = Some {| fpMetric := Name m ++ "_bucket";
                                        fpTimestamp :=
                                          timestampToSignalFx
                                            (dhp_Timestamp x);
                                        fpValue :=
                                          {| StrValue := None;
                                             DoubleValue := None;
                                             IntValue := Some bucketValue |};
                                        fpType :=
                                          fromMetricDataTypeToMetricType m;
                                        fpDimensions :=
                                          ds ++ labelDims (dhp_LabelsMap x)
                                          ++ [{| Key := "upper_bound";
                                                 Value :=
                                                   FormatFloat (fst bc) "g"
                                                     (-1) 64 |}] |})
                      (combine (dhp_ExplicitBounds x ++ [infinity])
                         (dhp_BucketCounts x))
                      buckets
                 /\ exists firstDPs lastDP lastFP,
                      buckets = firstDPs ++ [lastDP]
                      /\ view h' lastDP = Some lastFP
                      /\ last (fpDimensions lastFP)
                         = Some {| Key := "upper_bound";
                                   Value := FormatFloat infinity "g" (-1) 64
                                |})
            (nonNil histDPs) groups).
Proof.
  intros Hds. pose proof (dimsOf_bounds _ _ _ Hds) as Hb. split.
  - intros histDPs.
    destruct (convertIntHistogram_post histDPs (makeBaseDataPoint m) e h Hb)
      as (groups & h' & Hrun & _ & HF).
    exists groups, h'. split; [exact Hrun|].
    eapply Forall2_impl; [exact HF|].
    intros x group Hg Hlen.
    pose proof (fun Hc Hs =>
                  histogramGroup_views _ _ _ _ _ _ _ _ _ _ _ _ ds
                    Hc Hs Hds Hg) as Hv.
    destruct (Hv (fun _ _ => eq_refl) (fun _ _ => eq_refl))
      as (sc & ss & buckets & -> & Hvc & Hvs & Hbk). clear Hv.
    rewrite (bucketMismatch_valid _ _ Hlen) in Hbk.
    destruct (bucket_views_explicit _ _ _ _ _ _ _ _ _ _ _ Hlen Hbk)
      as [Hbk' Hlast].
    eexists _, _, buckets, (int64 (ihp_Count x)). split; [reflexivity|].
    split.
    { cbn [length]. apply Forall2_length in Hbk.
      rewrite length_combine, length_seq, Nat.min_id in Hbk. lia. }
    split; [apply int64_small|]. split; [apply int64_large|].
    split; [exact Hvc|]. split; [exact Hvs|]. split; [exact Hbk'|exact Hlast].
  - intros histDPs.
    destruct (convertDoubleHistogram_post histDPs (makeBaseDataPoint m) e h Hb)
      as (groups & h' & Hrun & _ & HF).
    exists groups, h'. split; [exact Hrun|].
    eapply Forall2_impl; [exact HF|].
    intros x group Hg Hlen.
    pose proof (fun Hc Hs =>
                  histogramGroup_views _ _ _ _ _ _ _ _ _ _ _ _ ds
                    Hc Hs Hds Hg) as Hv.
    destruct (Hv (fun _ _ => eq_refl) (fun _ _ => eq_refl))
      as (sc & ss & buckets & -> & Hvc & Hvs & Hbk). clear Hv.
    rewrite (bucketMismatch_valid _ _ Hlen) in Hbk.
    destruct (bucket_views_explicit _ _ _ _ _ _ _ _ _ _ _ Hlen Hbk)
      as [Hbk' Hlast].
    eexists _, _, buckets, (int64 (dhp_Count x)). split; [reflexivity|].
    split.
    { cbn [length]. apply Forall2_length in Hbk.
      rewrite length_combine, length_seq, Nat.min_id in Hbk. lia. }
    split; [apply int64_small|]. split; [apply int64_large|].
    split; [exact Hvc|]. split; [exact Hvs|]. split; [exact Hbk'|exact Hlast].
Qed.

(** ** The datapoints of a metric *)

Lemma metricToSfxDataPoints_shape c m e h :
  metricToSfxDataPoints c m e h
  = match Data m with
    | MetricDataTypeNone => Some ([], h)
    | _ => (do dps <- shapePoints m e; translate c dps) h
    end.
Proof.
  unfold metricToSfxDataPoints, shapePoints, translate.
  destruct (Data m); reflexivity.
Qed.

Lemma emittedFor_extends m h e h1 h2 dp :
  extends h1 h2 -> emittedFor m h e h1 dp -> emittedFor m h e h2 dp.
Proof.
  intros Hext (Ht & extra & Hh & Ho). split; [exact Ht|].
  exists extra. split; [eapply sliceHolds_extends; eauto|exact Ho].
Qed.

Lemma Forall2_Forall_emitted {A} (Q : A -> DataPoint -> Prop)
  (P : DataPoint -> Prop) (l : list A) (out : list DataPoint) :
  (forall x dp, In x l -> Q x dp -> P dp) ->
  Forall2 Q l out -> Forall P out.
Proof.
  intros HQ HF. induction HF as [|x dp l out Hx _ IH]; constructor.
  - apply (HQ x); [left; reflexivity|exact Hx].
  - apply IH. intros y dq Hy. apply HQ. right. exact Hy.
Qed.

Lemma histogramGroup_emitted {A} (labelsOf : A -> StringMap) tsOf countsOf
  boundsOf mkCount mkSum basePoint h e h' (P : DataPoint -> Prop)
  (xs : list A) groups :
  (forall x s, In x xs -> sliceHolds h e h' s (labelDims (labelsOf x)) ->
     P (mkCount x s) /\ P (mkSum x s)) ->
  (forall x s c ub, In x xs ->
     sliceHolds h e h' s
       (labelDims (labelsOf x)
        ++ [{| Key := upperBoundDimensionKey; Value := ub |}]) ->
     P (bucketDataPoint basePoint (tsOf x) c s)) ->
  Forall2 (histogramGroup labelsOf tsOf countsOf boundsOf mkCount mkSum
             basePoint h e h') xs groups ->
  Forall P (concat groups).
Proof.
  intros Hcs Hbk HF. induction HF as [|x g xs groups Hg _ IH]; [constructor|].
  cbn [concat]. apply Forall_app. split.
  - destruct Hg as (sc & ss & buckets & -> & Hhc & Hhs & Hb).
    destruct (Hcs x sc (or_introl eq_refl) Hhc) as [Pc _].
    destruct (Hcs x ss (or_introl eq_refl) Hhs) as [_ Ps].
    constructor; [exact Pc|]. constructor; [exact Ps|].
    destruct (bucketMismatch _ _); [subst; constructor|].
    assert (Hx : In x (x :: xs)) by (left; reflexivity).
    clear -Hb Hbk Hx.
    induction Hb as [|jc p lc buckets (s & -> & Hh) _ IHb]; constructor.
    + eapply Hbk; [exact Hx|exact Hh].
    + exact IHb.
  - apply IH.
    + intros y s Hy. apply Hcs. right. exact Hy.
    + intros y s c ub Hy. apply Hbk. right. exact Hy.
Qed.

Lemma ownDimensions_labels {A} m (labelsOf : A -> StringMap) (xs : list A)
  (x : A) :
  metricLabels m = List.map labelsOf xs -> In x xs ->
  ownDimensions m (labelDims (labelsOf x))
  /\ forall ub, ownDimensions m
                  (labelDims (labelsOf x)
                   ++ [{| Key := upperBoundDimensionKey; Value := ub |}]).
Proof.
  intros Hm Hx.
  assert (Hin : In (labelsOf x) (metricLabels m))
    by (rewrite Hm; apply in_map, Hx).
  split; [|intros ub]; exists (labelsOf x); split; eauto.
Qed.

Lemma shapePoints_post m e h :
  inBounds h e ->
  exists out h',
    shapePoints m e h = Some (out, h')
    /\ extends h h'
    /\ Forall (emittedFor m h e h') out.
Proof.
  intros Hb. unfold shapePoints.
  destruct (Data m) as [|dps|dps|mono temp dps|mono temp dps|temp dps|temp dps]
    eqn:E.
  - exists [], h. split; [reflexivity|].
    split; [apply extends_refl|constructor].
  - destruct (convertIntDatapoints_post dps (makeBaseDataPoint m) e h Hb)
      as (out & h' & Hrun & Hext & HF).
    exists out, h'. split; [exact Hrun|]. split; [exact Hext|].
    eapply Forall2_Forall_emitted; [|exact HF].
    intros x dp Hx (s & -> & Hh). split; [reflexivity|].
    eexists. split; [exact Hh|].
    apply (ownDimensions_labels m idp_LabelsMap (nonNil dps));
      [unfold metricLabels; rewrite E; reflexivity|exact Hx].
  - destruct (convertDoubleDatapoints_post dps (makeBaseDataPoint m) e h Hb)
      as (out & h' & Hrun & Hext & HF).
    exists out, h'. split; [exact Hrun|]. split; [exact Hext|].
    eapply Forall2_Forall_emitted; [|exact HF].
    intros x dp Hx (s & -> & Hh). split; [reflexivity|].
    eexists. split; [exact Hh|].
    apply (ownDimensions_labels m ddp_LabelsMap (nonNil dps));
      [unfold metricLabels; rewrite E; reflexivity|exact Hx].
  - destruct (convertIntDatapoints_post dps (makeBaseDataPoint m) e h Hb)
      as (out & h' & Hrun & Hext & HF).
    exists out, h'. split; [exact Hrun|]. split; [exact Hext|].
    eapply Forall2_Forall_emitted; [|exact HF].
    intros x dp Hx (s & -> & Hh). split; [reflexivity|].
    eexists. split; [exact Hh|].
    apply (ownDimensions_labels m idp_LabelsMap (nonNil dps));
      [unfold metricLabels; rewrite E; reflexivity|exact Hx].
  - destruct (convertDoubleDatapoints_post dps (makeBaseDataPoint m) e h Hb)
      as (out & h' & Hrun & Hext & HF).
    exists out, h'. split; [exact Hrun|]. split; [exact Hext|].
    eapply Forall2_Forall_emitted; [|exact HF].
    intros x dp Hx (s & -> & Hh). split; [reflexivity|].
    eexists. split; [exact Hh|].
    apply (ownDimensions_labels m ddp_LabelsMap (nonNil dps));
      [unfold metricLabels; rewrite E; reflexivity|exact Hx].
  - destruct (convertIntHistogram_post dps (makeBaseDataPoint m) e h Hb)
      as (groups & h' & Hrun & Hext & HF).
    exists (concat groups), h'. split; [exact Hrun|]. split; [exact Hext|].
    eapply histogramGroup_emitted; [| |exact HF].
    + intros x s Hx Hh.
      destruct (ownDimensions_labels m ihp_LabelsMap (nonNil dps) x)
        as [Ho _]; [unfold metricLabels; rewrite E; reflexivity|exact Hx|].
      split; (split; [reflexivity|]); eexists; (split; [exact Hh|exact Ho]).
    + intros x s c ub Hx Hh.
      destruct (ownDimensions_labels m ihp_LabelsMap (nonNil dps) x)
        as [_ Ho]; [unfold metricLabels; rewrite E; reflexivity|exact Hx|].
      split; [reflexivity|]. eexists. split; [exact Hh|apply Ho].
  - destruct (convertDoubleHistogram_post dps (makeBaseDataPoint m) e h Hb)
      as (groups & h' & Hrun & Hext & HF).
    exists (concat groups), h'. split; [exact Hrun|]. split; [exact Hext|].
    eapply histogramGroup_emitted; [| |exact HF].
    + intros x s Hx Hh.
      destruct (ownDimensions_labels m dhp_LabelsMap (nonNil dps) x)
        as [Ho _]; [unfold metricLabels; rewrite E; reflexivity|exact Hx|].
      split; (split; [reflexivity|]); eexists; (split; [exact Hh|exact Ho]).
    + intros x s c ub Hx Hh.
      destruct (ownDimensions_labels m dhp_LabelsMap (nonNil dps) x)
        as [_ Ho]; [unfold metricLabels; rewrite E; reflexivity|exact Hx|].
      split; [reflexivity|]. eexists. split; [exact Hh|apply Ho].
Qed.

(** ** The type of the datapoints of a sum *)

Lemma Forall2_length_types {A} (xs : list A) (out : list DataPoint)
  (mk : A -> slice -> DataPoint) (P : slice -> A -> Prop)
  (t : option MetricType) :
  (forall x s, MetricTypeOf (mk x s) = t) ->
  Forall2 (fun x dp => exists s, dp = mk x s /\ P s x) xs out ->
  length out = length xs /\ Forall (fun dp => MetricTypeOf dp = t) out.
Proof.
  intros Hmk HF. split; [symmetry; eapply Forall2_length; eauto|].
  induction HF as [|x dp xs out (s & -> & _) _ IH]; constructor; auto.
Qed.

(** C1. For every sum metric, the type of every datapoint that the
    conversion emits for it, one for each data point, is given by the
    classification: [GAUGE] when the sum is not monotonic, whatever the
    temporality; [COUNTER] when it is monotonic with delta temporality;
    [CUMULATIVE_COUNTER] when it is monotonic with cumulative
    temporality. This holds of integer and of floating-point sums. The
    datapoints are the ones [metricToSfxDataPoints] hands to the rule
    translator, or returns when there is none. *)
Theorem sum_datapoints_type c name isMonotonic temporality e h :
  inBounds h e ->
  (forall dps,
     let m := {| Name := name;
                 Data := MetricDataTypeIntSum isMonotonic temporality dps |} in
     exists out h',
       convertIntDatapoints dps (makeBaseDataPoint m) e h = Some (out, h')
       /\ metricToSfxDataPoints c m e h = translate c out h'
       /\ length out = length (nonNil dps)
       /\ (isMonotonic = false ->
           Forall (fun dp => MetricTypeOf dp = Some GAUGE) out)
       /\ (isMonotonic = true ->
           temporality = AggregationTemporalityDelta ->
           Forall (fun dp => MetricTypeOf dp = Some COUNTER) out)
       /\ (isMonotonic = true ->
           temporality = AggregationTemporalityCumulative ->
           Forall (fun dp => MetricTypeOf dp = Some CUMULATIVE_COUNTER) out))
  /\ (forall dps,
     let m := {| Name := name;
                 Data := MetricDataTypeDoubleSum isMonotonic temporality dps |}
     in
     exists out h',
       convertDoubleDatapoints dps (makeBaseDataPoint m) e h = Some (out, h')
       /\ metricToSfxDataPoints c m e h = translate c out h'
       /\ length out = length (nonNil dps)
       /\ (isMonotonic = false ->
           Forall (fun dp => MetricTypeOf dp = Some GAUGE) out)
       /\ (isMonotonic = true ->
           temporality = AggregationTemporalityDelta ->
           Forall (fun dp => MetricTypeOf dp = Some COUNTER) out)
       /\ (isMonotonic = true ->
           temporality = AggregationTemporalityCumulative ->
           Forall (fun dp => MetricTypeOf dp = Some CUMULATIVE_COUNTER) out)).
Proof.
  intros Hb. split; intros dps m.
  - destruct (convertIntDatapoints_post dps (makeBaseDataPoint m) e h Hb)
      as (out & h' & Hrun & _ & HF).
    exists out, h'. split; [exact Hrun|].
    split.
    { rewrite metricToSfxDataPoints_shape. unfold bind, shapePoints.
      change (Data m)
        with (MetricDataTypeIntSum isMonotonic temporality dps).
      cbv iota. rewrite Hrun. reflexivity. }
    pose proof (fun Hmk => Forall2_length_types _ _ _ _
                  (fromMetricDataTypeToMetricType m) Hmk HF) as Hty.
    destruct (Hty (fun _ _ => eq_refl)) as [Hlen Hty']. clear Hty.
    rename Hty' into Hty.
    split; [exact Hlen|].
    unfold fromMetricDataTypeToMetricType in Hty.
    change (Data m) with (MetricDataTypeIntSum isMonotonic temporality dps)
      in Hty. cbv iota in Hty.
    repeat split; intros; subst; exact Hty.
  - destruct (convertDoubleDatapoints_post dps (makeBaseDataPoint m) e h Hb)
      as (out & h' & Hrun & _ & HF).
    exists out, h'. split; [exact Hrun|].
    split.
    { rewrite metricToSfxDataPoints_shape. unfold bind, shapePoints.
      change (Data m)
        with (MetricDataTypeDoubleSum isMonotonic temporality dps).
      cbv iota. rewrite Hrun. reflexivity. }
    pose proof (fun Hmk => Forall2_length_types _ _ _ _
                  (fromMetricDataTypeToMetricType m) Hmk HF) as Hty.
    destruct (Hty (fun _ _ => eq_refl)) as [Hlen Hty']. clear Hty.
    rename Hty' into Hty.
    split; [exact Hlen|].
    unfold fromMetricDataTypeToMetricType in Hty.
    change (Data m) with (MetricDataTypeDoubleSum isMonotonic temporality dps)
      in Hty. cbv iota in Hty.
    repeat split; intros; subst; exact Hty.
Qed.

(** ** The cloud identifier and the access token *)

Lemma plainDimensions_keys keep attrs :
  Forall (fun d => Key d <> SFxAccessTokenLabel /\ keep (Key d) = true)
    (plainDimensions keep attrs).
Proof.
  unfold plainDimensions. apply Forall_forall. intros d Hd.
  apply list_elem_of_In, in_map_iff in Hd as ([k v] & <- & Hin).
  apply filter_In in Hin as [_ Hf]. cbn [fst snd Key] in *.
  apply andb_true_iff in Hf as [Ht Hk]. split; [|exact Hk].
  apply negb_true_iff, String.eqb_neq in Ht. exact Ht.
Qed.

Lemma plainDimensions_In keep attrs k v :
  In (k, v) attrs -> k <> SFxAccessTokenLabel -> keep k = true ->
  In {| Key := k; Value := AttributeValueToString v false |}
     (plainDimensions keep attrs).
Proof.
  intros Hin Ht Hk. unfold plainDimensions.
  apply in_map_iff. exists (k, v). split; [reflexivity|].
  apply filter_In. split; [exact Hin|]. cbn [fst].
  apply andb_true_iff. split; [|exact Hk].
  apply negb_true_iff, String.eqb_neq. exact Ht.
Qed.

Lemma filterAWS_true k :
  filterAWS k = true ->
  k <> AttributeCloudAccount /\ k <> AttributeCloudRegion
  /\ k <> AttributeHostID /\ k <> AttributeCloudProvider.
Proof.
  unfold filterAWS. rewrite !andb_true_iff, !negb_true_iff, !String.eqb_neq.
  tauto.
Qed.

Lemma filterGCP_true k :
  filterGCP k = true <->
  k <> AttributeCloudAccount /\ k <> AttributeHostID
  /\ k <> AttributeCloudProvider.
Proof.
  unfold filterGCP. rewrite !andb_true_iff, !negb_true_iff, !String.eqb_neq.
  tauto.
Qed.

Lemma nonempty_eqb (s : string) : s <> ""%string -> (s =? "")%string = false.
Proof. intros H. apply String.eqb_neq. exact H. Qed.

(** C5. For every resource whose cloud provider reads ["aws"] and whose
    account, region and host identifier read as non-empty strings (an
    attribute that is absent or not a string reads as the empty string),
    the resource dimensions start with the one synthesized dimension
    [AWSUniqueId], whose value is the host identifier, the region and the
    account joined by underscores in that order; the dimensions after it
    are the plain ones, and none of them has the key of the provider,
    account, region or host attribute. *)
Theorem aws_unique_id_dimension attrs h :
  getStringAttr attrs AttributeCloudProvider = AttributeCloudProviderAWS ->
  getStringAttr attrs AttributeCloudAccount <> ""%string ->
  getStringAttr attrs AttributeCloudRegion <> ""%string ->
  getStringAttr attrs AttributeHostID <> ""%string ->
  exists dims h',
    resourceAttributesToDimensions attrs h = Some (dims, h')
    /\ dimsOf h' dims
       = Some ({| Key := "AWSUniqueId";
                  Value := getStringAttr attrs AttributeHostID ++ "_"
                           ++ getStringAttr attrs AttributeCloudRegion ++ "_"
                           ++ getStringAttr attrs AttributeCloudAccount |}
               :: plainDimensions filterAWS attrs)
    /\ Forall (fun d => Key d <> AttributeCloudProvider
                        /\ Key d <> AttributeCloudAccount
                        /\ Key d <> AttributeCloudRegion
                        /\ Key d <> AttributeHostID)
         (plainDimensions filterAWS attrs).
Proof.
  intros Hp Ha Hr Hi.
  destruct (resourceAttributesToDimensions_post attrs h)
    as (s & h' & Hrun & _ & Hds).
  exists s, h'. split; [exact Hrun|]. split.
  - rewrite Hds. unfold resourceDimensions.
    rewrite Hp, String.eqb_refl.
    rewrite (nonempty_eqb _ Ha), (nonempty_eqb _ Hr), (nonempty_eqb _ Hi).
    reflexivity.
  - eapply Forall_impl; [apply plainDimensions_keys|].
    intros d [_ Hk]. apply filterAWS_true in Hk. tauto.
Qed.

(** C6. For every resource whose cloud provider reads ["gcp"] and whose
    account and host identifier read as non-empty strings, the resource
    dimensions start with the one synthesized dimension [gcp_id], whose
    value is the account and the host identifier joined by an underscore
    in that order; none of the plain dimensions after it has the key of
    the account, host or provider attribute, and a region attribute,
    when the resource has one, is among them. The constants of the
    packages are distinct strings. *)
Theorem gcp_id_dimension attrs h :
  AttributeCloudProviderGCP <> AttributeCloudProviderAWS ->
  AttributeCloudRegion <> AttributeCloudAccount ->
  AttributeCloudRegion <> AttributeHostID ->
  AttributeCloudRegion <> AttributeCloudProvider ->
  AttributeCloudRegion <> SFxAccessTokenLabel ->
  getStringAttr attrs AttributeCloudProvider = AttributeCloudProviderGCP ->
  getStringAttr attrs AttributeCloudAccount <> ""%string ->
  getStringAttr attrs AttributeHostID <> ""%string ->
  exists dims h',
    resourceAttributesToDimensions attrs h = Some (dims, h')
    /\ dimsOf h' dims
       = Some ({| Key := "gcp_id";
                  Value := getStringAttr attrs AttributeCloudAccount ++ "_"
                           ++ getStringAttr attrs AttributeHostID |}
               :: plainDimensions filterGCP attrs)
    /\ Forall (fun d => Key d <> AttributeCloudAccount
                        /\ Key d <> AttributeHostID
                        /\ Key d <> AttributeCloudProvider)
         (plainDimensions filterGCP attrs)
    /\ forall v, In (AttributeCloudRegion, v) attrs ->
         In {| Key := AttributeCloudRegion;
               Value := AttributeValueToString v false |}
            (plainDimensions filterGCP attrs).
Proof.
  intros Hga Hra Hrh Hrp Hrt Hp Ha Hi.
  destruct (resourceAttributesToDimensions_post attrs h)
    as (s & h' & Hrun & _ & Hds).
  exists s, h'. split; [exact Hrun|]. split; [|split].
  - rewrite Hds. unfold resourceDimensions. rewrite Hp.
    apply String.eqb_neq in Hga. rewrite Hga, String.eqb_refl.
    rewrite (nonempty_eqb _ Ha), (nonempty_eqb _ Hi). reflexivity.
  - eapply Forall_impl; [apply plainDimensions_keys|].
    intros d [_ Hk]. apply filterGCP_true in Hk. exact Hk.
  - intros v Hin. apply plainDimensions_In; [exact Hin|exact Hrt|].
    apply filterGCP_true. auto.
Qed.

Lemma resourceDimensions_no_token attrs :
  SFxAccessTokenLabel <> "AWSUniqueId"%string ->
  SFxAccessTokenLabel <> "gcp_id"%string ->
  Forall (fun d => Key d <> SFxAccessTokenLabel) (resourceDimensions attrs).
Proof.
  intros Haws Hgcp.
  assert (Hplain : forall keep,
    Forall (fun d => Key d <> SFxAccessTokenLabel)
      (plainDimensions keep attrs)).
  { intros keep. eapply Forall_impl; [apply plainDimensions_keys|].
    intros d [Hd _]. exact Hd. }
  unfold resourceDimensions.
  repeat match goal with
         | |- context [if ?b then _ else _] => destruct b
         end; try apply Hplain;
    (constructor; [cbn [Key]; congruence|apply Hplain]).
Qed.

(** ** The batch: every metric in turn, then the sanitizer *)

Lemma bind_congr {A B} (m1 m2 : M A) (k1 k2 : A -> M B) h :
  m1 h = m2 h -> (forall a h', k1 a h' = k2 a h') ->
  bind m1 k1 h = bind m2 k2 h.
Proof.
  intros Hm Hk. unfold bind. rewrite Hm.
  destruct (m2 h) as [[a h']|]; [apply Hk|reflexivity].
Qed.

Lemma rangeLoop_app {A T} (body : A -> T -> M T) (l1 l2 : list A) acc h :
  rangeLoop body (l1 ++ l2) acc h
  = (do acc' <- rangeLoop body l1 acc; rangeLoop body l2 acc') h.
Proof.
  revert acc h. induction l1 as [|x l1 IH]; intros acc h; [reflexivity|].
  cbn [app rangeLoop]. unfold bind.
  destruct (body x acc h) as [[acc1 h1]|]; [|reflexivity].
  rewrite IH. reflexivity.
Qed.

Lemma rangeLoop_nonNil {A T} (body : A -> T -> M T) (l : list (option A))
  acc h :
  rangeLoop (fun x acc => match x with
                          | None => ret acc
                          | Some x => body x acc
                          end) l acc h
  = rangeLoop body (nonNil l) acc h.
Proof.
  revert acc h. induction l as [|[x|] l IH]; intros acc h; [reflexivity| |].
  - cbn [nonNil rangeLoop]. unfold bind.
    destruct (body x acc h) as [[acc1 h1]|]; [apply IH|reflexivity].
  - cbn [nonNil rangeLoop]. unfold bind, ret. apply IH.
Qed.

Lemma libraryLoop_metrics c e ilms : forall acc h,
  rangeLoop
    (fun ilm sfxDatapoints =>
       match ilm with
       | None => ret sfxDatapoints
       | Some ilm =>
         rangeLoop
           (fun m sfxDatapoints =>
              match m with
              | None => ret sfxDatapoints
              | Some m =>
                do dps <- metricToSfxDataPoints c m e;
                ret (sfxDatapoints ++ dps)
              end)
           (Metrics ilm) sfxDatapoints
       end) ilms acc h
  = rangeLoop (fun m acc => do dps <- metricToSfxDataPoints c m e;
                            ret (acc ++ dps))
      (concat (List.map (fun ilm => nonNil (Metrics ilm)) (nonNil ilms)))
      acc h.
Proof.
  induction ilms as [|[ilm|] ilms IH]; intros acc h; [reflexivity| |].
  - cbn [rangeLoop nonNil List.map concat]. rewrite rangeLoop_app.
    apply bind_congr; [|exact IH].
    apply (rangeLoop_nonNil
             (fun m acc => do dps <- metricToSfxDataPoints c m e;
                           ret (acc ++ dps))).
  - cbn [rangeLoop nonNil]. unfold bind at 1, ret at 1. apply IH.
Qed.

(** The two loops of [collectDataPoints] go through the metrics of the
    batch in order. *)
Lemma collectDataPoints_metrics c rm h :
  collectDataPoints c rm h
  = (do e <- resourceAttributesToDimensions (ResourceAttributes rm);
     rangeLoop (fun m acc => do dps <- metricToSfxDataPoints c m e;
                             ret (acc ++ dps))
       (batchMetrics rm) []) h.
Proof.
  unfold collectDataPoints, batchMetrics.
  apply bind_congr; [reflexivity|].
  intros e h1. apply libraryLoop_metrics.
Qed.

(** Without a rule translator the batch is converted metric by metric:
    its datapoints are those of each metric in turn, each converted in
    the store its predecessor left, and all of them can be read. *)
Lemma collectDataPoints_total rm h :
  exists e h0 groups h1,
    resourceAttributesToDimensions (ResourceAttributes rm) h = Some (e, h0)
    /\ collectDataPoints {| metricTranslator := None |} rm h
       = Some (concat groups, h1)
    /\ extends h0 h1
    /\ Forall2 (fun m group =>
         exists ha hb, extends h0 ha /\ extends hb h1
           /\ shapePoints m e ha = Some (group, hb))
       (batchMetrics rm) groups
    /\ Forall (fun dp => is_Some (view h1 dp)) (concat groups).
Proof.
  destruct (resourceAttributesToDimensions_post (ResourceAttributes rm) h)
    as (e & h0 & Hrun0 & Hown & Hds).
  pose proof (owns_inBounds _ _ _ Hown) as Hb.
  edestruct (rangeLoop_emits
    (fun m acc => do dps <- metricToSfxDataPoints
                              {| metricTranslator := None |} m e;
                  ret (acc ++ dps)) h0
    (fun h' m new =>
       (exists ha hb, extends h0 ha /\ extends hb h'
          /\ shapePoints m e ha = Some (new, hb))
       /\ Forall (fun dp => is_Some (view h' dp)) new))
    as (groups & h1 & Hrun & Hext & HF).
  - intros m out ha Hha.
    destruct (shapePoints_post m e ha (inBounds_extends _ _ _ Hha Hb))
      as (new & hb & Hrun & Hext & HF).
    exists new, hb. unfold bind. rewrite metricToSfxDataPoints_shape.
    unfold bind, translate. cbn [metricTranslator].
    assert (Hsh : shapePoints m e ha = Some (new, hb)) by exact Hrun.
    split.
    { unfold shapePoints in Hrun |- *.
      destruct (Data m); rewrite ?Hrun; try reflexivity.
      injection Hrun as <- <-. rewrite app_nil_r. reflexivity. }
    split; [exact Hext|]. split.
    { exists ha, hb. split; [exact Hha|]. split; [apply extends_refl|].
      exact Hsh. }
    eapply Forall_impl; [exact HF|].
    intros dp (_ & extra & Hh & _).
    erewrite (view_sliceHolds ha e hb dp (Dimensions dp));
      [eauto|reflexivity|exact Hh|].
    eapply dimsOf_extends; eauto.
  - intros ha hb m new Hext [(h2 & h3 & H2 & H3 & Hsh) HF].
    split.
    + exists h2, h3. split; [exact H2|].
      split; [eapply extends_trans; eauto|exact Hsh].
    + eapply Forall_impl; [exact HF|].
      intros dp [fp Hfp]. exists fp. eapply view_extends; eauto.
  - apply extends_refl.
  - exists e, h0, groups, h1. split; [exact Hrun0|].
    split; [rewrite collectDataPoints_metrics; unfold bind at 1;
            rewrite Hrun0; exact Hrun|].
    split; [exact Hext|]. split.
    + eapply Forall2_impl; [exact HF|]. intros m g [H _]. exact H.
    + clear -HF. induction HF as [|m g ms groups [_ Hg] _ IH];
        [constructor|]. cbn [concat]. apply Forall_app. split; assumption.
Qed.

(** The sanitizer pass over a list of datapoints that can be read. *)
Lemma sanitize_views dps h fps :
  mapM (view h) dps = Some fps ->
  exists h',
    sanitizeDataPointDimensions dps h = Some (tt, h')
    /\ arrays h' = arrays h
    /\ mapM (view h') dps = Some (List.map sanitizeFlat fps).
Proof.
  intros Hv. apply mapM_Some in Hv.
  assert (Hall : Forall (fun dp => is_Some (dimsOf h (Dimensions dp))) dps).
  { clear -Hv. induction Hv as [|dp fp dps fps Hdp _ IH]; constructor;
      [|exact IH].
    unfold view in Hdp. destruct (dimsOf h (Dimensions dp)); [eauto|done]. }
  eexists. split; [apply sanitizeDataPointDimensions_run, Hall|].
  split; [reflexivity|].
  apply mapM_Some.
  assert (Hvis : forall dp, dp ∈ dps ->
            Forall (fun p => p ∈ visited h dps) (elems h (Dimensions dp)))
    by (intros dp; apply elems_visited).
  clear Hall. revert Hvis. generalize (visited h dps) as V. intros V.
  induction Hv as [|dp fp dps fps Hdp _ IH]; intros Hvis; [constructor|].
  cbn [List.map]. constructor.
  - apply view_sanitizedAt; [exact Hdp|]. apply Hvis, list_elem_of_here.
  - apply IH. intros dq Hdq. apply Hvis, list_elem_of_further, Hdq.
Qed.

(** C3. For every batch, the rule translator, when there is one, is
    applied to the datapoints of each metric as [metricToSfxDataPoints]
    converts it, before the sanitizer; the key sanitizer then runs once
    over the complete assembled list. When converting and translating the
    metrics of the batch in order yields the datapoints [pts], read as
    [fps], the conversion returns [pts] and they read as [fps] with
    every dimension key sanitized, the dimensions shared between
    datapoints included. *)
Theorem translate_each_metric_then_sanitize c rm h pts h1 fps :
  (do e <- resourceAttributesToDimensions (ResourceAttributes rm);
   rangeLoop (fun m acc => do dps <- metricToSfxDataPoints c m e;
                           ret (acc ++ dps))
     (batchMetrics rm) []) h = Some (pts, h1) ->
  mapM (view h1) pts = Some fps ->
  (forall m e h,
     metricToSfxDataPoints c m e h
     = match Data m with
       | MetricDataTypeNone => Some ([], h)
       | _ => (do dps <- shapePoints m e; translate c dps) h
       end)
  /\ exists h2,
       MetricDataToSignalFxV2 c rm h = Some (pts, h2)
       /\ mapM (view h2) pts = Some (List.map sanitizeFlat fps).
Proof.
  intros Hrun Hv. split; [intros; apply metricToSfxDataPoints_shape|].
  rewrite <- collectDataPoints_metrics in Hrun.
  destruct (sanitize_views pts h1 fps Hv) as (h2 & Hs & _ & Hv2).
  exists h2. unfold MetricDataToSignalFxV2, bind. rewrite Hrun, Hs.
  split; [reflexivity|exact Hv2].
Qed.

(** C9. For every resource, whichever branch its cloud provider takes,
    no dimension of the resource-level dimension list has the reserved
    access-token key; and the dimensions of every datapoint that the
    conversion of a metric emits against this list are this list
    followed by dimensions of the datapoint's own (the labels of a data
    point of the metric and, for a bucket, [upper_bound]), so that the
    access-token attribute of the resource is in none of them. The
    access-token key is not the key of a synthesized dimension. When the
    sanitizer changes the access-token key, as it does a key with a dot,
    no dimension of a datapoint that the conversion of the batch returns
    has this key, whatever the labels and the rule translator. *)
Theorem access_token_never_a_dimension rm h :
  SFxAccessTokenLabel <> "AWSUniqueId"%string ->
  SFxAccessTokenLabel <> "gcp_id"%string ->
  (exists dims h' ds,
     resourceAttributesToDimensions (ResourceAttributes rm) h
     = Some (dims, h')
     /\ dimsOf h' dims = Some ds
     /\ Forall (fun d => Key d <> SFxAccessTokenLabel) ds
     /\ forall m,
          exists out h'',
            shapePoints m dims h' = Some (out, h'')
            /\ Forall
                 (fun dp =>
                    exists extra,
                      view h'' dp
                      = Some {| fpMetric := Metric dp;
                                fpTimestamp := Timestamp dp;
                                fpValue := DatumValue dp;
                                fpType := MetricTypeOf dp;
                                fpDimensions := ds ++ extra |}
                      /\ ownDimensions m extra)
                 out)
  /\ (filterKeyChars SFxAccessTokenLabel <> SFxAccessTokenLabel ->
      forall c pts h1 fps,
        collectDataPoints c rm h = Some (pts, h1) ->
        mapM (view h1) pts = Some fps ->
        exists h2 fps',
          MetricDataToSignalFxV2 c rm h = Some (pts, h2)
          /\ mapM (view h2) pts = Some fps'
          /\ Forall
               (fun fp =>
                  Forall (fun d => Key d <> SFxAccessTokenLabel)
                    (fpDimensions fp))
               fps').
Proof.
  intros Haws Hgcp. split.
  - destruct (resourceAttributesToDimensions_post (ResourceAttributes rm) h)
      as (s & h' & Hrun & Hown & Hds).
    exists s, h', (resourceDimensions (ResourceAttributes rm)).
    split; [exact Hrun|]. split; [exact Hds|].
    split; [apply resourceDimensions_no_token; assumption|].
    intros m.
    destruct (shapePoints_post m s h' (owns_inBounds _ _ _ Hown))
      as (out & h'' & Hrun' & _ & HF).
    exists out, h''. split; [exact Hrun'|].
    eapply Forall_impl; [exact HF|].
    intros dp (_ & extra & Hh & Ho). exists extra.
    split; [|exact Ho].
    eapply view_sliceHolds; [reflexivity|exact Hh|exact Hds].
  - intros Hdot c pts h1 fps Hrun Hv.
    destruct (sanitize_views pts h1 fps Hv) as (h2 & Hs & _ & Hv2).
    exists h2, (List.map sanitizeFlat fps).
    split; [unfold MetricDataToSignalFxV2, bind; rewrite Hrun, Hs;
            reflexivity|].
    split; [exact Hv2|].
    apply List.Forall_map, List.Forall_forall. intros fp _.
    cbn [sanitizeFlat fpDimensions].
    apply List.Forall_map, List.Forall_forall. intros d _.
    cbn [sanitizeDim Key]. intros Heq. apply Hdot.
    rewrite <- Heq. apply filterKeyChars_idem.
Qed.


(** ** The key sanitizer *)

(** C8. [filterKeyChars] maps every character of its argument that is
    not a Unicode letter, a Unicode digit, an underscore or a hyphen to
    an underscore and leaves the others as they are; it is idempotent;
    and for every ASCII argument that is not empty the result matches
    [[A-Za-z0-9_-]+] (the empty string is mapped to itself). *)
Theorem filterKeyChars_sanitizes str :
  runes (filterKeyChars str) = List.map filterMap (runes str)
  /\ (forall r,
        unicode.IsLetter isExcludingLatin r = true
        \/ unicode.IsDigit isExcludingLatin r = true
        \/ r = 0x5F \/ r = 0x2D ->
        filterMap r = r)
  /\ (forall r,
        unicode.IsLetter isExcludingLatin r = false ->
        unicode.IsDigit isExcludingLatin r = false ->
        r <> 0x5F -> r <> 0x2D ->
        filterMap r = 0x5F)
  /\ filterKeyChars (filterKeyChars str) = filterKeyChars str
  /\ (isASCII str = true -> str <> ""%string ->
      matchesKeyPattern (filterKeyChars str) = true)
  /\ filterKeyChars "" = ""%string.
Proof.
  split; [apply runes_filterKeyChars|].
  split.
  { intros r Hr. unfold filterMap, keptRune.
    destruct Hr as [-> |[-> |[-> | ->]]];
      rewrite ?orb_true_r; reflexivity. }
  split.
  { intros r Hl Hd H5 H2. unfold filterMap, keptRune. rewrite Hl, Hd.
    apply Z.eqb_neq in H5, H2. rewrite H5, H2. reflexivity. }
  split; [apply filterKeyChars_idem|].
  split; [apply filterKeyChars_matches|reflexivity].
Qed.
(** * Further properties of the converter *)

(** ** Timestamps *)

(** X1. A timestamp below [2^63] nanoseconds is converted to whole
    milliseconds, rounding down: the result is the quotient by [10^6],
    it is the millisecond that contains the timestamp, and the
    conversion is monotone on this range. *)
Theorem timestamp_whole_milliseconds ts :
  0 <= ts < 2 ^ 63 ->
  timestampToSignalFx ts = ts / 1000000
  /\ 1000000 * timestampToSignalFx ts <= ts
     < 1000000 * timestampToSignalFx ts + 1000000
  /\ forall ts', ts <= ts' < 2 ^ 63 ->
       timestampToSignalFx ts <= timestampToSignalFx ts'.
Proof.
  forget_imports. intros H.
  assert (Hq : forall t, 0 <= t < 2 ^ 63 ->
            timestampToSignalFx t = t / 1000000).
  { intros t Ht. unfold timestampToSignalFx. rewrite int64_small by exact Ht.
    apply Z.quot_div_nonneg; lia. }
  rewrite Hq by exact H. split; [reflexivity|]. split; [zsolve|].
  intros ts' H'. rewrite Hq by lia. apply Z.div_le_mono; lia.
Qed.

(** X2. The timestamp is a [uint64] that [int64(ts)] reinterprets: at
    [2^63] nanoseconds and above it becomes negative before the
    division, which rounds toward zero, so that the result is
    [-((2^64 - ts) / 10^6)], never positive. *)
Theorem timestamp_beyond_int64 ts :
  2 ^ 63 <= ts < 2 ^ 64 ->
  timestampToSignalFx ts = - ((2 ^ 64 - ts) / 1000000)
  /\ - (2 ^ 63 / 1000000) <= timestampToSignalFx ts <= 0.
Proof.
  forget_imports. intros H.
  assert (Hq : timestampToSignalFx ts = - ((2 ^ 64 - ts) / 1000000)).
  { unfold timestampToSignalFx. rewrite int64_large by exact H.
    replace (ts - 2 ^ 64) with (- (2 ^ 64 - ts)) by lia.
    rewrite Z.quot_opp_l by lia. f_equal. apply Z.quot_div_nonneg; lia. }
  split; [exact Hq|]. rewrite Hq.
  assert (0 <= (2 ^ 64 - ts) / 1000000) by (apply Z.div_pos; lia).
  assert ((2 ^ 64 - ts) / 1000000 <= 2 ^ 63 / 1000000)
    by (apply Z.div_le_mono; lia).
  lia.
Qed.

(** ** Resources without a cloud identifier *)

Lemma plainDimensions_filterAll attrs :
  plainDimensions filterAll attrs
  = List.map
      (fun kv => {| Key := fst kv;
                    Value := AttributeValueToString (snd kv) false |})
      (List.filter (fun kv => negb (fst kv =? SFxAccessTokenLabel)%string)
         attrs).
Proof.
  unfold plainDimensions, filterAll. f_equal.
  apply List.filter_ext. intros kv. apply andb_true_r.
Qed.

(** X3. When the resource gives no cloud identifier (its provider reads
    neither ["aws"] nor ["gcp"], or it reads ["aws"] and the host
    identifier, the region or the account reads empty, or it reads
    ["gcp"] and the account or the host identifier reads empty), nothing
    is synthesized and nothing is filtered: the resource dimensions are
    the attributes in their order, the provider, account, region and
    host attributes among them, without the access token alone. *)
Theorem no_cloud_identifier_keeps_attributes attrs h :
  (getStringAttr attrs AttributeCloudProvider <> AttributeCloudProviderAWS
   /\ getStringAttr attrs AttributeCloudProvider <> AttributeCloudProviderGCP)
  \/ (getStringAttr attrs AttributeCloudProvider = AttributeCloudProviderAWS
      /\ (getStringAttr attrs AttributeHostID = ""%string
          \/ getStringAttr attrs AttributeCloudRegion = ""%string
          \/ getStringAttr attrs AttributeCloudAccount = ""%string))
  \/ (getStringAttr attrs AttributeCloudProvider = AttributeCloudProviderGCP
      /\ AttributeCloudProviderGCP <> AttributeCloudProviderAWS
      /\ (getStringAttr attrs AttributeCloudAccount = ""%string
          \/ getStringAttr attrs AttributeHostID = ""%string)) ->
  exists dims h',
    resourceAttributesToDimensions attrs h = Some (dims, h')
    /\ dimsOf h' dims
       = Some (List.map
                 (fun kv => {| Key := fst kv;
                               Value := AttributeValueToString (snd kv) false
                            |})
                 (List.filter
                    (fun kv => negb (fst kv =? SFxAccessTokenLabel)%string)
                    attrs))
    /\ forall k v, In (k, v) attrs -> k <> SFxAccessTokenLabel ->
         exists ds, dimsOf h' dims = Some ds
           /\ In {| Key := k; Value := AttributeValueToString v false |} ds.
Proof.
  intros Hcase.
  destruct (resourceAttributesToDimensions_post attrs h)
    as (s & h' & Hrun & _ & Hds).
  assert (Hplain : resourceDimensions attrs = plainDimensions filterAll attrs).
  { unfold resourceDimensions.
    destruct Hcase as [[Ha Hg] | [[Ha He] | (Hg & Hne & He)]].
    - apply String.eqb_neq in Ha, Hg. rewrite Ha, Hg. reflexivity.
    - rewrite Ha, String.eqb_refl.
      destruct He as [He | [He | He]]; rewrite He; cbn [String.eqb orb];
        rewrite ?orb_true_r; reflexivity.
    - rewrite Hg. apply String.eqb_neq in Hne. rewrite Hne.
      rewrite String.eqb_refl.
      destruct He as [He | He]; rewrite He; cbn [String.eqb orb];
        rewrite ?orb_true_r; reflexivity. }
  rewrite Hplain in Hds.
  exists s, h'. split; [exact Hrun|].
  split; [rewrite Hds, plainDimensions_filterAll; reflexivity|].
  intros k v Hin Hk. exists (plainDimensions filterAll attrs).
  split; [exact Hds|]. apply plainDimensions_In; [exact Hin|exact Hk|].
  reflexivity.
Qed.

Lemma getStringAttr_absent attrs key :
  Forall (fun kv => fst kv <> key) attrs ->
  getStringAttr attrs key = ""%string.
Proof.
  unfold getStringAttr. intros H.
  assert (HG : Get attrs key = None).
  { induction H as [|[k v] rest Hk _ IH]; [reflexivity|].
    cbn [Get]. cbn [fst] in Hk. apply String.eqb_neq in Hk.
    rewrite Hk. exact IH. }
  rewrite HG. reflexivity.
Qed.

(** X4. A resource whose attributes are the access token alone, or that
    has no attribute, gives no resource dimension: the result is the nil
    slice, and nothing is allocated. *)
Theorem token_alone_gives_nil_slice attrs h :
  Forall (fun kv => fst kv = SFxAccessTokenLabel) attrs ->
  AttributeCloudProvider <> SFxAccessTokenLabel ->
  AttributeCloudProviderAWS <> ""%string ->
  AttributeCloudProviderGCP <> ""%string ->
  resourceAttributesToDimensions attrs h = Some (nilSlice, h).
Proof.
  intros Hall Hp Haws Hgcp.
  assert (Hprov : getStringAttr attrs AttributeCloudProvider = ""%string).
  { apply getStringAttr_absent. eapply Forall_impl; [exact Hall|].
    intros kv Hkv. cbn beta in Hkv. rewrite Hkv. congruence. }
  unfold resourceAttributesToDimensions. rewrite Hprov.
  assert (Ha : (""%string =? AttributeCloudProviderAWS)%string = false)
    by (apply String.eqb_neq; congruence).
  assert (Hg : (""%string =? AttributeCloudProviderGCP)%string = false)
    by (apply String.eqb_neq; congruence).
  rewrite Ha, Hg. unfold bind at 1. unfold ret at 1. clear Hprov.
  generalize nilSlice as s. revert h.
  induction Hall as [|kv rest Hkv _ IH]; intros h s; [reflexivity|].
  cbn [rangeLoop]. unfold bind at 1. rewrite Hkv, String.eqb_refl.
  unfold ret at 1. apply IH.
Qed.

(** ** The sanitizer pass on the store *)

Lemma sanitizedAt_ext V1 V2 O :
  (forall p, p ∈ V1 <-> p ∈ V2) -> sanitizedAt V1 O = sanitizedAt V2 O.
Proof.
  intros HV. apply list_eq. intros i. unfold sanitizedAt.
  rewrite !list_lookup_imap. destruct (O !! i) as [d|]; [|reflexivity].
  cbn. rewrite (bool_decide_ext _ _ (HV (Some i))). reflexivity.
Qed.

Lemma deref_sanitizedAt_is_Some V O A p :
  is_Some (deref {| objects := sanitizedAt V O; arrays := A |} p)
  <-> is_Some (deref {| objects := O; arrays := A |} p).
Proof. rewrite deref_sanitizedAt. apply fmap_is_Some. Qed.

Lemma visited_sanitizedAt V O A dps :
  visited {| objects := sanitizedAt V O; arrays := A |} dps
  = visited {| objects := O; arrays := A |} dps.
Proof. reflexivity. Qed.

(** The pass over datapoints whose dimension pointers are all valid. *)
Lemma sanitizeDataPointDimensions_valid dps : forall h,
  Forall (fun p => is_Some (deref h p)) (visited h dps) ->
  sanitizeDataPointDimensions dps h
  = Some (tt, {| objects := sanitizedAt (visited h dps) (objects h);
                 arrays := arrays h |}).
Proof.
  unfold sanitizeDataPointDimensions.
  induction dps as [|dp dps IH]; intros h Hall.
  - cbn. rewrite sanitizedAt_nil. destruct h; reflexivity.
  - unfold visited in Hall. cbn [List.map concat] in Hall.
    apply Forall_app in Hall. destruct Hall as [Hdp Hrest].
    cbn [rangeLoop]. unfold bind at 1 2, read.
    rewrite sanitizeLoop_run by exact Hdp.
    destruct h as [O A]. cbn [objects arrays].
    rewrite IH.
    + cbn [objects arrays]. rewrite sanitizedAt_app. reflexivity.
    + rewrite visited_sanitizedAt. eapply Forall_impl; [exact Hrest|].
      intros q Hq. apply deref_sanitizedAt_is_Some, Hq.
Qed.

Lemma sanitizeLoop_inv ds : forall h r,
  rangeLoop (fun d _ => sanitizeDimension d) ds tt h = Some r ->
  Forall (fun p => is_Some (deref h p)) ds.
Proof.
  induction ds as [|p ds IH]; intros h r Hrun; [constructor|].
  cbn [rangeLoop] in Hrun. unfold bind at 1 in Hrun.
  destruct (deref h p) as [d|] eqn:Hd.
  - rewrite (sanitizeDimension_run _ _ _ Hd) in Hrun.
    apply IH in Hrun. constructor; [eauto|].
    eapply Forall_impl; [exact Hrun|]. intros q Hq.
    destruct h as [O A]. cbn [objects arrays] in Hq.
    apply deref_sanitizedAt_is_Some in Hq. exact Hq.
  - exfalso. unfold sanitizeDimension, bind, load in Hrun.
    destruct p as [a|]; [|discriminate]. cbn [deref] in Hd.
    rewrite Hd in Hrun. discriminate.
Qed.

Lemma sanitizeDataPointDimensions_inv dps : forall h r,
  sanitizeDataPointDimensions dps h = Some r ->
  Forall (fun p => is_Some (deref h p)) (visited h dps).
Proof.
  unfold sanitizeDataPointDimensions.
  induction dps as [|dp dps IH]; intros h r Hrun; [constructor|].
  cbn [rangeLoop] in Hrun. unfold bind at 1 2, read in Hrun.
  destruct (rangeLoop (fun d _ => sanitizeDimension d)
              (elems h (Dimensions dp)) tt h) as [[[] h1]|] eqn:Hloop;
    [|discriminate].
  pose proof (sanitizeLoop_inv _ _ _ Hloop) as Hdp.
  rewrite (sanitizeLoop_run _ _ Hdp) in Hloop.
  injection Hloop as <-.
  apply IH in Hrun. unfold visited. cbn [List.map concat].
  apply Forall_app. split; [exact Hdp|].
  destruct h as [O A]. cbn [objects arrays] in Hrun.
  rewrite visited_sanitizedAt in Hrun.
  eapply Forall_impl; [exact Hrun|]. intros q Hq.
  apply deref_sanitizedAt_is_Some in Hq. exact Hq.
Qed.

Lemma bind_run_ext {A B} (m : M A) (k1 k2 : A -> M B) h :
  (forall a h1, k1 a h1 = k2 a h1) -> bind m k1 h = bind m k2 h.
Proof.
  intros Hk. unfold bind. destruct (m h) as [[a h1]|]; [apply Hk|reflexivity].
Qed.

Lemma bind_run_None {A B} (m : M A) (k : A -> M B) h :
  (forall a h1, k a h1 = None) -> bind m k h = None.
Proof.
  intros Hk. unfold bind. destruct (m h) as [[a h1]|]; [apply Hk|reflexivity].
Qed.

Lemma sanitizeDataPointDimensions_ptr_Some dps h :
  sanitizeDataPointDimensions_ptr (List.map Some dps) h
  = sanitizeDataPointDimensions dps h.
Proof.
  unfold sanitizeDataPointDimensions_ptr, sanitizeDataPointDimensions.
  revert h. induction dps as [|dp dps IH]; intros h; [reflexivity|].
  cbn [List.map rangeLoop]. apply bind_run_ext. intros [] h1. apply IH.
Qed.

Lemma sanitizeDataPointDimensions_ptr_nil dps : forall h,
  None ∈ dps -> sanitizeDataPointDimensions_ptr dps h = None.
Proof.
  unfold sanitizeDataPointDimensions_ptr.
  induction dps as [|p dps IH]; intros h Hin.
  - apply elem_of_nil in Hin. destruct Hin.
  - cbn [rangeLoop]. destruct p as [dp|]; [|reflexivity].
    apply elem_of_cons in Hin as [Hin|Hin]; [discriminate|].
    apply bind_run_None. intros [] h1. apply IH, Hin.
Qed.

Lemma pointers_all_Some {A} (l : list (option A)) :
  None ∉ l -> exists l', l = List.map Some l'.
Proof.
  induction l as [|[a|] l IH]; intros Hn.
  - exists []. reflexivity.
  - destruct IH as [l' ->].
    { intros Hin. apply Hn. right. exact Hin. }
    exists (a :: l'). reflexivity.
  - exfalso. apply Hn. left.
Qed.

(** X5. The sanitizer pass, on the slice of pointers to datapoints it
    is given, returns exactly when no entry of the slice is nil and
    every dimension pointer of every datapoint points to a dimension:
    it reads the dimensions of each entry and writes through each
    dimension pointer without a test, so that a nil entry makes it
    fault, and so does a nil pointer among the dimensions of a
    datapoint. *)
Theorem sanitizer_returns_iff_pointers_valid
  (dps : list (option DataPoint)) h :
  (is_Some (sanitizeDataPointDimensions_ptr dps h)
   <-> Forall (fun p =>
                 exists dp, p = Some dp
                   /\ Forall (fun d => is_Some (deref h d))
                        (elems h (Dimensions dp))) dps)
  /\ (None ∈ dps -> sanitizeDataPointDimensions_ptr dps h = None)
  /\ forall dp, Some dp ∈ dps -> None ∈ elems h (Dimensions dp) ->
       sanitizeDataPointDimensions_ptr dps h = None.
Proof.
  assert (Hvis : forall ps,
            Forall (fun p => is_Some (deref h p)) (visited h ps)
            <-> Forall (fun p =>
                          exists dp, p = Some dp
                            /\ Forall (fun d => is_Some (deref h d))
                                 (elems h (Dimensions dp)))
                  (List.map Some ps)).
  { unfold visited. induction ps as [|dp ps IH]; cbn [List.map concat].
    - split; constructor.
    - rewrite Forall_app, Forall_cons, IH. split.
      + intros [Hd Hr]. split; [|exact Hr]. exists dp. split; [reflexivity|].
        exact Hd.
      + intros [(dp' & [= <-] & Hd) Hr]. split; assumption. }
  assert (Hiff : is_Some (sanitizeDataPointDimensions_ptr dps h)
                 <-> Forall (fun p =>
                               exists dp, p = Some dp
                                 /\ Forall (fun d => is_Some (deref h d))
                                      (elems h (Dimensions dp))) dps).
  { split.
    - intros Hs. destruct (pointers_all_Some dps) as [ps ->].
      { intros Hin.
        rewrite (sanitizeDataPointDimensions_ptr_nil _ _ Hin) in Hs.
        destruct Hs as [r Hr]. discriminate. }
      apply Hvis. rewrite sanitizeDataPointDimensions_ptr_Some in Hs.
      destruct Hs as [r Hr]. eapply sanitizeDataPointDimensions_inv, Hr.
    - intros Hall. destruct (pointers_all_Some dps) as [ps ->].
      { intros Hin. rewrite Forall_forall in Hall.
        destruct (Hall None Hin) as (dp & Hdp & _). discriminate. }
      rewrite sanitizeDataPointDimensions_ptr_Some.
      rewrite sanitizeDataPointDimensions_valid by (apply Hvis, Hall).
      eauto. }
  split; [exact Hiff|].
  split; [apply sanitizeDataPointDimensions_ptr_nil|].
  intros dp Hdp Hnil.
  apply eq_None_not_Some. intros Hs. apply Hiff in Hs.
  rewrite Forall_forall in Hs.
  destruct (Hs (Some dp) Hdp) as (dp' & [= <-] & Hall).
  rewrite Forall_forall in Hall.
  destruct (Hall None Hnil) as [d Hd]. discriminate.
Qed.

(** X6. The sanitizer pass changes keys and nothing else: the arrays and
    the number of dimensions are as they were, a dimension that some
    datapoint points to has its key sanitized, once, however many
    datapoints share it, and keeps its value, and a dimension that no
    datapoint points to is as it was. *)
Theorem sanitizer_changes_keys_only dps h h' :
  sanitizeDataPointDimensions dps h = Some (tt, h') ->
  arrays h' = arrays h
  /\ length (objects h') = length (objects h)
  /\ forall a d, objects h !! a = Some d ->
       ((exists dp, dp ∈ dps /\ Some a ∈ elems h (Dimensions dp)) ->
        objects h' !! a
        = Some {| Key := filterKeyChars (Key d); Value := Value d |})
       /\ ((forall dp, dp ∈ dps -> Some a ∉ elems h (Dimensions dp)) ->
           objects h' !! a = Some d).
Proof.
  intros Hrun.
  pose proof (sanitizeDataPointDimensions_inv _ _ _ Hrun) as Hall.
  rewrite (sanitizeDataPointDimensions_valid _ _ Hall) in Hrun.
  injection Hrun as <-. cbn [objects arrays].
  split; [reflexivity|]. split; [apply length_imap|].
  intros a d Ha.
  assert (Hin : Some a ∈ visited h dps
                <-> exists dp, dp ∈ dps /\ Some a ∈ elems h (Dimensions dp)).
  { unfold visited. rewrite list_elem_of_In, in_concat. split.
    - intros (l & Hl & Hal). apply in_map_iff in Hl.
      destruct Hl as (dp & <- & Hdp). exists dp.
      split; apply list_elem_of_In; assumption.
    - intros (dp & Hdp & Hal). exists (elems h (Dimensions dp)).
      split; [|apply list_elem_of_In, Hal].
      apply in_map_iff. exists dp. split; [reflexivity|].
      apply list_elem_of_In, Hdp. }
  unfold sanitizedAt. rewrite list_lookup_imap, Ha. cbn. split.
  - intros Hex. rewrite bool_decide_eq_true_2 by (apply Hin, Hex).
    reflexivity.
  - intros Hno. rewrite bool_decide_eq_false_2; [reflexivity|].
    rewrite Hin. intros (dp & Hdp & Hal). exact (Hno dp Hdp Hal).
Qed.

(** X7. The sanitizer pass is idempotent on the store: a second pass
    over the same datapoints returns and leaves the store as the first
    pass left it. *)
Theorem sanitizer_pass_idempotent dps h h' :
  sanitizeDataPointDimensions dps h = Some (tt, h') ->
  sanitizeDataPointDimensions dps h' = Some (tt, h').
Proof.
  intros Hrun.
  pose proof (sanitizeDataPointDimensions_inv _ _ _ Hrun) as Hall.
  rewrite (sanitizeDataPointDimensions_valid _ _ Hall) in Hrun.
  injection Hrun as <-. destruct h as [O A]. cbn [objects arrays].
  rewrite sanitizeDataPointDimensions_valid.
  - cbn [objects arrays]. rewrite visited_sanitizedAt, sanitizedAt_app.
    rewrite (sanitizedAt_ext (visited {| objects := O; arrays := A |} dps
                              ++ visited {| objects := O; arrays := A |} dps)
               (visited {| objects := O; arrays := A |} dps));
      [reflexivity|]. intros p.
    rewrite elem_of_app. tauto.
  - rewrite visited_sanitizedAt. eapply Forall_impl; [exact Hall|].
    intros q Hq. apply deref_sanitizedAt_is_Some, Hq.
Qed.

(** ** The key sanitizer on ASCII text *)

Lemma keptRune_ascii b :
  0 <= b < 128 -> keptRune b = keyChar (byte_of b).
Proof.
  intros Hb.
  unfold keyChar. rewrite byte_val_byte_of by lia.
  unfold keptRune, unicode.IsLetter, unicode.IsDigit, unicode.MaxLatin1,
    unicode.latin1Letter.
  destruct (Z.leb_spec 0 b); [|lia].
  destruct (Z.leb_spec b 255); [|lia]. cbn [andb].
  clear isExcludingLatin. decide_tests; reflexivity.
Qed.

Lemma filterKeyChars_cons_ascii c t :
  byte_val c < 128 ->
  filterKeyChars (String c t) = String (asciiKey c) (filterKeyChars t).
Proof.
  intros Hc. pose proof (byte_val_range c) as Hr.
  unfold filterKeyChars, strings.Map.
  rewrite runes_ascii by exact Hc. cbn [List.fold_right].
  set (out := List.fold_right _ _ (runes t)).
  destruct (filterMap_ascii (byte_val c)) as [Hf _]; [lia|].
  destruct (Z.ltb_spec (filterMap (byte_val c)) 0); [lia|].
  unfold EncodeRune.
  destruct (Z.leb_spec 0 (filterMap (byte_val c))); [|lia].
  destruct (Z.leb_spec (filterMap (byte_val c)) 127); [|lia].
  cbn [andb bytes List.map string_of_list_ascii String.append].
  f_equal. unfold filterMap, asciiKey.
  rewrite keptRune_ascii by lia. rewrite byte_of_byte_val.
  destruct (keyChar c); [apply byte_of_byte_val|reflexivity].
Qed.

Lemma isASCII_cons c t :
  isASCII (String c t) = true <-> byte_val c < 128 /\ isASCII t = true.
Proof.
  unfold isASCII. cbn [allChars]. rewrite andb_true_iff, Z.ltb_lt.
  reflexivity.
Qed.

Lemma filterKeyChars_ascii_app s t :
  isASCII s = true ->
  filterKeyChars (s ++ t) = (mapBytes asciiKey s ++ filterKeyChars t)%string.
Proof.
  induction s as [|c s IH]; intros Hs; [reflexivity|].
  apply isASCII_cons in Hs as [Hc Hs].
  cbn [String.append mapBytes].
  rewrite filterKeyChars_cons_ascii by exact Hc. rewrite IH by exact Hs.
  reflexivity.
Qed.

Lemma append_empty_r (s : string) : (s ++ "")%string = s.
Proof. induction s as [|c s IH]; [reflexivity|]. cbn. rewrite IH. reflexivity. Qed.

(** X8. On ASCII text the sanitizer works byte by byte: a character of
    [[A-Za-z0-9_-]] stays and any other becomes an underscore, so the
    length is kept; and it does so on an ASCII prefix whatever follows
    it, so that sanitizing a concatenation with an ASCII prefix is
    concatenating the sanitized parts. *)
Theorem filterKeyChars_ascii_bytewise s :
  isASCII s = true ->
  filterKeyChars s = mapBytes asciiKey s
  /\ String.length (filterKeyChars s) = String.length s
  /\ forall t,
       filterKeyChars (s ++ t) = (filterKeyChars s ++ filterKeyChars t)%string.
Proof.
  intros Hs.
  assert (H0 : filterKeyChars s = mapBytes asciiKey s).
  { rewrite <- (append_empty_r s) at 1.
    rewrite filterKeyChars_ascii_app by exact Hs.
    change (filterKeyChars "") with ""%string. apply append_empty_r. }
  split; [exact H0|]. split; [apply filterKeyChars_ascii, Hs|].
  intros t. rewrite H0. apply filterKeyChars_ascii_app, Hs.
Qed.

Lemma mapBytes_asciiKey_fixed s :
  mapBytes asciiKey s = s <-> allChars keyChar s = true.
Proof.
  induction s as [|c s IH]; [split; reflexivity|].
  cbn [mapBytes allChars]. rewrite andb_true_iff, <- IH. unfold asciiKey.
  split.
  - intros [= Hc Hs]. split; [|exact Hs].
    destruct (keyChar c) eqn:E; [reflexivity|]. subst c. discriminate E.
  - intros [Hc Hs]. rewrite Hc, Hs. reflexivity.
Qed.

(** X9. An ASCII key is left as it is exactly when every one of its
    characters is in [[A-Za-z0-9_-]]: the sanitizer never alters a key
    that is already valid, and alters every ASCII key that is not. *)
Theorem filterKeyChars_fixes_valid_keys s :
  isASCII s = true ->
  (filterKeyChars s = s <-> allChars keyChar s = true).
Proof.
  intros Hs.
  assert (H0 : filterKeyChars s = mapBytes asciiKey s).
  { rewrite <- (append_empty_r s) at 1.
    rewrite filterKeyChars_ascii_app by exact Hs.
    change (filterKeyChars "") with ""%string. apply append_empty_r. }
  rewrite H0. apply mapBytes_asciiKey_fixed.
Qed.

Lemma first_cases b sz lo hi :
  first b = Some (sz, lo, hi) ->
  (sz = 2 \/ sz = 3 \/ sz = 4)%nat /\ 128 <= lo.
Proof.
  forget_imports. unfold first.
  repeat match goal with
         | |- context [if ?b then _ else _] => destruct b
         end;
    intros H; inversion H; subst; (split; [auto|lia]).
Qed.

Lemma encodeAll_app f l1 l2 :
  encodeAll f (l1 ++ l2) = (encodeAll f l1 ++ encodeAll f l2)%string.
Proof.
  induction l1 as [|r l1 IH]; [reflexivity|].
  cbn [app encodeAll List.fold_right].
  fold (encodeAll f (l1 ++ l2)). fold (encodeAll f l1). rewrite IH.
  destruct (f r <? 0); [reflexivity|].
  generalize (EncodeRune (f r)) as u. intros u.
  induction u as [|c u IHu]; [reflexivity|]. cbn. rewrite IHu. reflexivity.
Qed.

Ltac decode_step Hf :=
  intros c t Hc; pose proof (byte_val_range c); cbn [String.append];
  rewrite runes_unfold; unfold DecodeRuneInString, RuneSelf;
  rewrite ?Hf.

(** The runes of a key up to an ASCII character do not depend on the
    character or on what follows it: Go's decoder never reads past a
    byte that continues no sequence. *)
Lemma runes_before_ascii n : forall s,
  (String.length s <= n)%nat ->
  exists l, forall c t, byte_val c < 128 ->
    runes (s ++ String c t) = l ++ runes (String c t).
Proof.
  forget_imports.
  induction n as [|n IH]; intros s Hn.
  { destruct s; [|cbn in Hn; lia]. exists []. reflexivity. }
  destruct s as [|c0 s1]; [exists []; reflexivity|].
  cbn [String.length] in Hn.
  destruct (IH s1 ltac:(lia)) as [l1 H1].
  destruct (Z.ltb (byte_val c0) 128) eqn:E0.
  { exists (byte_val c0 :: l1). decode_step E0.
    cbn [app]. rewrite H1 by exact Hc. reflexivity. }
  destruct (first (byte_val c0)) as [[[sz lo] hi]|] eqn:Hf.
  2: { exists (RuneError :: l1). decode_step Hf. rewrite E0.
       cbn [app]. rewrite H1 by exact Hc. reflexivity. }
  destruct (first_cases _ _ _ _ Hf) as [Hsz Hlo].
  destruct s1 as [|c1 s2].
  { exists [RuneError]. decode_step Hf. rewrite E0. cbn [String.append].
    destruct (Z.ltb_spec (byte_val c) lo); [|lia]. reflexivity. }
  cbn [String.length] in Hn.
  destruct ((byte_val c1 <? lo) || (hi <? byte_val c1)) eqn:E1.
  { exists (RuneError :: l1). decode_step Hf. rewrite E0, E1.
    cbn [app]. rewrite <- H1 by exact Hc. reflexivity. }
  destruct (IH s2 ltac:(lia)) as [l2 H2].
  destruct (Nat.eq_dec sz 2%nat) as [->|Hne2].
  { eexists (_ :: l2). decode_step Hf. rewrite E0, E1.
    cbn [app]. rewrite H2 by exact Hc. reflexivity. }
  assert (Hsz' : (sz = 3 \/ sz = 4)%nat) by (destruct Hsz as [?|[?|?]]; auto; contradiction).
  clear Hsz Hne2.
  destruct s2 as [|c2 s3].
  { exists (RuneError :: l1). decode_step Hf. rewrite E0, E1.
    cbn [String.append] in *.
    assert (Ec : continuation (byte_val c) = false).
    { unfold continuation. destruct (Z.leb_spec 128 (byte_val c)); [lia|reflexivity]. }
    destruct Hsz' as [-> | ->]; rewrite Ec; cbn [negb app];
      rewrite <- H1 by exact Hc; reflexivity. }
  cbn [String.length] in Hn.
  destruct (continuation (byte_val c2)) eqn:E2.
  2: { exists (RuneError :: l1). decode_step Hf. rewrite E0, E1.
       destruct Hsz' as [-> | ->]; rewrite E2; cbn [negb app];
         rewrite <- H1 by exact Hc; reflexivity. }
  destruct (IH s3 ltac:(lia)) as [l3 H3].
  destruct Hsz' as [-> | ->].
  { eexists (_ :: l3). decode_step Hf. rewrite E0, E1, E2.
    cbn [negb app]. rewrite H3 by exact Hc. reflexivity. }
  destruct s3 as [|c3 s4].
  { exists (RuneError :: l1). decode_step Hf. rewrite E0, E1, E2.
    cbn [String.append negb] in *.
    assert (Ec : continuation (byte_val c) = false).
    { unfold continuation. destruct (Z.leb_spec 128 (byte_val c)); [lia|reflexivity]. }
    rewrite Ec. cbn [negb app]. rewrite <- H1 by exact Hc. reflexivity. }
  cbn [String.length] in Hn.
  destruct (continuation (byte_val c3)) eqn:E3.
  2: { exists (RuneError :: l1). decode_step Hf. rewrite E0, E1, E2, E3.
       cbn [negb app]. rewrite <- H1 by exact Hc. reflexivity. }
  destruct (IH s4 ltac:(lia)) as [l4 H4].
  eexists (_ :: l4). decode_step Hf. rewrite E0, E1, E2, E3.
  cbn [negb app]. rewrite H4 by exact Hc. reflexivity.
Qed.

(** X10. Keys that differ only in an ASCII character outside
    [[A-Za-z0-9_-]], where the other has an underscore, are sanitized
    to the same key, whatever bytes come before and after the
    character: sanitization can merge distinct keys. *)
Theorem filterKeyChars_merges_keys s c t :
  byte_val c < 128 -> keyChar c = false ->
  filterKeyChars (s ++ String c t) = filterKeyChars (s ++ String "_" t).
Proof.
  intros Hc Hk.
  destruct (runes_before_ascii (String.length s) s (le_n _)) as [l Hl].
  assert (H : forall c', byte_val c' < 128 ->
            filterKeyChars (s ++ String c' t)
            = (encodeAll filterMap l ++ filterKeyChars (String c' t))%string).
  { intros c' Hc'. unfold filterKeyChars at 1. rewrite Map_encodeAll.
    rewrite Hl by exact Hc'. rewrite encodeAll_app. reflexivity. }
  rewrite !H by (try exact Hc; reflexivity). f_equal.
  rewrite !filterKeyChars_cons_ascii by (try exact Hc; reflexivity).
  unfold asciiKey. rewrite Hk. reflexivity.
Qed.

Lemma encodeAll_ext f g l :
  Forall (fun r => f r = g r) l -> encodeAll f l = encodeAll g l.
Proof.
  induction 1 as [|r l Hr _ IH]; [reflexivity|].
  cbn [encodeAll List.fold_right]. rewrite Hr.
  fold (encodeAll f l). fold (encodeAll g l). rewrite IH. reflexivity.
Qed.

Lemma encodeAll_map f l :
  encodeAll (fun r => r) (List.map f l) = encodeAll f l.
Proof.
  induction l as [|r l IH]; [reflexivity|].
  cbn [encodeAll List.fold_right List.map].
  fold (encodeAll (fun r => r) (List.map f l)). fold (encodeAll f l).
  rewrite IH. reflexivity.
Qed.

Lemma filterKeyChars_validUTF8 s : validUTF8 (filterKeyChars s).
Proof.
  unfold validUTF8. rewrite runes_filterKeyChars, encodeAll_map. reflexivity.
Qed.

Lemma filterMap_kept r : keptRune (filterMap r) = true.
Proof.
  unfold filterMap. destruct (keptRune r) eqn:E; [exact E|].
  unfold keptRune. rewrite orb_true_r. reflexivity.
Qed.

Lemma filterKeyChars_kept s :
  Forall (fun r => keptRune r = true) (runes (filterKeyChars s)).
Proof.
  rewrite runes_filterKeyChars. apply List.Forall_map, List.Forall_forall.
  intros r _. apply filterMap_kept.
Qed.

(** X11. A sanitized key, whatever the key was, is valid UTF-8, and every
    rune of it is a letter, a digit, an underscore or a hyphen. *)
Theorem filterKeyChars_valid_and_kept s :
  validUTF8 (filterKeyChars s)
  /\ Forall (fun r => keptRune r = true) (runes (filterKeyChars s)).
Proof.
  split; [apply filterKeyChars_validUTF8|apply filterKeyChars_kept].
Qed.

(** X12. The keys that the sanitizer leaves as they are are exactly the
    valid UTF-8 texts whose runes are all letters, digits, underscores
    or hyphens. *)
Theorem filterKeyChars_fixed_points s :
  filterKeyChars s = s
  <-> validUTF8 s /\ Forall (fun r => keptRune r = true) (runes s).
Proof.
  split.
  - intros Hfix. rewrite <- Hfix.
    split; [apply filterKeyChars_validUTF8|apply filterKeyChars_kept].
  - intros [Hvalid Hkept]. unfold validUTF8 in Hvalid.
    rewrite <- Hvalid at 2.
    unfold filterKeyChars. rewrite Map_encodeAll. apply encodeAll_ext.
    eapply List.Forall_impl; [|exact Hkept]. intros r Hr.
    unfold filterMap. rewrite Hr. reflexivity.
Qed.

(** ** The length of a sanitized key *)

(** The width that [DecodeRuneInString] reports, the bytes the text has
    for it, and the range of the rune. *)
Lemma DecodeRune_width c t :
  let (r, w) := DecodeRuneInString (String c t) in
  (w = 1%nat /\ (r = RuneError \/ 0 <= r < 128))
  \/ (w = 2%nat /\ (1 <= String.length t)%nat /\ 0x80 <= r <= 0x7FF)
  \/ (w = 3%nat /\ (2 <= String.length t)%nat /\ 0x800 <= r <= 0xFFFF)
  \/ (w = 4%nat /\ (3 <= String.length t)%nat /\ 0x10000 <= r <= 0x10FFFF).
Proof.
  forget_imports.
  unfold DecodeRuneInString, RuneSelf.
  pose proof (byte_val_range c).
  destruct (Z.ltb_spec (byte_val c) 128).
  { left. split; [reflexivity|]. right. lia. }
  unfold first.
  repeat match goal with
         | |- context [if ?b then _ else _] =>
           let E := fresh "E" in destruct b eqn:E
         | |- context [match ?s with EmptyString => _ | String _ _ => _ end] =>
           destruct s
         end; try (left; split; [reflexivity|left; reflexivity]).
  all: repeat match goal with
         | H : negb _ = false |- _ => apply negb_false_iff in H
         | H : orb _ _ = false |- _ => apply orb_false_iff in H as [? ?]
         | H : andb _ _ = true |- _ => apply andb_true_iff in H as [? ?]
         | H : continuation _ = true |- _ => unfold continuation in H
         | H : Z.leb _ _ = true |- _ => apply Z.leb_le in H
         | H : Z.ltb _ _ = false |- _ => apply Z.ltb_ge in H
         | H : Z.eqb _ _ = true |- _ => apply Z.eqb_eq in H
         | H : Z.eqb _ _ = false |- _ => apply Z.eqb_neq in H
         | H : Z.leb _ _ = false |- _ => apply Z.leb_gt in H
         | H : andb _ _ = false |- _ =>
           apply andb_false_iff in H; rewrite !Z.leb_gt in H
         end.
  all: cbn [String.length].
  all: repeat match goal with
         | c : ascii |- _ => pose proof (byte_val_range c);
                             generalize dependent (byte_val c); clear c; intros
         end.
  all: first
         [ right; left; split; [reflexivity|]; split; [lia|zsolve]
         | right; right; left; split; [reflexivity|]; split; [lia|zsolve]
         | right; right; right; split; [reflexivity|]; split; [lia|zsolve] ].
Qed.

Lemma EncodeRune_length r :
  (0 <= r < 128 -> String.length (EncodeRune r) = 1%nat)
  /\ (0x80 <= r <= 0x7FF -> String.length (EncodeRune r) = 2%nat)
  /\ (0x800 <= r <= 0xFFFF -> String.length (EncodeRune r) = 3%nat)
  /\ (0x10000 <= r <= 0x10FFFF -> String.length (EncodeRune r) = 4%nat).
Proof.
  forget_imports. unfold EncodeRune, ValidRune, surrogate, MaxRune.
  repeat split; intros Hr; decide_tests; reflexivity.
Qed.

Lemma length_append (s1 s2 : string) :
  String.length (s1 ++ s2) = (String.length s1 + String.length s2)%nat.
Proof.
  induction s1 as [|c s1 IH]; [reflexivity|]. cbn. rewrite IH. reflexivity.
Qed.

Lemma filterKeyChars_length_fuel n :
  keptRune RuneError = false ->
  forall s, (String.length s <= n)%nat ->
    (String.length (filterKeyChars s) <= String.length s)%nat.
Proof.
  intros Herr. induction n as [|n IH]; intros s Hn.
  { destruct s; [reflexivity|simpl in Hn; lia]. }
  destruct s as [|c t]; [reflexivity|].
  unfold filterKeyChars, strings.Map. rewrite runes_unfold.
  pose proof (DecodeRune_width c t) as Hw.
  pose proof (DecodeRune_valid (String c t)) as Hv.
  destruct (DecodeRuneInString (String c t)) as [r w]. cbn [fst] in Hv.
  cbn [List.fold_right].
  rewrite (ValidRune_nonneg _ (filterMap_valid _ Hv)).
  rewrite length_append.
  assert (He : (String.length (EncodeRune (filterMap r)) <= w)%nat).
  { unfold filterMap. destruct (keptRune r) eqn:Ek.
    - destruct (EncodeRune_length r) as (L1 & L2 & L3 & L4).
      destruct Hw as [[-> [-> | Hr]] | [(-> & _ & Hr) | [(-> & _ & Hr)
                     | (-> & _ & Hr)]]].
      + congruence.
      + rewrite L1 by exact Hr. lia.
      + rewrite L2 by exact Hr. lia.
      + rewrite L3 by exact Hr. lia.
      + rewrite L4 by exact Hr. lia.
    - change (String.length (EncodeRune 95)) with 1%nat.
      destruct Hw as [[-> _] | [(-> & _) | [(-> & _) | (-> & _)]]]; lia. }
  revert He. generalize (String.length (EncodeRune (filterMap r))) as k.
  intros k He. clear Hv Herr.
  destruct w as [|[|[|[|[|w]]]]]; destruct t as [|c1 [|c2 [|c3 t]]];
    destruct Hw as [[Hw1 _] | [(Hw1 & Hl & _) | [(Hw1 & Hl & _)
                   | (Hw1 & Hl & _)]]];
    try discriminate Hw1; cbn [String.length] in *; try lia.
  all: match goal with
       | |- context [List.fold_right ?f ?a (runes ?u)] =>
         change (List.fold_right f a (runes u)) with (filterKeyChars u);
         pose proof (IH u) as IHu
       end; cbn [String.length] in IHu; lia.
Qed.

(** X13. When the replacement character [U+FFFD] is neither a letter nor
    a digit, as in the tables of Unicode, a sanitized key is never
    longer in bytes than the key: a rune that is kept is written in the
    bytes it was read from, and any other rune, or byte that does not
    decode, becomes the one byte of an underscore. *)
Theorem filterKeyChars_never_longer s :
  unicode.IsLetter isExcludingLatin RuneError = false ->
  unicode.IsDigit isExcludingLatin RuneError = false ->
  (String.length (filterKeyChars s) <= String.length s)%nat.
Proof.
  intros Hl Hd. apply (filterKeyChars_length_fuel (String.length s)); [|lia].
  unfold keptRune. rewrite Hl, Hd. reflexivity.
Qed.

(** ** The datapoints of a metric, without translation rules *)

Lemma metricToSfxDataPoints_plain m e h :
  metricToSfxDataPoints (NewMetricsConverter None) m e h = shapePoints m e h.
Proof.
  rewrite metricToSfxDataPoints_shape. unfold shapePoints.
  destruct (Data m); try reflexivity; unfold bind, translate;
    cbn [NewMetricsConverter metricTranslator];
    match goal with
    | |- match ?r with _ => _ end = _ => destruct r as [[? ?]|]; reflexivity
    end.
Qed.

Lemma emittedFor_types m h e h' out :
  Forall (emittedFor m h e h') out ->
  Forall (fun dp => MetricTypeOf dp = fromMetricDataTypeToMetricType m) out.
Proof.
  intros HF. eapply Forall_impl; [exact HF|]. intros dp [Ht _]. exact Ht.
Qed.

(** X14. Every datapoint converted from a gauge, integer or
    floating-point, has the type [GAUGE]; every datapoint converted from
    a histogram, the count, the sum and the buckets alike, has the type
    [COUNTER] when the temporality of the histogram is delta and
    [CUMULATIVE_COUNTER] when it is anything else. *)
Theorem gauge_and_histogram_datapoints_type m e h :
  inBounds h e ->
  exists out h',
    metricToSfxDataPoints (NewMetricsConverter None) m e h = Some (out, h')
    /\ ((exists dps, Data m = MetricDataTypeIntGauge dps)
        \/ (exists dps, Data m = MetricDataTypeDoubleGauge dps) ->
        Forall (fun dp => MetricTypeOf dp = Some GAUGE) out)
    /\ (forall t,
          (exists dps, Data m = MetricDataTypeIntHistogram t dps)
          \/ (exists dps, Data m = MetricDataTypeDoubleHistogram t dps) ->
          (t = AggregationTemporalityDelta ->
           Forall (fun dp => MetricTypeOf dp = Some COUNTER) out)
          /\ (t <> AggregationTemporalityDelta ->
              Forall (fun dp => MetricTypeOf dp = Some CUMULATIVE_COUNTER)
                out)).
Proof.
  intros Hb. destruct (shapePoints_post m e h Hb) as (out & h' & Hrun & _ & HF).
  apply emittedFor_types in HF.
  exists out, h'. rewrite metricToSfxDataPoints_plain.
  split; [exact Hrun|]. unfold fromMetricDataTypeToMetricType in HF. split.
  - intros [[dps E] | [dps E]]; rewrite E in HF; exact HF.
  - intros t [[dps E] | [dps E]]; rewrite E in HF; split; intros Ht;
      destruct t; try congruence; exact HF.
Qed.

(** X15. A monotonic sum whose temporality is unspecified is converted
    as a cumulative one: every datapoint has the type
    [CUMULATIVE_COUNTER], for integer and floating-point sums. *)
Theorem unspecified_temporality_is_cumulative m e h :
  inBounds h e ->
  (exists dps,
     Data m = MetricDataTypeIntSum true AggregationTemporalityUnspecified dps)
  \/ (exists dps,
        Data m
        = MetricDataTypeDoubleSum true AggregationTemporalityUnspecified dps)
  ->
  exists out h',
    metricToSfxDataPoints (NewMetricsConverter None) m e h = Some (out, h')
    /\ Forall (fun dp => MetricTypeOf dp = Some CUMULATIVE_COUNTER) out.
Proof.
  intros Hb Hm.
  destruct (shapePoints_post m e h Hb) as (out & h' & Hrun & _ & HF).
  apply emittedFor_types in HF.
  exists out, h'. rewrite metricToSfxDataPoints_plain.
  split; [exact Hrun|]. unfold fromMetricDataTypeToMetricType in HF.
  destruct Hm as [[dps E] | [dps E]]; rewrite E in HF; exact HF.
Qed.

(** X16. A histogram data point without bucket counts gives exactly two
    datapoints, the count and the sum, whatever explicit bounds it has:
    the test of the bucket arrays lets it pass and the loop over the
    counts has nothing to go through. *)
Theorem histogram_without_bucket_counts (m : pdata.Metric) e h ds :
  dimsOf h e = Some ds ->
  (forall histDPs,
     exists groups h',
       convertIntHistogram histDPs (makeBaseDataPoint m) e h
       = Some (concat groups, h')
       /\ Forall2
            (fun x group =>
               ihp_BucketCounts x = [] ->
               exists countDP sumDP,
                 group = [countDP; sumDP]
                 /\ view h' countDP
                    = Some {| fpMetric := Name m ++ "_count";
                              fpTimestamp :=
                                timestampToSignalFx (ihp_Timestamp x);
                              fpValue :=
                                {| StrValue := None; DoubleValue := None;
                                   IntValue := Some (int64 (ihp_Count x)) |};
                              fpType := fromMetricDataTypeToMetricType m;
                              fpDimensions :=
                                ds ++ labelDims (ihp_LabelsMap x) |}
                 /\ view h' sumDP
                    = Some {| fpMetric := Name m;
                              fpTimestamp :=
                                timestampToSignalFx (ihp_Timestamp x);
                              fpValue :=
                                {| StrValue := None; DoubleValue := None;
                                   IntValue := Some (ihp_Sum x) |};
                              fpType := fromMetricDataTypeToMetricType m;
                              fpDimensions :=
                                ds ++ labelDims (ihp_LabelsMap x) |})
            (nonNil histDPs) groups)
  /\ (forall histDPs,
     exists groups h',
       convertDoubleHistogram histDPs (makeBaseDataPoint m) e h
       = Some (concat groups, h')
       /\ Forall2
            (fun x group =>
               dhp_BucketCounts x = [] ->
               exists countDP sumDP,
                 group = [countDP; sumDP]
                 /\ view h' countDP
                    = Some {| fpMetric := Name m ++ "_count";
                              fpTimestamp :=
                                timestampToSignalFx (dhp_Timestamp x);
                              fpValue :=
                                {| StrValue := None; DoubleValue := None;
                                   IntValue := Some (int64 (dhp_Count x)) |};
                              fpType := fromMetricDataTypeToMetricType m;
                              fpDimensions :=
                                ds ++ labelDims (dhp_LabelsMap x) |}
                 /\ view h' sumDP
                    = Some {| fpMetric := Name m;
                              fpTimestamp :=
                                timestampToSignalFx (dhp_Timestamp x);
                              fpValue :=
                                {| StrValue := None;
                                   DoubleValue := Some (dhp_Sum x);
                                   IntValue := None |};
                              fpType := fromMetricDataTypeToMetricType m;
                              fpDimensions :=
                                ds ++ labelDims (dhp_LabelsMap x) |})
            (nonNil histDPs) groups).
Proof.
  intros Hds. pose proof (dimsOf_bounds _ _ _ Hds) as Hb. split.
  - intros histDPs.
    destruct (convertIntHistogram_post histDPs (makeBaseDataPoint m) e h Hb)
      as (groups & h' & Hrun & _ & HF).
    exists groups, h'. split; [exact Hrun|].
    eapply Forall2_impl; [exact HF|].
    intros x group Hg Hnil.
    pose proof (fun Hc Hs =>
                  histogramGroup_views _ _ _ _ _ _ _ _ _ _ _ _ ds
                    Hc Hs Hds Hg) as Hv.
    destruct (Hv (fun _ _ => eq_refl) (fun _ _ => eq_refl))
      as (sc & ss & buckets & -> & Hvc & Hvs & Hbk). clear Hv.
    rewrite Hnil in Hbk. cbn in Hbk. inversion Hbk; subst.
    eexists _, _. split; [reflexivity|]. split; [exact Hvc|exact Hvs].
  - intros histDPs.
    destruct (convertDoubleHistogram_post histDPs (makeBaseDataPoint m) e h Hb)
      as (groups & h' & Hrun & _ & HF).
    exists groups, h'. split; [exact Hrun|].
    eapply Forall2_impl; [exact HF|].
    intros x group Hg Hnil.
    pose proof (fun Hc Hs =>
                  histogramGroup_views _ _ _ _ _ _ _ _ _ _ _ _ ds
                    Hc Hs Hds Hg) as Hv.
    destruct (Hv (fun _ _ => eq_refl) (fun _ _ => eq_refl))
      as (sc & ss & buckets & -> & Hvc & Hvs & Hbk). clear Hv.
    rewrite Hnil in Hbk. cbn in Hbk. inversion Hbk; subst.
    eexists _, _. split; [reflexivity|]. split; [exact Hvc|exact Hvs].
Qed.

(** ** Pointers: what the datapoints share *)

Lemma labelsToDimensions_elems labels e h :
  inBounds h e ->
  exists s h',
    labelsToDimensions labels e h = Some (s, h')
    /\ extends h h'
    /\ arr s = Some (length (arrays h))
    /\ len s = (len e + length labels)%nat /\ cap s = len s
    /\ inBounds h' s
    /\ elems h' s
       = elems h e ++ List.map Some (seq (length (objects h)) (length labels))
    /\ objects h' = objects h ++ labelDims labels.
Proof.
  intros Hb. pose proof (length_elems _ _ Hb) as HE.
  eexists _, _. split; [apply labelsToDimensions_run, Hb|].
  split; [apply extends_app|].
  split; [reflexivity|]. split; [reflexivity|]. split; [cbn; lia|].
  split; [|split; [|reflexivity]].
  - unfold inBounds, backing. cbn [arr len arrays].
    rewrite (list_lookup_middle (arrays h) [] _ _ eq_refl).
    cbn [default from_option id].
    rewrite length_app, List.length_map, length_seq. lia.
  - unfold elems at 1, backing. cbn [arr len arrays].
    rewrite (list_lookup_middle (arrays h) [] _ _ eq_refl).
    cbn [default from_option id].
    apply take_ge. rewrite length_app, List.length_map, length_seq. lia.
Qed.

(** X17. The slice that [labelsToDimensions] returns holds the very
    pointers of [extraDims], so that the resource dimensions are shared
    and not copied, followed by pointers to one new dimension for every
    label, in order; it is on a new backing array and fills its
    capacity; no dimension and no array that existed is written. *)
Theorem labelsToDimensions_shares_extraDims labels e h :
  inBounds h e ->
  exists s h',
    labelsToDimensions labels e h = Some (s, h')
    /\ newSlice h s
    /\ len s = (len e + length labels)%nat /\ cap s = len s
    /\ elems h' s
       = elems h e ++ List.map Some (seq (length (objects h)) (length labels))
    /\ objects h' = objects h ++ labelDims labels
    /\ arrays h `prefix_of` arrays h'.
Proof.
  intros Hb.
  destruct (labelsToDimensions_elems labels e h Hb)
    as (s & h' & Hrun & Hext & Harr & Hlen & Hcap & _ & Hel & Hobj).
  exists s, h'. split; [exact Hrun|].
  split; [exists (length (arrays h)); split; [exact Harr|lia]|].
  split; [exact Hlen|]. split; [exact Hcap|]. split; [exact Hel|].
  split; [exact Hobj|]. destruct Hext as [_ Ha]. exact Ha.
Qed.

Lemma extends_objects_length h h' :
  extends h h' -> (length (objects h) <= length (objects h'))%nat.
Proof. intros [Ho _]. apply prefix_length, Ho. Qed.

Lemma sharesResource_extends h0 e h1 h2 s :
  extends h1 h2 -> sharesResource h0 e h1 s -> sharesResource h0 e h2 s.
Proof.
  intros Hext (own & Hel & Hown & Hin). exists own.
  split; [rewrite (elems_extends_eq _ _ _ Hext Hin); exact Hel|].
  split; [|eapply inBounds_extends; eauto].
  pose proof (extends_objects_length _ _ Hext).
  eapply Forall_impl; [exact Hown|]. intros a Ha. cbn beta in Ha. lia.
Qed.

Lemma labelsToDimensions_shares h0 labels e h :
  inBounds h0 e -> extends h0 h ->
  exists s h',
    labelsToDimensions labels e h = Some (s, h')
    /\ extends h h' /\ len s = cap s /\ sharesResource h0 e h' s.
Proof.
  intros Hb0 Hext0. pose proof (inBounds_extends _ _ _ Hext0 Hb0) as Hb.
  destruct (labelsToDimensions_elems labels e h Hb)
    as (s & h' & Hrun & Hext & _ & _ & Hcap & Hin & Hel & Hobj).
  exists s, h'. split; [exact Hrun|]. split; [exact Hext|].
  split; [symmetry; exact Hcap|].
  exists (seq (length (objects h)) (length labels)).
  split; [rewrite Hel, (elems_extends_eq _ _ _ Hext0 Hb0); reflexivity|].
  split; [|exact Hin].
  pose proof (extends_objects_length _ _ Hext0).
  apply Forall_forall. intros a Ha. apply list_elem_of_In, in_seq in Ha.
  rewrite Hobj, length_app, length_labelDims. lia.
Qed.

(** [append] to a full slice, element by element. *)
Lemma append_full_elems s x h :
  len s = cap s -> inBounds h s ->
  exists s' h',
    append growslice s x h = Some (s', h')
    /\ extends h h' /\ objects h' = objects h
    /\ inBounds h' s' /\ elems h' s' = elems h s ++ [x].
Proof.
  intros Hfull Hb. unfold append. rewrite Hfull, Nat.ltb_irrefl.
  rewrite <- Hfull.
  set (c := Nat.max (S (len s)) (growslice (len s) (S (len s)))).
  set (cells := elems h s ++ x :: replicate (c - S (len s)) None).
  set (s' := {| arr := Some (length (arrays h)); len := S (len s); cap := c |}).
  set (h' := {| objects := objects h; arrays := arrays h ++ [cells] |}).
  assert (Hback : backing h' s' = cells) by (apply backing_last; reflexivity).
  assert (Hlen : length cells = c).
  { unfold cells. rewrite length_app, (length_elems _ _ Hb). cbn [length].
    rewrite length_replicate. lia. }
  exists s', h'. split; [reflexivity|].
  split.
  { pose proof (extends_app h [] [cells]) as X.
    rewrite app_nil_r in X. exact X. }
  split; [reflexivity|].
  split; [unfold inBounds; rewrite Hback, Hlen; cbn; lia|].
  unfold elems at 1. rewrite Hback. cbn [len s']. unfold cells.
  rewrite cons_middle, app_assoc. apply take_app_length'.
  rewrite length_app, (length_elems _ _ Hb). cbn. lia.
Qed.

Lemma bucketPoint_shares h0 labels bounds ts basePoint e j c out h :
  inBounds h0 e -> extends h0 h ->
  exists s h',
    bucketPoint labels bounds ts basePoint e j c out h
    = Some (out ++ [bucketDataPoint basePoint ts c s], h')
    /\ extends h h' /\ sharesResource h0 e h' s.
Proof.
  intros Hb0 Hext0.
  destruct (labelsToDimensions_shares h0 labels e h Hb0 Hext0)
    as (s1 & h1 & Hrun1 & Hext1 & Hfull1 & (own & Hel1 & Hown1 & Hin1)).
  destruct (new_post {| Key := upperBoundDimensionKey;
                        Value := bucketBound bounds j |} h1)
    as (h2 & Hrun2 & Hext2 & Harr2 & Hobj2 & _).
  destruct (append_full_elems s1 (Some (length (objects h1))) h2 Hfull1
              (inBounds_extends _ _ _ Hext2 Hin1))
    as (s3 & h3 & Hrun3 & Hext3 & Hobj3 & Hin3 & Hel3).
  exists s3, h3. unfold bucketPoint, bind. rewrite Hrun1.
  fold (bucketBound bounds j). rewrite Hrun2, Hrun3.
  split; [reflexivity|]. split; [eauto using extends_trans|].
  exists (own ++ [length (objects h1)]).
  split.
  { rewrite Hel3, (elems_extends_eq _ _ _ Hext2 Hin1), Hel1.
    rewrite List.map_app, app_assoc. reflexivity. }
  split; [|exact Hin3].
  rewrite Hobj3, Hobj2, length_app. cbn [length].
  pose proof (extends_objects_length _ _ Hext0).
  pose proof (extends_objects_length _ _ Hext1).
  apply Forall_app. split.
  - eapply Forall_impl; [exact Hown1|]. intros a Ha. cbn beta in Ha. lia.
  - constructor; [lia|constructor].
Qed.

Lemma rangeLoop_all {A} (body : A -> list DataPoint -> M (list DataPoint))
  (h0 : heap) (P : heap -> DataPoint -> Prop) :
  (forall x out h, extends h0 h ->
     exists new h', body x out h = Some (out ++ new, h')
                    /\ extends h h' /\ Forall (P h') new) ->
  (forall h h' dp, extends h h' -> P h dp -> P h' dp) ->
  forall l out h, extends h0 h ->
    exists news h',
      rangeLoop body l out h = Some (out ++ news, h')
      /\ extends h h' /\ Forall (P h') news.
Proof.
  intros Hbody Hstable l out h Hh.
  destruct (rangeLoop_emits body h0 (fun h' _ new => Forall (P h') new)
              Hbody) with (l := l) (out := out) (h := h)
    as (groups & h' & Hrun & Hext & HF); [|exact Hh|].
  - intros h1 h2 _ new Hext HF. eapply Forall_impl; [exact HF|].
    intros dp. apply Hstable, Hext.
  - exists (concat groups), h'. split; [exact Hrun|]. split; [exact Hext|].
    clear -HF. induction HF as [|x g l groups Hg _ IH]; [constructor|].
    cbn [concat]. apply Forall_app. split; assumption.
Qed.

Lemma rangeLoopFrom_all {A}
  (body : nat -> A -> list DataPoint -> M (list DataPoint))
  (h0 : heap) (P : heap -> DataPoint -> Prop) :
  (forall j x out h, extends h0 h ->
     exists new h', body j x out h = Some (out ++ new, h')
                    /\ extends h h' /\ Forall (P h') new) ->
  (forall h h' dp, extends h h' -> P h dp -> P h' dp) ->
  forall l j out h, extends h0 h ->
    exists news h',
      rangeLoopFrom body j l out h = Some (out ++ news, h')
      /\ extends h h' /\ Forall (P h') news.
Proof.
  intros Hbody Hstable l j out h Hh.
  destruct (rangeLoopFrom_emits body h0
              (fun h' _ _ new => Forall (P h') new) Hbody)
    with (l := l) (j := j) (out := out) (h := h)
    as (groups & h' & Hrun & Hext & HF); [|exact Hh|].
  - intros h1 h2 _ _ new Hext HF. eapply Forall_impl; [exact HF|].
    intros dp. apply Hstable, Hext.
  - exists (concat groups), h'. split; [exact Hrun|]. split; [exact Hext|].
    clear -HF. revert HF. generalize (combine (seq j (length l)) l).
    intros l0 HF. induction HF as [|x g l1 groups Hg _ IH]; [constructor|].
    cbn [concat]. apply Forall_app. split; assumption.
Qed.

Lemma convertDatapoints_shares {A} (labelsOf : A -> StringMap)
  (mk : A -> slice -> DataPoint) (e : slice) (in_ : list (option A)) h :
  inBounds h e ->
  (forall x s, Dimensions (mk x s) = s) ->
  exists out h',
    rangeLoop
      (fun inDp out =>
         match inDp with
         | None => ret out
         | Some inDp =>
           do dims <- labelsToDimensions (labelsOf inDp) e;
           ret (out ++ [mk inDp dims])
         end) in_ [] h = Some (out, h')
    /\ extends h h'
    /\ Forall (fun dp => sharesResource h e h' (Dimensions dp)) out.
Proof.
  intros Hb Hmk.
  edestruct (rangeLoop_all
    (fun inDp out =>
       match inDp with
       | None => ret out
       | Some inDp =>
         do dims <- labelsToDimensions (labelsOf inDp) e;
         ret (out ++ [mk inDp dims])
       end) h
    (fun h' dp => sharesResource h e h' (Dimensions dp)))
    as (out & h' & Hrun & Hext & HF).
  - intros [x|] out h1 Hh1.
    + destruct (labelsToDimensions_shares h (labelsOf x) e h1 Hb Hh1)
        as (s & h2 & Hrun & Hext & _ & Hs).
      exists [mk x s], h2. unfold bind. rewrite Hrun.
      split; [reflexivity|]. split; [exact Hext|].
      constructor; [rewrite Hmk; exact Hs|constructor].
    + exists [], h1. rewrite app_nil_r.
      split; [reflexivity|]. split; [apply extends_refl|constructor].
  - intros h1 h2 dp Hext. apply sharesResource_extends, Hext.
  - apply extends_refl.
  - exists out, h'. split; [exact Hrun|]. split; [exact Hext|exact HF].
Qed.

Lemma convertHistogram_shares {A} (labelsOf : A -> StringMap)
  (tsOf : A -> Z) (countsOf : A -> list Z) (boundsOf : A -> list float)
  (mkCount mkSum : A -> slice -> DataPoint) (basePoint : DataPoint)
  (e : slice) (histDPs : list (option A)) h :
  inBounds h e ->
  (forall x s, Dimensions (mkCount x s) = s) ->
  (forall x s, Dimensions (mkSum x s) = s) ->
  exists out h',
    rangeLoop
      (fun histDP out =>
         match histDP with
         | None => ret out
         | Some histDP =>
           do dims <- labelsToDimensions (labelsOf histDP) e;
           do dims' <- labelsToDimensions (labelsOf histDP) e;
           if bucketMismatch (countsOf histDP) (boundsOf histDP)
           then ret (out ++ [mkCount histDP dims; mkSum histDP dims'])
           else
             rangeLoopFrom
               (bucketPoint (labelsOf histDP) (boundsOf histDP) (tsOf histDP)
                  basePoint e)
               0%nat (countsOf histDP)
               (out ++ [mkCount histDP dims; mkSum histDP dims'])
         end) histDPs [] h = Some (out, h')
    /\ extends h h'
    /\ Forall (fun dp => sharesResource h e h' (Dimensions dp)) out.
Proof.
  intros Hb Hc Hs.
  edestruct (rangeLoop_all
    (fun histDP out =>
       match histDP with
       | None => ret out
       | Some histDP =>
         do dims <- labelsToDimensions (labelsOf histDP) e;
         do dims' <- labelsToDimensions (labelsOf histDP) e;
         if bucketMismatch (countsOf histDP) (boundsOf histDP)
         then ret (out ++ [mkCount histDP dims; mkSum histDP dims'])
         else
           rangeLoopFrom
             (bucketPoint (labelsOf histDP) (boundsOf histDP) (tsOf histDP)
                basePoint e)
             0%nat (countsOf histDP)
             (out ++ [mkCount histDP dims; mkSum histDP dims'])
       end) h
    (fun h' dp => sharesResource h e h' (Dimensions dp)))
    as (out & h' & Hrun & Hext & HF).
  - intros [x|] out h1 Hh1.
    + destruct (labelsToDimensions_shares h (labelsOf x) e h1 Hb Hh1)
        as (sc & h2 & Hrun2 & Hext2 & _ & Hsc).
      pose proof (extends_trans _ _ _ Hh1 Hext2) as Hh2.
      destruct (labelsToDimensions_shares h (labelsOf x) e h2 Hb Hh2)
        as (ss & h3 & Hrun3 & Hext3 & _ & Hss).
      pose proof (extends_trans _ _ _ Hh2 Hext3) as Hh3.
      unfold bind. rewrite Hrun2, Hrun3.
      destruct (bucketMismatch (countsOf x) (boundsOf x)).
      * exists [mkCount x sc; mkSum x ss], h3.
        split; [reflexivity|]. split; [eauto using extends_trans|].
        constructor;
          [rewrite Hc; eapply sharesResource_extends;
             [exact Hext3|exact Hsc]|].
        constructor; [rewrite Hs; exact Hss|constructor].
      * edestruct (rangeLoopFrom_all
          (bucketPoint (labelsOf x) (boundsOf x) (tsOf x) basePoint e) h
          (fun h' dp => sharesResource h e h' (Dimensions dp)))
          with (l := countsOf x) (j := 0%nat)
               (out := out ++ [mkCount x sc; mkSum x ss]) (h := h3)
          as (buckets & h4 & Hrun4 & Hext4 & HF4).
        -- intros j c out' h5 Hh5.
           destruct (bucketPoint_shares h (labelsOf x) (boundsOf x) (tsOf x)
                       basePoint e j c out' h5 Hb Hh5)
             as (s & h6 & Hrun6 & Hext6 & Hs6).
           exists [bucketDataPoint basePoint (tsOf x) c s], h6.
           split; [exact Hrun6|]. split; [exact Hext6|].
           constructor; [exact Hs6|constructor].
        -- intros h5 h6 dp Hext. apply sharesResource_extends, Hext.
        -- exact Hh3.
        -- exists (mkCount x sc :: mkSum x ss :: buckets), h4.
           rewrite Hrun4, <- app_assoc.
           split; [reflexivity|]. split; [eauto using extends_trans|].
           constructor;
             [rewrite Hc; eapply sharesResource_extends;
                [exact (extends_trans _ _ _ Hext3 Hext4)|exact Hsc]|].
           constructor;
             [rewrite Hs; eapply sharesResource_extends;
                [exact Hext4|exact Hss]|exact HF4].
    + exists [], h1. rewrite app_nil_r.
      split; [reflexivity|]. split; [apply extends_refl|constructor].
  - intros h1 h2 dp Hext. apply sharesResource_extends, Hext.
  - apply extends_refl.
  - exists out, h'. split; [exact Hrun|]. split; [exact Hext|exact HF].
Qed.

Lemma shapePoints_shares m e h :
  inBounds h e ->
  exists out h',
    shapePoints m e h = Some (out, h')
    /\ extends h h'
    /\ Forall (fun dp => sharesResource h e h' (Dimensions dp)) out.
Proof.
  intros Hb. unfold shapePoints.
  destruct (Data m) as [|dps|dps|mono temp dps|mono temp dps|temp dps|temp dps].
  - exists [], h. split; [reflexivity|].
    split; [apply extends_refl|constructor].
  - exact (convertDatapoints_shares idp_LabelsMap
             (fun x s => setIntValue (idp_Value x)
                           (setDimensions s
                              (setTimestamp
                                 (timestampToSignalFx (idp_Timestamp x))
                                 (makeBaseDataPoint m))))
             e dps h Hb (fun _ _ => eq_refl)).
  - exact (convertDatapoints_shares ddp_LabelsMap
             (fun x s => setDoubleValue (ddp_Value x)
                           (setDimensions s
                              (setTimestamp
                                 (timestampToSignalFx (ddp_Timestamp x))
                                 (makeBaseDataPoint m))))
             e dps h Hb (fun _ _ => eq_refl)).
  - exact (convertDatapoints_shares idp_LabelsMap
             (fun x s => setIntValue (idp_Value x)
                           (setDimensions s
                              (setTimestamp
                                 (timestampToSignalFx (idp_Timestamp x))
                                 (makeBaseDataPoint m))))
             e dps h Hb (fun _ _ => eq_refl)).
  - exact (convertDatapoints_shares ddp_LabelsMap
             (fun x s => setDoubleValue (ddp_Value x)
                           (setDimensions s
                              (setTimestamp
                                 (timestampToSignalFx (ddp_Timestamp x))
                                 (makeBaseDataPoint m))))
             e dps h Hb (fun _ _ => eq_refl)).
  - exact (convertHistogram_shares ihp_LabelsMap
             (fun x => timestampToSignalFx (ihp_Timestamp x))
             ihp_BucketCounts ihp_ExplicitBounds
             (fun x => countDataPoint (makeBaseDataPoint m)
                         (timestampToSignalFx (ihp_Timestamp x))
                         (ihp_Count x))
             (fun x => intSumDataPoint (makeBaseDataPoint m)
                         (timestampToSignalFx (ihp_Timestamp x)) (ihp_Sum x))
             (makeBaseDataPoint m) e dps h Hb
             (fun _ _ => eq_refl) (fun _ _ => eq_refl)).
  - exact (convertHistogram_shares dhp_LabelsMap
             (fun x => timestampToSignalFx (dhp_Timestamp x))
             dhp_BucketCounts dhp_ExplicitBounds
             (fun x => countDataPoint (makeBaseDataPoint m)
                         (timestampToSignalFx (dhp_Timestamp x))
                         (dhp_Count x))
             (fun x => doubleSumDataPoint (makeBaseDataPoint m)
                         (timestampToSignalFx (dhp_Timestamp x)) (dhp_Sum x))
             (makeBaseDataPoint m) e dps h Hb
             (fun _ _ => eq_refl) (fun _ _ => eq_refl)).
Qed.

(** X18. The datapoints converted from a metric share the resource
    dimensions: the dimension slice of every one of them starts with the
    very pointers of the resource-level list, in order, and goes on with
    pointers to dimensions that the conversion allocated. *)
Theorem datapoints_share_resource_dimensions m e h :
  inBounds h e ->
  exists out h',
    metricToSfxDataPoints (NewMetricsConverter None) m e h = Some (out, h')
    /\ Forall
         (fun dp =>
            exists own,
              elems h' (Dimensions dp) = elems h e ++ List.map Some own
              /\ Forall (fun a => (length (objects h) <= a)%nat) own)
         out.
Proof.
  intros Hb.
  destruct (shapePoints_shares m e h Hb) as (out & h' & Hrun & _ & HF).
  exists out, h'. rewrite metricToSfxDataPoints_plain.
  split; [exact Hrun|]. eapply Forall_impl; [exact HF|].
  intros dp (own & Hel & Hown & _). exists own. split; [exact Hel|].
  eapply Forall_impl; [exact Hown|]. intros a Ha. cbn beta in Ha. lia.
Qed.

(** ** The batch, without translation rules *)

(** The conversion of a batch up to the sanitizer: the resource
    dimensions, then the datapoints of every metric in turn, each
    converted in the store that its predecessor left. *)
Lemma batch_groups rm h :
  exists e h0 groups h1,
    resourceAttributesToDimensions (ResourceAttributes rm) h = Some (e, h0)
    /\ owns h h0 e
    /\ dimsOf h0 e = Some (resourceDimensions (ResourceAttributes rm))
    /\ collectDataPoints (NewMetricsConverter None) rm h
       = Some (concat groups, h1)
    /\ extends h0 h1
    /\ Forall2 (fun m group =>
         exists ha hb, extends h0 ha /\ extends hb h1
           /\ shapePoints m e ha = Some (group, hb))
       (batchMetrics rm) groups
    /\ Forall (fun dp => is_Some (view h1 dp)) (concat groups).
Proof.
  destruct (collectDataPoints_total rm h)
    as (e & h0 & groups & h1 & Hrun0 & Hrun & Hext & HF & Hv).
  destruct (resourceAttributesToDimensions_post (ResourceAttributes rm) h)
    as (e' & h0' & Hrun0' & Hown & Hds).
  rewrite Hrun0 in Hrun0'. injection Hrun0' as <- <-.
  exists e, h0, groups, h1. auto 10.
Qed.

Lemma groups_Forall {A} (R : A -> list DataPoint -> Prop)
  (Q : A -> DataPoint -> Prop) (l : list A) (groups : list (list DataPoint)) :
  (forall m group, In m l -> R m group -> Forall (Q m) group) ->
  Forall2 R l groups ->
  Forall (fun dp => exists m, In m l /\ Q m dp) (concat groups).
Proof.
  intros HQ HF. induction HF as [|m g l groups Hg _ IH]; [constructor|].
  cbn [concat]. apply Forall_app. split.
  - eapply Forall_impl; [apply (HQ m g); [left; reflexivity|exact Hg]|].
    intros dp Hdp. exists m. split; [left; reflexivity|exact Hdp].
  - eapply Forall_impl; [apply IH|].
    + intros m' g' Hin. apply HQ. right. exact Hin.
    + intros dp (m' & Hin & Hdp). exists m'. split; [right; exact Hin|].
      exact Hdp.
Qed.

(** The sanitizer at the end of the conversion of a batch. *)
Lemma batch_sanitized rm h out h1 :
  collectDataPoints (NewMetricsConverter None) rm h = Some (out, h1) ->
  Forall (fun dp => is_Some (view h1 dp)) out ->
  MetricDataToSignalFxV2 (NewMetricsConverter None) rm h
  = Some (out, {| objects := sanitizedAt (visited h1 out) (objects h1);
                  arrays := arrays h1 |}).
Proof.
  intros Hrun Hv. unfold MetricDataToSignalFxV2, bind. rewrite Hrun.
  rewrite sanitizeDataPointDimensions_run; [reflexivity|].
  eapply Forall_impl; [exact Hv|]. intros dp [fp Hfp]. unfold view in Hfp.
  destruct (dimsOf h1 (Dimensions dp)); [eauto|discriminate].
Qed.

Lemma histogramGroup_length {A} (labelsOf : A -> StringMap) tsOf countsOf
  boundsOf mkCount mkSum basePoint h e h' (xs : list A) groups :
  Forall2 (histogramGroup labelsOf tsOf countsOf boundsOf mkCount mkSum
             basePoint h e h') xs groups ->
  length (concat groups)
  = list_sum (List.map (fun x => histogramPoints (countsOf x) (boundsOf x))
                xs).
Proof.
  induction 1 as [|x g xs groups Hg _ IH]; [reflexivity|].
  cbn [concat List.map list_sum List.fold_right].
  rewrite length_app, IH. f_equal.
  destruct Hg as (sc & ss & buckets & -> & _ & _ & Hb).
  unfold histogramPoints. cbn [length].
  destruct (bucketMismatch (countsOf x) (boundsOf x)).
  - subst buckets. reflexivity.
  - apply Forall2_length in Hb.
    rewrite length_combine, length_seq, Nat.min_id in Hb.
    rewrite <- Hb. reflexivity.
Qed.

Lemma shapePoints_length m e h out h' :
  inBounds h e -> shapePoints m e h = Some (out, h') ->
  length out = pointCount m.
Proof.
  intros Hb. unfold shapePoints, pointCount.
  destruct (Data m) as [|dps|dps|mono temp dps|mono temp dps|temp dps|temp dps].
  - intros [= <- _]. reflexivity.
  - destruct (convertIntDatapoints_post dps (makeBaseDataPoint m) e h Hb)
      as (out' & h'' & Hrun & _ & HF).
    rewrite Hrun. intros [= <- _]. symmetry. eapply Forall2_length, HF.
  - destruct (convertDoubleDatapoints_post dps (makeBaseDataPoint m) e h Hb)
      as (out' & h'' & Hrun & _ & HF).
    rewrite Hrun. intros [= <- _]. symmetry. eapply Forall2_length, HF.
  - destruct (convertIntDatapoints_post dps (makeBaseDataPoint m) e h Hb)
      as (out' & h'' & Hrun & _ & HF).
    rewrite Hrun. intros [= <- _]. symmetry. eapply Forall2_length, HF.
  - destruct (convertDoubleDatapoints_post dps (makeBaseDataPoint m) e h Hb)
      as (out' & h'' & Hrun & _ & HF).
    rewrite Hrun. intros [= <- _]. symmetry. eapply Forall2_length, HF.
  - destruct (convertIntHistogram_post dps (makeBaseDataPoint m) e h Hb)
      as (groups & h'' & Hrun & _ & HF).
    rewrite Hrun. intros [= <- _]. eapply histogramGroup_length, HF.
  - destruct (convertDoubleHistogram_post dps (makeBaseDataPoint m) e h Hb)
      as (groups & h'' & Hrun & _ & HF).
    rewrite Hrun. intros [= <- _]. eapply histogramGroup_length, HF.
Qed.

(** ** Batches as received: metrics whose data is nil *)

Lemma rangeLoop_map_ext {A B T} (f : A -> B) (body1 : B -> T -> M T)
  (body2 : A -> T -> M T) (l : list A) :
  (forall x acc h, body1 (f x) acc h = body2 x acc h) ->
  forall acc h,
    rangeLoop body1 (List.map f l) acc h = rangeLoop body2 l acc h.
Proof.
  intros Hb. induction l as [|x l IH]; intros acc h; [reflexivity|].
  cbn [List.map rangeLoop]. apply bind_congr; [apply Hb|].
  intros a h1. apply IH.
Qed.

Lemma rangeLoop_faults {A T} (bad : A -> bool) (body : A -> T -> M T)
  (l : list A) :
  (forall x acc h, bad x = true -> body x acc h = None) ->
  existsb bad l = true ->
  forall acc h, rangeLoop body l acc h = None.
Proof.
  intros Hb. induction l as [|x l IH]; intros He acc h; [discriminate|].
  cbn [existsb] in He. cbn [rangeLoop]. destruct (bad x) eqn:Ex.
  - unfold bind. rewrite Hb by exact Ex. reflexivity.
  - apply bind_run_None. intros a h1. apply IH. exact He.
Qed.

Lemma existsb_false_map {A B} (bad : B -> bool) (f : A -> B) (l : list B) :
  (forall y, bad y = false -> exists x, y = f x) ->
  existsb bad l = false -> exists l', l = List.map f l'.
Proof.
  intros Hf. induction l as [|y l IH]; intros He.
  - exists []. reflexivity.
  - cbn [existsb] in He. apply orb_false_iff in He as [Hy Hl].
    destruct (Hf y Hy) as [x ->]. destruct (IH Hl) as [l' ->].
    exists (x :: l'). reflexivity.
Qed.

(** On a batch whose metrics all have their data the converter is the
    one of the batches without nil data. *)
Lemma MetricDataToSignalFxV2_orig_withData c rm h :
  MetricDataToSignalFxV2_orig c (withData rm) h
  = MetricDataToSignalFxV2 c rm h.
Proof.
  unfold MetricDataToSignalFxV2_orig, MetricDataToSignalFxV2.
  apply bind_congr; [|reflexivity].
  unfold collectDataPoints_orig, collectDataPoints.
  cbn [withData ResourceAttributesOrig InstrumentationLibraryMetricsSliceOrig].
  apply bind_congr; [reflexivity|]. intros e h1.
  apply rangeLoop_map_ext. intros [ilm|] acc h2; [|reflexivity].
  cbn [option_map withDataLibrary MetricsOrig].
  apply rangeLoop_map_ext. intros [m|] acc' h3; reflexivity.
Qed.

(** A metric whose data is nil makes the converter fault. *)
Lemma hasNilData_faults c rm h :
  hasNilData rm = true -> MetricDataToSignalFxV2_orig c rm h = None.
Proof.
  intros Hn. unfold MetricDataToSignalFxV2_orig.
  assert (Hc : collectDataPoints_orig c rm h = None).
  { unfold collectDataPoints_orig. apply bind_run_None. intros e h1.
    eapply rangeLoop_faults; [|exact Hn].
    intros [ilm|] acc h2 Hbad; [|discriminate].
    eapply rangeLoop_faults; [|exact Hbad].
    intros [[m|name ty]|] acc' h3 Hb; try discriminate. reflexivity. }
  unfold bind at 1. rewrite Hc. reflexivity.
Qed.

(** A batch without such a metric is a batch whose metrics all have
    their data. *)
Lemma hasNilData_false rm :
  hasNilData rm = false -> exists batch, rm = withData batch.
Proof.
  destruct rm as [attrs ilms]. unfold hasNilData.
  cbn [InstrumentationLibraryMetricsSliceOrig]. intros Hn.
  apply (existsb_false_map _ (option_map withDataLibrary)) in Hn.
  - destruct Hn as [l ->].
    exists {| ResourceAttributes := attrs;
              InstrumentationLibraryMetricsSlice := l |}. reflexivity.
  - intros [[ms]|] Hy; [|exists None; reflexivity].
    cbn [MetricsOrig] in Hy.
    apply (existsb_false_map _ (option_map DataOf)) in Hy.
    + destruct Hy as [l ->]. exists (Some {| Metrics := l |}). reflexivity.
    + intros [[m|name ty]|] Hm; try discriminate.
      * exists (Some m). reflexivity.
      * exists None. reflexivity.
Qed.

(** What holds of the conversion of every batch whose metrics have
    their data, said of the batches as received. *)
Lemma received_batch_cases
  (P : ResourceMetrics -> list DataPoint -> heap -> Prop) rm h :
  (forall batch, exists out h',
     MetricDataToSignalFxV2 (NewMetricsConverter None) batch h
     = Some (out, h') /\ P batch out h') ->
  (hasNilData rm = true ->
   MetricDataToSignalFxV2_orig (NewMetricsConverter None) rm h = None)
  /\ (hasNilData rm = false ->
      exists batch out h',
        rm = withData batch
        /\ MetricDataToSignalFxV2_orig (NewMetricsConverter None) rm h
           = Some (out, h')
        /\ P batch out h').
Proof.
  intros HP. split; [apply hasNilData_faults|].
  intros Hn. destruct (hasNilData_false rm Hn) as [batch ->].
  destruct (HP batch) as (out & h' & Hrun & Hp).
  exists batch, out, h'. split; [reflexivity|].
  rewrite MetricDataToSignalFxV2_orig_withData. split; assumption.
Qed.

(** The number of datapoints of a batch whose metrics have their data. *)
Lemma batch_datapoint_count_data rm h :
  exists out h',
    MetricDataToSignalFxV2 (NewMetricsConverter None) rm h = Some (out, h')
    /\ length out = list_sum (List.map pointCount (batchMetrics rm)).
Proof.
  destruct (batch_groups rm h)
    as (e & h0 & groups & h1 & _ & Hown & _ & Hrun & _ & HF & Hv).
  pose proof (owns_inBounds _ _ _ Hown) as Hb.
  eexists _, _. split; [apply (batch_sanitized _ _ _ _ Hrun Hv)|].
  clear Hrun Hv. induction HF as [|m g ms groups Hg _ IH]; [reflexivity|].
  cbn [concat List.map list_sum List.fold_right].
  rewrite length_app, IH. f_equal.
  destruct Hg as (ha & hb & Hha & _ & Hsh).
  eapply shapePoints_length; [|exact Hsh].
  eapply inBounds_extends; eauto.
Qed.

(** X19. A converter made without translation rules, given a batch in
    which every metric whose data type is set has its data, returns as
    many datapoints as the metrics of the batch give: one for every
    data point of a gauge or a sum and, for every data point of a
    histogram, two and one more for each bucket count unless the bucket
    arrays disagree; nil data points, nil metrics, nil instrumentation
    libraries and metrics whose data type is none give no datapoint.
    Given a batch that holds a metric whose data type is set and whose
    data is nil, it faults and returns nothing. *)
Theorem batch_datapoint_count (rm : ResourceMetricsOrig) h :
  (hasNilData rm = true ->
   MetricDataToSignalFxV2_orig (NewMetricsConverter None) rm h = None)
  /\ (hasNilData rm = false ->
      exists batch out h',
        rm = withData batch
        /\ MetricDataToSignalFxV2_orig (NewMetricsConverter None) rm h
           = Some (out, h')
        /\ length out
           = list_sum (List.map pointCount (batchMetrics batch))).
Proof.
  apply (received_batch_cases
           (fun batch out _ =>
              length out
              = list_sum (List.map pointCount (batchMetrics batch)))).
  intros batch. apply batch_datapoint_count_data.
Qed.

Lemma Forall2_Forall_r {A B} (R : A -> B -> Prop) (P : A -> Prop)
  (Q : B -> Prop) (l : list A) (k : list B) :
  (forall a b, P a -> R a b -> Q b) ->
  Forall2 R l k -> Forall P l -> Forall Q k.
Proof.
  intros H HF. induction HF as [|a b l k Hab _ IH]; intros HP; [constructor|].
  inversion HP; subst. constructor; [eapply H; eauto|apply IH; assumption].
Qed.

(** The dimensions of the datapoints of a batch whose metrics have
    their data. *)
Lemma batch_dimensions_sanitized_data rm h :
  exists out h' fps,
    MetricDataToSignalFxV2 (NewMetricsConverter None) rm h = Some (out, h')
    /\ mapM (view h') out = Some fps
    /\ Forall
         (fun fp =>
            exists m extra,
              In m (batchMetrics rm) /\ ownDimensions m extra
              /\ fpType fp = fromMetricDataTypeToMetricType m
              /\ fpDimensions fp
                 = List.map
                     (fun d => {| Key := filterKeyChars (Key d);
                                  Value := Value d |})
                     (resourceDimensions (ResourceAttributes rm) ++ extra))
         fps
    /\ Forall
         (fun fp =>
            Forall (fun d => filterKeyChars (Key d) = Key d)
              (fpDimensions fp))
         fps.
Proof.
  destruct (batch_groups rm h)
    as (e & h0 & groups & h1 & _ & Hown & Hds & Hrun & _ & HF & Hv).
  pose proof (owns_inBounds _ _ _ Hown) as Hb.
  set (ds := resourceDimensions (ResourceAttributes rm)) in *.
  assert (HQ : Forall
            (fun dp =>
               exists m, In m (batchMetrics rm)
                 /\ exists extra,
                      ownDimensions m extra
                      /\ MetricTypeOf dp = fromMetricDataTypeToMetricType m
                      /\ view h1 dp
                         = Some {| fpMetric := Metric dp;
                                   fpTimestamp := Timestamp dp;
                                   fpValue := DatumValue dp;
                                   fpType := MetricTypeOf dp;
                                   fpDimensions := ds ++ extra |})
            (concat groups)).
  { eapply groups_Forall; [|exact HF].
    intros m group _ (ha & hb & Hha & Hhb & Hsh).
    destruct (shapePoints_post m e ha (inBounds_extends _ _ _ Hha Hb))
      as (out' & hb' & Hrun' & _ & HE).
    rewrite Hsh in Hrun'. injection Hrun' as <- <-.
    eapply Forall_impl; [exact HE|].
    intros dp (Ht & extra & Hh & Ho). exists extra.
    split; [exact Ho|]. split; [exact Ht|].
    eapply view_extends; [exact Hhb|].
    eapply view_sliceHolds; [reflexivity|exact Hh|].
    eapply dimsOf_extends; eauto. }
  assert (Hfps : exists fps, mapM (view h1) (concat groups) = Some fps).
  { apply mapM_is_Some in Hv. destruct Hv as [fps Hfps]. eauto. }
  destruct Hfps as [fps Hfps].
  destruct (sanitize_views _ _ _ Hfps) as (h2 & Hs & _ & Hv2).
  exists (concat groups), h2, (List.map sanitizeFlat fps).
  split; [unfold MetricDataToSignalFxV2, bind; rewrite Hrun, Hs;
          reflexivity|].
  split; [exact Hv2|].
  apply mapM_Some in Hfps. split.
  - apply List.Forall_map.
    eapply Forall2_Forall_r; [|exact Hfps|exact HQ].
    intros dp fp (m & Hin & extra & Ho & Ht & Hview) Hfp. cbn beta in Hfp.
    rewrite Hview in Hfp. injection Hfp as <-.
    exists m, extra. cbn [sanitizeFlat fpType fpDimensions].
    split; [exact Hin|]. split; [exact Ho|]. split; [exact Ht|reflexivity].
  - apply List.Forall_map, List.Forall_forall. intros fp _.
    cbn [sanitizeFlat fpDimensions].
    apply List.Forall_map, List.Forall_forall. intros d _.
    cbn [sanitizeDim Key]. apply filterKeyChars_idem.
Qed.

(** X20. A converter made without translation rules, given a batch in
    which every metric whose data type is set has its data, returns
    datapoints that can all be read, and the dimensions of each are the
    resource dimensions followed by the dimensions of its own (the
    labels of a data point of one of the metrics of the batch and, for
    a bucket, [upper_bound]), every key sanitized and every value as it
    was; its type is the one of that metric. Every key that leaves the
    converter is one that the sanitizer would leave as it is. Given a
    batch that holds a metric whose data type is set and whose data is
    nil, it faults. *)
Theorem batch_dimensions_sanitized (rm : ResourceMetricsOrig) h :
  (hasNilData rm = true ->
   MetricDataToSignalFxV2_orig (NewMetricsConverter None) rm h = None)
  /\ (hasNilData rm = false ->
      exists batch out h',
        rm = withData batch
        /\ MetricDataToSignalFxV2_orig (NewMetricsConverter None) rm h
           = Some (out, h')
        /\ exists fps,
             mapM (view h') out = Some fps
             /\ Forall
                  (fun fp =>
                     exists m extra,
                       In m (batchMetrics batch) /\ ownDimensions m extra
                       /\ fpType fp = fromMetricDataTypeToMetricType m
                       /\ fpDimensions fp
                          = List.map
                              (fun d => {| Key := filterKeyChars (Key d);
                                           Value := Value d |})
                              (resourceDimensions (ResourceAttributes batch)
                               ++ extra))
                  fps
             /\ Forall
                  (fun fp =>
                     Forall (fun d => filterKeyChars (Key d) = Key d)
                       (fpDimensions fp))
                  fps).
Proof.
  apply (received_batch_cases
           (fun batch out h' =>
              exists fps,
                mapM (view h') out = Some fps
                /\ Forall
                     (fun fp =>
                        exists m extra,
                          In m (batchMetrics batch) /\ ownDimensions m extra
                          /\ fpType fp = fromMetricDataTypeToMetricType m
                          /\ fpDimensions fp
                             = List.map
                                 (fun d => {| Key := filterKeyChars (Key d);
                                              Value := Value d |})
                                 (resourceDimensions
                                    (ResourceAttributes batch) ++ extra))
                     fps
                /\ Forall
                     (fun fp =>
                        Forall (fun d => filterKeyChars (Key d) = Key d)
                          (fpDimensions fp))
                     fps)).
  intros batch.
  destruct (batch_dimensions_sanitized_data batch h)
    as (out & h' & fps & Hrun & Hfps).
  exists out, h'. split; [exact Hrun|]. exists fps. exact Hfps.
Qed.

(** ** What the conversion leaves alone *)

(** [append] to a slice that owns its backing array, element by
    element. *)
Lemma append_owned_elems h0 s x h :
  owns h0 h s ->
  exists s' h',
    append growslice s x h = Some (s', h')
    /\ owns h0 h' s' /\ objects h' = objects h
    /\ elems h' s' = elems h s ++ [x].
Proof.
  intros (Hext & Hlc & Hcb & Hfresh).
  destruct (Nat.ltb_spec (len s) (cap s)) as [Hlt|Hge].
  - unfold append. apply Nat.ltb_lt in Hlt as Hlt'. rewrite Hlt'. clear Hlt'.
    unfold backing in Hcb.
    destruct (arr s) as [a|] eqn:Ha; [|cbn in Hcb; lia].
    destruct (arrays h !! a) as [cells|] eqn:Hcells; [|cbn in Hcb; lia].
    cbn [default from_option id] in Hcb.
    set (cells' := <[len s := x]> cells).
    set (s' := {| arr := Some a; len := S (len s); cap := cap s |}).
    set (h' := {| objects := objects h;
                  arrays := <[a := cells']> (arrays h) |}).
    assert (Hback : backing h' s' = cells').
    { unfold backing. cbn [arr s' arrays h'].
      rewrite list_lookup_insert_eq; [reflexivity|].
      apply lookup_lt_Some in Hcells. exact Hcells. }
    assert (Hlen' : length cells' = length cells)
      by (unfold cells'; apply length_insert).
    exists s', h'. split; [reflexivity|].
    split.
    { split.
      - destruct Hext as [Ho Har]. split; [exact Ho|].
        cbn [arrays h']. apply prefix_insert_ge; [exact Har|].
        apply Hfresh. reflexivity.
      - cbn [len cap s']. split; [lia|]. rewrite Hback, Hlen'.
        split; [exact Hcb|]. intros a' Ha'. apply Hfresh.
        cbn in Ha'. congruence. }
    split; [reflexivity|].
    unfold elems. rewrite Hback. cbn [len s'].
    unfold backing. rewrite Ha, Hcells. cbn [default from_option id].
    unfold cells'.
    rewrite (take_S_r _ _ x) by (apply list_lookup_insert_eq; lia).
    rewrite take_insert_ge by lia. reflexivity.
  - assert (Hfull : len s = cap s) by lia.
    assert (Hb : inBounds h s) by (unfold inBounds; lia).
    destruct (append_full_post s x h Hfull Hb)
      as (s' & h' & Hrun & Hext' & Hobj & Harr & Hlen & Hin & Hcap & _).
    destruct (append_full_elems s x h Hfull Hb)
      as (s'' & h'' & Hrun' & _ & _ & _ & Hel).
    rewrite Hrun in Hrun'. injection Hrun' as <- <-.
    exists s', h'. split; [exact Hrun|].
    split.
    { split; [eapply extends_trans; eauto|].
      split; [lia|]. split; [lia|].
      intros a Ha. rewrite Harr in Ha. injection Ha as <-.
      destruct Hext as [_ Har]. apply prefix_length in Har. exact Har. }
    split; [exact Hobj|exact Hel].
Qed.

Lemma appendNew_fresh h0 s d h :
  owns h0 h s -> freshElems h0 h s ->
  exists s' h',
    (do p <- new d; append growslice s (Some p)) h = Some (s', h')
    /\ owns h0 h' s' /\ freshElems h0 h' s'.
Proof.
  intros Hown Hfr.
  destruct (new_post d h) as (h1 & Hrun1 & Hext1 & Harr1 & Hobj1 & _).
  pose proof (owns_extends_objects _ _ _ _ Hown Hext1 Harr1) as Hown1.
  destruct (append_owned_elems h0 s (Some (length (objects h))) h1 Hown1)
    as (s' & h' & Hrun & Hown' & _ & Hel).
  exists s', h'. unfold bind. rewrite Hrun1.
  split; [exact Hrun|]. split; [exact Hown'|].
  unfold freshElems. rewrite Hel.
  rewrite (elems_extends_eq _ _ _ Hext1 (owns_inBounds _ _ _ Hown)).
  apply Forall_app. split; [exact Hfr|].
  constructor; [|constructor]. eexists. split; [reflexivity|].
  destruct Hown as [Hext _]. apply extends_objects_length, Hext.
Qed.

Lemma resourceLoop_fresh h0 keep attrs : forall s h,
  owns h0 h s -> freshElems h0 h s ->
  exists s' h',
    rangeLoop
      (fun kv dims =>
         let k := fst kv in
         let val := snd kv in
         if (k =? SFxAccessTokenLabel)%string then ret dims
         else if negb (keep k) then ret dims
         else
           do d <- new {| Key := k;
                          Value := AttributeValueToString val false |};
           append growslice dims (Some d))
      attrs s h = Some (s', h')
    /\ owns h0 h' s' /\ freshElems h0 h' s'.
Proof.
  induction attrs as [|[k v] attrs IH]; intros s h Hown Hfr.
  - exists s, h. cbn. auto.
  - cbn [rangeLoop fst snd].
    destruct (k =? SFxAccessTokenLabel)%string.
    { unfold bind, ret. apply IH; assumption. }
    destruct (keep k); cbn [negb].
    2: { unfold bind, ret. apply IH; assumption. }
    destruct (appendNew_fresh h0 s
                {| Key := k; Value := AttributeValueToString v false |}
                h Hown Hfr) as (s1 & h1 & Hrun1 & Hown1 & Hfr1).
    destruct (IH s1 h1 Hown1 Hfr1) as (s' & h' & Hrun & Hown' & Hfr').
    exists s', h'. unfold bind at 1. rewrite Hrun1. auto.
Qed.

Lemma freshElems_nil h : freshElems h h nilSlice.
Proof. constructor. Qed.

Lemma resourceAttributesToDimensions_fresh attrs h :
  exists s h',
    resourceAttributesToDimensions attrs h = Some (s, h')
    /\ owns h h' s /\ freshElems h h' s.
Proof.
  unfold resourceAttributesToDimensions.
  set (accountID := getStringAttr attrs AttributeCloudAccount).
  set (region := getStringAttr attrs AttributeCloudRegion).
  set (instanceID := getStringAttr attrs AttributeHostID).
  set (provider := getStringAttr attrs AttributeCloudProvider).
  assert (Hplain : forall keep,
    exists s h',
      (do (filter, dims) <- ret (keep, nilSlice);
       rangeLoop
         (fun kv dims =>
            let k := fst kv in
            let val := snd kv in
            if (k =? SFxAccessTokenLabel)%string then ret dims
            else if negb (filter k) then ret dims
            else
              do d <- new {| Key := k;
                             Value := AttributeValueToString val false |};
              append growslice dims (Some d))
         attrs dims) h = Some (s, h')
      /\ owns h h' s /\ freshElems h h' s).
  { intros keep. unfold bind at 1, ret at 1.
    apply (resourceLoop_fresh h keep attrs nilSlice h);
      [apply owns_nil|apply freshElems_nil]. }
  assert (Hsynth : forall keep d,
    exists s h',
      (do (filter, dims) <-
         (do p <- new d;
          do dims <- append growslice nilSlice (Some p);
          ret (keep, dims));
       rangeLoop
         (fun kv dims =>
            let k := fst kv in
            let val := snd kv in
            if (k =? SFxAccessTokenLabel)%string then ret dims
            else if negb (filter k) then ret dims
            else
              do d <- new {| Key := k;
                             Value := AttributeValueToString val false |};
              append growslice dims (Some d))
         attrs dims) h = Some (s, h')
      /\ owns h h' s /\ freshElems h h' s).
  { intros keep d.
    destruct (appendNew_fresh h nilSlice d h (owns_nil h) (freshElems_nil h))
      as (s1 & h1 & Hrun1 & Hown1 & Hfr1).
    destruct (resourceLoop_fresh h keep attrs s1 h1 Hown1 Hfr1)
      as (s' & h' & Hrun & Hown' & Hfr').
    exists s', h'. unfold bind in Hrun1 |- *.
    destruct (new d h) as [[p hp]|]; [|discriminate].
    rewrite Hrun1. unfold ret. auto. }
  destruct (provider =? AttributeCloudProviderAWS)%string.
  { destruct ((instanceID =? "")%string || (region =? "")%string
              || (accountID =? "")%string);
      [apply Hplain|apply Hsynth]. }
  destruct (provider =? AttributeCloudProviderGCP)%string.
  { destruct ((accountID =? "")%string || (instanceID =? "")%string);
      [apply Hplain|apply Hsynth]. }
  apply Hplain.
Qed.

Lemma sanitizedAt_prefix (O0 O : list Dimension) V :
  O0 `prefix_of` O ->
  Forall (fun p => exists a, p = Some a /\ (length O0 <= a)%nat) V ->
  O0 `prefix_of` sanitizedAt V O.
Proof.
  intros [k ->] HV. unfold sanitizedAt. rewrite imap_app.
  match goal with
  | |- _ `prefix_of` ?l ++ _ => replace l with O0
  end; [apply prefix_app_r; reflexivity|].
  apply list_eq. intros i. rewrite list_lookup_imap.
  destruct (O0 !! i) as [d|] eqn:Hi; [|reflexivity]. cbn.
  rewrite bool_decide_eq_false_2; [reflexivity|].
  intros Hin. rewrite Forall_forall in HV.
  destruct (HV _ Hin) as (a & [= <-] & Ha).
  apply lookup_lt_Some in Hi. lia.
Qed.

(** The store after the conversion of a batch whose metrics have their
    data. *)
Lemma conversion_writes_to_nothing_older_data rm h :
  exists out h',
    MetricDataToSignalFxV2 (NewMetricsConverter None) rm h = Some (out, h')
    /\ objects h `prefix_of` objects h'
    /\ arrays h `prefix_of` arrays h'.
Proof.
  destruct (batch_groups rm h)
    as (e & h0 & groups & h1 & Hrun0 & Hown & _ & Hrun & Hext & HF & Hv).
  pose proof (owns_inBounds _ _ _ Hown) as Hb.
  destruct (resourceAttributesToDimensions_fresh (ResourceAttributes rm) h)
    as (e' & h0' & Hrun0' & _ & Hfr).
  rewrite Hrun0 in Hrun0'. injection Hrun0' as <- <-.
  assert (Hh0 : extends h h0) by (destruct Hown as [Hx _]; exact Hx).
  pose proof (extends_trans _ _ _ Hh0 Hext) as Hh1.
  eexists _, _. split; [apply (batch_sanitized _ _ _ _ Hrun Hv)|].
  cbn [objects arrays]. destruct Hh1 as [Ho Ha]. split; [|exact Ha].
  apply sanitizedAt_prefix; [exact Ho|].
  assert (HQ : Forall
            (fun dp =>
               exists m, In m (batchMetrics rm)
                 /\ Forall (fun p => exists a, p = Some a
                                       /\ (length (objects h) <= a)%nat)
                      (elems h1 (Dimensions dp)))
            (concat groups)).
  { eapply groups_Forall; [|exact HF].
    intros m group _ (ha & hb & Hha & Hhb & Hsh).
    pose proof (inBounds_extends _ _ _ Hha Hb) as Hba.
    destruct (shapePoints_shares m e ha Hba)
      as (out' & hb' & Hrun' & _ & HS).
    rewrite Hsh in Hrun'. injection Hrun' as <- <-.
    eapply Forall_impl; [exact HS|].
    intros dp Hdp. apply (sharesResource_extends _ _ _ _ _ Hhb) in Hdp.
    destruct Hdp as (own & Hel & Hown' & _).
    rewrite Hel, (elems_extends_eq _ _ _ Hha Hb).
    apply Forall_app. split; [exact Hfr|].
    apply List.Forall_map. eapply Forall_impl; [exact Hown'|].
    intros a Ha'. cbn beta in Ha'. exists a. split; [reflexivity|].
    pose proof (extends_objects_length _ _ Hh0).
    pose proof (extends_objects_length _ _ Hha). lia. }
  unfold visited. clear -HQ.
  induction HQ as [|dp dps (m & _ & Hdp) _ IH]; [constructor|].
  cbn [List.map concat]. apply Forall_app. split; assumption.
Qed.

(** X21. A converter made without translation rules writes to nothing
    that existed before the call: given a batch in which every metric
    whose data type is set has its data, the conversion returns, and
    every dimension and every backing array of the store it was given
    is as it was in the store it leaves. The dimensions whose keys the
    sanitizer rewrites are all allocated by the conversion. Given a
    batch that holds a metric whose data type is set and whose data is
    nil, the conversion faults. *)
Theorem conversion_writes_to_nothing_older (rm : ResourceMetricsOrig) h :
  (hasNilData rm = true ->
   MetricDataToSignalFxV2_orig (NewMetricsConverter None) rm h = None)
  /\ (hasNilData rm = false ->
      exists batch out h',
        rm = withData batch
        /\ MetricDataToSignalFxV2_orig (NewMetricsConverter None) rm h
           = Some (out, h')
        /\ objects h `prefix_of` objects h'
        /\ arrays h `prefix_of` arrays h').
Proof.
  apply (received_batch_cases
           (fun _ _ h' =>
              objects h `prefix_of` objects h'
              /\ arrays h `prefix_of` arrays h')).
  intros batch. apply conversion_writes_to_nothing_older_data.
Qed.

(** ** Counts beyond the range of [int64] *)

Lemma histogramGroup_count {A} (labelsOf : A -> StringMap) tsOf countsOf
  boundsOf (countOf : A -> Z) mkSum basePoint h e h' (x : A) group :
  histogramGroup labelsOf tsOf countsOf boundsOf
    (fun x => countDataPoint basePoint (tsOf x) (countOf x)) mkSum basePoint
    h e h' x group ->
  exists countDP rest,
    group = countDP :: rest
    /\ IntValue (DatumValue countDP) = Some (int64 (countOf x)).
Proof.
  intros (sc & ss & buckets & -> & _). eexists _, _.
  split; reflexivity.
Qed.

(** X22. The count of a histogram data point is a [uint64] that the
    converter reinterprets as an [int64]: below [2^63] the count
    datapoint carries it as it is, and from [2^63] on it carries the
    count less [2^64], a negative value. *)
Theorem histogram_count_reinterpreted basePoint e h :
  inBounds h e ->
  (forall histDPs,
     exists groups h',
       convertIntHistogram histDPs basePoint e h = Some (concat groups, h')
       /\ Forall2
            (fun x group =>
               exists countDP rest,
                 group = countDP :: rest
                 /\ (0 <= ihp_Count x < 2 ^ 63 ->
                     IntValue (DatumValue countDP) = Some (ihp_Count x))
                 /\ (2 ^ 63 <= ihp_Count x < 2 ^ 64 ->
                     IntValue (DatumValue countDP)
                     = Some (ihp_Count x - 2 ^ 64)))
            (nonNil histDPs) groups)
  /\ (forall histDPs,
     exists groups h',
       convertDoubleHistogram histDPs basePoint e h = Some (concat groups, h')
       /\ Forall2
            (fun x group =>
               exists countDP rest,
                 group = countDP :: rest
                 /\ (0 <= dhp_Count x < 2 ^ 63 ->
                     IntValue (DatumValue countDP) = Some (dhp_Count x))
                 /\ (2 ^ 63 <= dhp_Count x < 2 ^ 64 ->
                     IntValue (DatumValue countDP)
                     = Some (dhp_Count x - 2 ^ 64)))
            (nonNil histDPs) groups).
Proof.
  intros Hb. split.
  - intros histDPs.
    destruct (convertIntHistogram_post histDPs basePoint e h Hb)
      as (groups & h' & Hrun & _ & HF).
    exists groups, h'. split; [exact Hrun|].
    eapply Forall2_impl; [exact HF|]. intros x group Hg.
    destruct (histogramGroup_count ihp_LabelsMap
                (fun x => timestampToSignalFx (ihp_Timestamp x))
                ihp_BucketCounts ihp_ExplicitBounds ihp_Count _ _ _ _ _ _ _
                Hg) as (countDP & rest & -> & Hv).
    exists countDP, rest. split; [reflexivity|]. rewrite Hv.
    split; intros Hc; f_equal; [apply int64_small|apply int64_large];
      exact Hc.
  - intros histDPs.
    destruct (convertDoubleHistogram_post histDPs basePoint e h Hb)
      as (groups & h' & Hrun & _ & HF).
    exists groups, h'. split; [exact Hrun|].
    eapply Forall2_impl; [exact HF|]. intros x group Hg.
    destruct (histogramGroup_count dhp_LabelsMap
                (fun x => timestampToSignalFx (dhp_Timestamp x))
                dhp_BucketCounts dhp_ExplicitBounds dhp_Count _ _ _ _ _ _ _
                Hg) as (countDP & rest & -> & Hv).
    exists countDP, rest. split; [reflexivity|]. rewrite Hv.
    split; intros Hc; f_equal; [apply int64_small|apply int64_large];
      exact Hc.
Qed.

(** ** What a datapoint has to itself *)

Lemma distinctIn_nil lo hi : distinctIn lo hi [].
Proof. split; constructor. Qed.

Lemma distinctIn_app a b c l1 l2 :
  (a <= b)%nat -> (b <= c)%nat ->
  distinctIn a b l1 -> distinctIn b c l2 -> distinctIn a c (l1 ++ l2).
Proof.
  forget_imports.
  intros Hab Hbc [N1 R1] [N2 R2]. split.
  - apply NoDup_app. split; [exact N1|]. split; [|exact N2].
    intros x H1 H2. rewrite Forall_forall in R1, R2.
    specialize (R1 x H1). specialize (R2 x H2). lia.
  - apply Forall_app. split.
    + eapply Forall_impl; [exact R1|]. intros x Hx. cbn beta in Hx. lia.
    + eapply Forall_impl; [exact R2|]. intros x Hx. cbn beta in Hx. lia.
Qed.

Lemma distinctIn_seq a n : distinctIn a (a + n) (seq a n).
Proof.
  forget_imports.
  split; [apply NoDup_seq|]. apply Forall_forall. intros x Hx.
  apply list_elem_of_In, in_seq in Hx. lia.
Qed.

Lemma extends_arrays_length h h' :
  extends h h' -> (length (arrays h) <= length (arrays h'))%nat.
Proof. intros [_ Ha]. apply prefix_length, Ha. Qed.

Lemma emittedBetween_nil h0 e h : emittedBetween h0 e h h [] [].
Proof.
  split; [constructor|]. split; apply distinctIn_nil.
Qed.

Lemma emittedBetween_app h0 e h1 h2 h3 l1 l2 i1 i2 :
  extends h1 h2 -> extends h2 h3 ->
  emittedBetween h0 e h1 h2 l1 i1 -> emittedBetween h0 e h2 h3 l2 i2 ->
  emittedBetween h0 e h1 h3 (l1 ++ l2) (i1 ++ i2).
Proof.
  intros H12 H23 (F1 & O1 & A1) (F2 & O2 & A2). split; [|split].
  - apply Forall2_app; [|exact F2].
    eapply Forall2_impl; [exact F1|]. intros dp i (Ha & Hel & Hin).
    split; [exact Ha|]. split; [|eapply inBounds_extends; eauto].
    rewrite (elems_extends_eq _ _ _ H23 Hin). exact Hel.
  - rewrite List.map_app, concat_app.
    eapply distinctIn_app; [| |exact O1|exact O2];
      apply extends_objects_length; assumption.
  - rewrite List.map_app.
    eapply distinctIn_app; [| |exact A1|exact A2];
      apply extends_arrays_length; assumption.
Qed.

Lemma labelsToDimensions_owned h0 labels e h :
  inBounds h0 e -> extends h0 h ->
  exists s h',
    labelsToDimensions labels e h = Some (s, h')
    /\ extends h h' /\ len s = cap s /\ inBounds h' s
    /\ arr s = Some (length (arrays h))
    /\ length (arrays h') = S (length (arrays h))
    /\ elems h' s
       = elems h0 e
         ++ List.map Some (seq (length (objects h)) (length labels))
    /\ length (objects h') = (length (objects h) + length labels)%nat.
Proof.
  intros Hb0 Hext0. pose proof (inBounds_extends _ _ _ Hext0 Hb0) as Hb.
  pose proof (length_elems _ _ Hb) as HE.
  eexists _, _. split; [apply labelsToDimensions_run, Hb|].
  split; [apply extends_app|]. split; [cbn; lia|].
  split; [|split; [reflexivity|split; [|split]]].
  - unfold inBounds, backing. cbn [arr len arrays].
    rewrite (list_lookup_middle (arrays h) [] _ _ eq_refl).
    cbn [default from_option id].
    rewrite length_app, List.length_map, length_seq. lia.
  - cbn [arrays]. rewrite length_app. cbn. lia.
  - unfold elems at 1, backing. cbn [arr len arrays].
    rewrite (list_lookup_middle (arrays h) [] _ _ eq_refl).
    cbn [default from_option id].
    rewrite (elems_extends_eq _ _ _ Hext0 Hb0).
    apply take_ge. rewrite length_app, List.length_map, length_seq.
    rewrite <- (elems_extends_eq _ _ _ Hext0 Hb0). lia.
  - cbn [objects]. rewrite length_app, length_labelDims. reflexivity.
Qed.

Lemma labelsToDimensions_between h0 labels e h (mk : slice -> DataPoint) :
  inBounds h0 e -> extends h0 h ->
  (forall s, Dimensions (mk s) = s) ->
  exists s h',
    labelsToDimensions labels e h = Some (s, h')
    /\ extends h h'
    /\ emittedBetween h0 e h h' [mk s]
         [(seq (length (objects h)) (length labels), length (arrays h))].
Proof.
  intros Hb0 Hext0 Hmk.
  destruct (labelsToDimensions_owned h0 labels e h Hb0 Hext0)
    as (s & h' & Hrun & Hext & _ & Hin & Harr & HA & Hel & HO).
  exists s, h'. split; [exact Hrun|]. split; [exact Hext|].
  split; [|split].
  - constructor; [|constructor]. rewrite Hmk. cbn [fst snd]. auto.
  - cbn [List.map concat fst]. rewrite app_nil_r, HO. apply distinctIn_seq.
  - cbn [List.map snd]. rewrite HA. split.
    + apply NoDup_singleton.
    + constructor; [lia|constructor].
Qed.

(** [append] to a full slice: where the new slice is. *)
Lemma append_full_owned s x h :
  len s = cap s -> inBounds h s ->
  exists s' h',
    append growslice s x h = Some (s', h')
    /\ extends h h' /\ objects h' = objects h
    /\ inBounds h' s' /\ elems h' s' = elems h s ++ [x]
    /\ arr s' = Some (length (arrays h))
    /\ length (arrays h') = S (length (arrays h)).
Proof.
  intros Hfull Hb.
  destruct (append_full_elems s x h Hfull Hb)
    as (s' & h' & Hrun & Hext & Hobj & Hin & Hel).
  exists s', h'. split; [exact Hrun|]. split; [exact Hext|].
  split; [exact Hobj|]. split; [exact Hin|]. split; [exact Hel|].
  unfold append in Hrun. rewrite Hfull, Nat.ltb_irrefl in Hrun.
  injection Hrun as <- <-. cbn [arr arrays].
  split; [reflexivity|]. rewrite length_app. cbn. lia.
Qed.

Lemma bucketPoint_between h0 labels bounds ts basePoint e j c out h :
  inBounds h0 e -> extends h0 h ->
  exists s h',
    bucketPoint labels bounds ts basePoint e j c out h
    = Some (out ++ [bucketDataPoint basePoint ts c s], h')
    /\ extends h h'
    /\ emittedBetween h0 e h h' [bucketDataPoint basePoint ts c s]
         [(seq (length (objects h)) (S (length labels)),
           S (length (arrays h)))].
Proof.
  intros Hb0 Hext0.
  destruct (labelsToDimensions_owned h0 labels e h Hb0 Hext0)
    as (s1 & h1 & Hrun1 & Hext1 & Hfull1 & Hin1 & _ & HA1 & Hel1 & HO1).
  destruct (new_post {| Key := upperBoundDimensionKey;
                        Value := bucketBound bounds j |} h1)
    as (h2 & Hrun2 & Hext2 & Harr2 & Hobj2 & _).
  destruct (append_full_owned s1 (Some (length (objects h1))) h2 Hfull1
              (inBounds_extends _ _ _ Hext2 Hin1))
    as (s3 & h3 & Hrun3 & Hext3 & Hobj3 & Hin3 & Hel3 & Harr3 & HA3).
  exists s3, h3. unfold bucketPoint, bind. rewrite Hrun1.
  fold (bucketBound bounds j). rewrite Hrun2, Hrun3.
  split; [reflexivity|]. split; [eauto using extends_trans|].
  split; [|split].
  - constructor; [|constructor]. cbn [fst snd].
    change (Dimensions (bucketDataPoint basePoint ts c s3)) with s3.
    split; [rewrite Harr3, Harr2, HA1; reflexivity|]. split; [|exact Hin3].
    rewrite Hel3, (elems_extends_eq _ _ _ Hext2 Hin1), Hel1, HO1.
    rewrite <- app_assoc. f_equal.
    rewrite seq_S, List.map_app. reflexivity.
  - cbn [List.map concat fst]. rewrite app_nil_r.
    rewrite Hobj3, Hobj2, length_app, HO1. cbn [length].
    replace (length (objects h) + length labels + 1)%nat
      with (length (objects h) + S (length labels))%nat by lia.
    apply distinctIn_seq.
  - cbn [List.map snd]. rewrite HA3, Harr2, HA1. split.
    + apply NoDup_singleton.
    + constructor; [lia|constructor].
Qed.

(** A loop that appends the datapoints of each element to its output. *)
Lemma rangeLoop_between {A}
  (body : A -> list DataPoint -> M (list DataPoint)) (h0 : heap) (e : slice)
  (hs : heap) :
  (forall x out h, extends hs h ->
     exists new i h', body x out h = Some (out ++ new, h')
                      /\ extends h h' /\ emittedBetween h0 e h h' new i) ->
  forall l out h, extends hs h ->
    exists news i h',
      rangeLoop body l out h = Some (out ++ news, h')
      /\ extends h h' /\ emittedBetween h0 e h h' news i.
Proof.
  intros Hbody. induction l as [|x l IH]; intros out h Hh.
  - exists [], [], h. cbn. rewrite app_nil_r.
    split; [reflexivity|]. split; [apply extends_refl|].
    apply emittedBetween_nil.
  - destruct (Hbody x out h Hh) as (new & i1 & h1 & Hrun & Hext & HE).
    destruct (IH (out ++ new) h1 (extends_trans _ _ _ Hh Hext))
      as (news & i2 & h' & Hloop & Hext' & HE').
    exists (new ++ news), (i1 ++ i2), h'. cbn [rangeLoop]. unfold bind.
    rewrite Hrun, Hloop, <- app_assoc.
    split; [reflexivity|]. split; [eapply extends_trans; eauto|].
    eapply emittedBetween_app; eauto.
Qed.

Lemma rangeLoopFrom_between {A}
  (body : nat -> A -> list DataPoint -> M (list DataPoint)) (h0 : heap)
  (e : slice) (hs : heap) :
  (forall j x out h, extends hs h ->
     exists new i h', body j x out h = Some (out ++ new, h')
                      /\ extends h h' /\ emittedBetween h0 e h h' new i) ->
  forall l j out h, extends hs h ->
    exists news i h',
      rangeLoopFrom body j l out h = Some (out ++ news, h')
      /\ extends h h' /\ emittedBetween h0 e h h' news i.
Proof.
  intros Hbody. induction l as [|x l IH]; intros j out h Hh.
  - exists [], [], h. cbn. rewrite app_nil_r.
    split; [reflexivity|]. split; [apply extends_refl|].
    apply emittedBetween_nil.
  - destruct (Hbody j x out h Hh) as (new & i1 & h1 & Hrun & Hext & HE).
    destruct (IH (S j) (out ++ new) h1 (extends_trans _ _ _ Hh Hext))
      as (news & i2 & h' & Hloop & Hext' & HE').
    exists (new ++ news), (i1 ++ i2), h'. cbn [rangeLoopFrom]. unfold bind.
    rewrite Hrun, Hloop, <- app_assoc.
    split; [reflexivity|]. split; [eapply extends_trans; eauto|].
    eapply emittedBetween_app; eauto.
Qed.

Lemma convertDatapoints_between {A} (labelsOf : A -> StringMap)
  (mk : A -> slice -> DataPoint) (e : slice) (in_ : list (option A)) h0 h :
  inBounds h0 e -> extends h0 h ->
  (forall x s, Dimensions (mk x s) = s) ->
  exists out i h',
    rangeLoop
      (fun inDp out =>
         match inDp with
         | None => ret out
         | Some inDp =>
           do dims <- labelsToDimensions (labelsOf inDp) e;
           ret (out ++ [mk inDp dims])
         end) in_ [] h = Some (out, h')
    /\ extends h h' /\ emittedBetween h0 e h h' out i.
Proof.
  intros Hb Hh Hmk.
  apply (rangeLoop_between
    (fun inDp out =>
       match inDp with
       | None => ret out
       | Some inDp =>
         do dims <- labelsToDimensions (labelsOf inDp) e;
         ret (out ++ [mk inDp dims])
       end) h0 e h); [|apply extends_refl].
  intros [x|] out h1 Hh1.
  - destruct (labelsToDimensions_between h0 (labelsOf x) e h1 (mk x) Hb
                (extends_trans _ _ _ Hh Hh1) (Hmk x))
      as (s & h2 & Hrun & Hext & HE).
    eexists [mk x s], _, h2. unfold bind. rewrite Hrun.
    split; [reflexivity|]. split; [exact Hext|exact HE].
  - exists [], [], h1. rewrite app_nil_r.
    split; [reflexivity|]. split; [apply extends_refl|].
    apply emittedBetween_nil.
Qed.

Lemma convertHistogram_between {A} (labelsOf : A -> StringMap)
  (tsOf : A -> Z) (countsOf : A -> list Z) (boundsOf : A -> list float)
  (mkCount mkSum : A -> slice -> DataPoint) (basePoint : DataPoint)
  (e : slice) (histDPs : list (option A)) h0 h :
  inBounds h0 e -> extends h0 h ->
  (forall x s, Dimensions (mkCount x s) = s) ->
  (forall x s, Dimensions (mkSum x s) = s) ->
  exists out i h',
    rangeLoop
      (fun histDP out =>
         match histDP with
         | None => ret out
         | Some histDP =>
           do dims <- labelsToDimensions (labelsOf histDP) e;
           do dims' <- labelsToDimensions (labelsOf histDP) e;
           if bucketMismatch (countsOf histDP) (boundsOf histDP)
           then ret (out ++ [mkCount histDP dims; mkSum histDP dims'])
           else
             rangeLoopFrom
               (bucketPoint (labelsOf histDP) (boundsOf histDP) (tsOf histDP)
                  basePoint e)
               0%nat (countsOf histDP)
               (out ++ [mkCount histDP dims; mkSum histDP dims'])
         end) histDPs [] h = Some (out, h')
    /\ extends h h' /\ emittedBetween h0 e h h' out i.
Proof.
  intros Hb Hh Hc Hs.
  apply (rangeLoop_between
    (fun histDP out =>
       match histDP with
       | None => ret out
       | Some histDP =>
         do dims <- labelsToDimensions (labelsOf histDP) e;
         do dims' <- labelsToDimensions (labelsOf histDP) e;
         if bucketMismatch (countsOf histDP) (boundsOf histDP)
         then ret (out ++ [mkCount histDP dims; mkSum histDP dims'])
         else
           rangeLoopFrom
             (bucketPoint (labelsOf histDP) (boundsOf histDP) (tsOf histDP)
                basePoint e)
             0%nat (countsOf histDP)
             (out ++ [mkCount histDP dims; mkSum histDP dims'])
       end) h0 e h); [|apply extends_refl].
  intros [x|] out h1 Hh1.
  - pose proof (extends_trans _ _ _ Hh Hh1) as H01.
    destruct (labelsToDimensions_between h0 (labelsOf x) e h1 (mkCount x) Hb
                H01 (Hc x)) as (sc & h2 & Hrun2 & Hext2 & HE2).
    pose proof (extends_trans _ _ _ H01 Hext2) as H02.
    destruct (labelsToDimensions_between h0 (labelsOf x) e h2 (mkSum x) Hb
                H02 (Hs x)) as (ss & h3 & Hrun3 & Hext3 & HE3).
    pose proof (extends_trans _ _ _ H02 Hext3) as H03.
    pose proof (emittedBetween_app _ _ _ _ _ _ _ _ _ Hext2 Hext3 HE2 HE3)
      as HE23. cbn [app] in HE23.
    unfold bind. rewrite Hrun2, Hrun3.
    destruct (bucketMismatch (countsOf x) (boundsOf x)).
    + eexists [mkCount x sc; mkSum x ss], _, h3.
      split; [reflexivity|]. split; [eauto using extends_trans|exact HE23].
    + destruct (rangeLoopFrom_between
                  (bucketPoint (labelsOf x) (boundsOf x) (tsOf x) basePoint e)
                  h0 e h3) with (l := countsOf x) (j := 0%nat)
                  (out := out ++ [mkCount x sc; mkSum x ss]) (h := h3)
        as (buckets & ib & h4 & Hrun4 & Hext4 & HE4).
      * intros j c out' h5 Hh5.
        destruct (bucketPoint_between h0 (labelsOf x) (boundsOf x) (tsOf x)
                    basePoint e j c out' h5 Hb
                    (extends_trans _ _ _ H03 Hh5))
          as (s & h6 & Hrun6 & Hext6 & HE6).
        eexists [bucketDataPoint basePoint (tsOf x) c s], _, h6.
        split; [exact Hrun6|]. split; [exact Hext6|exact HE6].
      * apply extends_refl.
      * eexists (mkCount x sc :: mkSum x ss :: buckets), _, h4.
        rewrite Hrun4, <- app_assoc.
        split; [reflexivity|]. split; [eauto using extends_trans|].
        exact (emittedBetween_app _ _ _ _ _ _ _ _ _
                 (extends_trans _ _ _ Hext2 Hext3) Hext4 HE23 HE4).
  - exists [], [], h1. rewrite app_nil_r.
    split; [reflexivity|]. split; [apply extends_refl|].
    apply emittedBetween_nil.
Qed.

Lemma shapePoints_between m e h0 h :
  inBounds h0 e -> extends h0 h ->
  exists out i h',
    shapePoints m e h = Some (out, h')
    /\ extends h h' /\ emittedBetween h0 e h h' out i.
Proof.
  intros Hb Hh. unfold shapePoints.
  destruct (Data m) as [|dps|dps|mono temp dps|mono temp dps|temp dps|temp dps].
  - exists [], [], h. split; [reflexivity|].
    split; [apply extends_refl|apply emittedBetween_nil].
  - exact (convertDatapoints_between idp_LabelsMap
             (fun x s => setIntValue (idp_Value x)
                           (setDimensions s
                              (setTimestamp
                                 (timestampToSignalFx (idp_Timestamp x))
                                 (makeBaseDataPoint m))))
             e dps h0 h Hb Hh (fun _ _ => eq_refl)).
  - exact (convertDatapoints_between ddp_LabelsMap
             (fun x s => setDoubleValue (ddp_Value x)
                           (setDimensions s
                              (setTimestamp
                                 (timestampToSignalFx (ddp_Timestamp x))
                                 (makeBaseDataPoint m))))
             e dps h0 h Hb Hh (fun _ _ => eq_refl)).
  - exact (convertDatapoints_between idp_LabelsMap
             (fun x s => setIntValue (idp_Value x)
                           (setDimensions s
                              (setTimestamp
                                 (timestampToSignalFx (idp_Timestamp x))
                                 (makeBaseDataPoint m))))
             e dps h0 h Hb Hh (fun _ _ => eq_refl)).
  - exact (convertDatapoints_between ddp_LabelsMap
             (fun x s => setDoubleValue (ddp_Value x)
                           (setDimensions s
                              (setTimestamp
                                 (timestampToSignalFx (ddp_Timestamp x))
                                 (makeBaseDataPoint m))))
             e dps h0 h Hb Hh (fun _ _ => eq_refl)).
  - exact (convertHistogram_between ihp_LabelsMap
             (fun x => timestampToSignalFx (ihp_Timestamp x))
             ihp_BucketCounts ihp_ExplicitBounds
             (fun x => countDataPoint (makeBaseDataPoint m)
                         (timestampToSignalFx (ihp_Timestamp x))
                         (ihp_Count x))
             (fun x => intSumDataPoint (makeBaseDataPoint m)
                         (timestampToSignalFx (ihp_Timestamp x)) (ihp_Sum x))
             (makeBaseDataPoint m) e dps h0 h Hb Hh
             (fun _ _ => eq_refl) (fun _ _ => eq_refl)).
  - exact (convertHistogram_between dhp_LabelsMap
             (fun x => timestampToSignalFx (dhp_Timestamp x))
             dhp_BucketCounts dhp_ExplicitBounds
             (fun x => countDataPoint (makeBaseDataPoint m)
                         (timestampToSignalFx (dhp_Timestamp x))
                         (dhp_Count x))
             (fun x => doubleSumDataPoint (makeBaseDataPoint m)
                         (timestampToSignalFx (dhp_Timestamp x)) (dhp_Sum x))
             (makeBaseDataPoint m) e dps h0 h Hb Hh
             (fun _ _ => eq_refl) (fun _ _ => eq_refl)).
Qed.

Lemma collectDataPoints_between rm h :
  exists e h0 out i h1,
    resourceAttributesToDimensions (ResourceAttributes rm) h = Some (e, h0)
    /\ owns h h0 e
    /\ dimsOf h0 e = Some (resourceDimensions (ResourceAttributes rm))
    /\ collectDataPoints (NewMetricsConverter None) rm h = Some (out, h1)
    /\ extends h0 h1
    /\ emittedBetween h0 e h0 h1 out i.
Proof.
  destruct (resourceAttributesToDimensions_post (ResourceAttributes rm) h)
    as (e & h0 & Hrun0 & Hown & Hds).
  pose proof (owns_inBounds _ _ _ Hown) as Hb.
  destruct (rangeLoop_between
    (fun m acc => do dps <- metricToSfxDataPoints (NewMetricsConverter None)
                              m e;
                  ret (acc ++ dps)) h0 e h0)
    with (l := batchMetrics rm) (out := @nil DataPoint) (h := h0)
    as (out & i & h1 & Hrun & Hext & HE).
  - intros m acc ha Hha.
    destruct (shapePoints_between m e h0 ha Hb Hha)
      as (new & i & hb & Hrun & Hext & HE).
    exists new, i, hb. unfold bind. rewrite metricToSfxDataPoints_plain, Hrun.
    split; [reflexivity|]. split; [exact Hext|exact HE].
  - apply extends_refl.
  - exists e, h0, out, i, h1. split; [exact Hrun0|]. split; [exact Hown|].
    split; [exact Hds|].
    split; [rewrite collectDataPoints_metrics; unfold bind at 1;
            rewrite Hrun0; exact Hrun|].
    split; [exact Hext|exact HE].
Qed.

(** The dimension slices of the datapoints of a batch whose metrics
    have their data, against the list that
    [resourceAttributesToDimensions] returns. *)
Lemma datapoints_own_their_dimensions_data rm h :
  exists out h' e h0 infos,
    MetricDataToSignalFxV2 (NewMetricsConverter None) rm h = Some (out, h')
    /\ resourceAttributesToDimensions (ResourceAttributes rm) h
       = Some (e, h0)
    /\ elems h' e = elems h0 e
    /\ Forall2
         (fun dp i =>
            arr (Dimensions dp) = Some (snd i)
            /\ elems h' (Dimensions dp)
               = elems h0 e ++ List.map Some (fst i))
         out infos
    /\ NoDup (List.map snd infos)
    /\ NoDup (concat (List.map fst infos))
    /\ forall a, In a (concat (List.map fst infos)) ->
         (length (objects h0) <= a)%nat /\ Some a ∉ elems h0 e.
Proof.
  destruct (collectDataPoints_between rm h)
    as (e & h0 & out & infos & h1 & Hrun0 & Hown & Hds & Hrun & Hext & HE).
  destruct (batch_groups rm h)
    as (e' & h0' & groups & h1' & _ & _ & _ & Hrun' & _ & _ & Hv).
  rewrite Hrun in Hrun'. injection Hrun' as -> <-.
  destruct HE as (HF & [HN HR] & [HA _]).
  eexists _, _, e, h0, infos.
  split; [apply (batch_sanitized _ _ _ _ Hrun Hv)|].
  split; [exact Hrun0|].
  split; [apply (elems_extends_eq _ _ _ Hext (owns_inBounds _ _ _ Hown))|].
  split; [|split; [exact HA|split; [exact HN|]]].
  - eapply Forall2_impl; [exact HF|]. intros dp i (Ha & Hel & _).
    split; [exact Ha|exact Hel].
  - intros a Ha. rewrite Forall_forall in HR.
    apply list_elem_of_In in Ha. specialize (HR a Ha). cbn beta in HR.
    split; [lia|]. intros Hin.
    apply dimsOf_elems in Hds.
    apply list_elem_of_lookup_1 in Hin. destruct Hin as [k Hk].
    destruct (Forall2_lookup_l _ _ _ _ _ Hds Hk) as (d & _ & Hd).
    cbn [deref] in Hd. apply lookup_lt_Some in Hd. lia.
Qed.

(** X23. Of the dimensions of the datapoints that a converter made
    without translation rules returns for a batch in which every metric
    whose data type is set has its data, only the resource dimensions
    are shared. The dimension slice of every datapoint is on a backing
    array that no other datapoint uses, and it holds the pointers of
    the list that [resourceAttributesToDimensions] returned for the
    attributes of the batch, which that list still holds at the end,
    followed by pointers of its own: each of these is to a dimension
    allocated after that list was built, none occurs twice, in another
    datapoint, or in that list. Given a batch that holds a metric whose
    data type is set and whose data is nil, the converter faults. *)
Theorem datapoints_own_their_dimensions (rm : ResourceMetricsOrig) h :
  (hasNilData rm = true ->
   MetricDataToSignalFxV2_orig (NewMetricsConverter None) rm h = None)
  /\ (hasNilData rm = false ->
      exists batch out h',
        rm = withData batch
        /\ MetricDataToSignalFxV2_orig (NewMetricsConverter None) rm h
           = Some (out, h')
        /\ exists e h0 infos,
             resourceAttributesToDimensions (ResourceAttributes batch) h
             = Some (e, h0)
             /\ elems h' e = elems h0 e
             /\ Forall2
                  (fun dp i =>
                     arr (Dimensions dp) = Some (snd i)
                     /\ elems h' (Dimensions dp)
                        = elems h0 e ++ List.map Some (fst i))
                  out infos
             /\ NoDup (List.map snd infos)
             /\ NoDup (concat (List.map fst infos))
             /\ forall a, In a (concat (List.map fst infos)) ->
                  (length (objects h0) <= a)%nat /\ Some a ∉ elems h0 e).
Proof.
  apply (received_batch_cases
           (fun batch out h' =>
              exists e h0 infos,
                resourceAttributesToDimensions (ResourceAttributes batch) h
                = Some (e, h0)
                /\ elems h' e = elems h0 e
                /\ Forall2
                     (fun dp i =>
                        arr (Dimensions dp) = Some (snd i)
                        /\ elems h' (Dimensions dp)
                           = elems h0 e ++ List.map Some (fst i))
                     out infos
                /\ NoDup (List.map snd infos)
                /\ NoDup (concat (List.map fst infos))
                /\ forall a, In a (concat (List.map fst infos)) ->
                     (length (objects h0) <= a)%nat
                     /\ Some a ∉ elems h0 e)).
  intros batch.
  destruct (datapoints_own_their_dimensions_data batch h)
    as (out & h' & e & h0 & infos & Hrun & Hrest).
  exists out, h'. split; [exact Hrun|]. exists e, h0, infos. exact Hrest.
Qed.


End Converter.

(** ** The statements on sample values *)

Module Witness.
Import Sample.

Lemma store1_inBounds : inBounds store1 extraDims1.
Proof. unfold inBounds. vm_compute. lia. Defined.

(** C1 on a monotonic delta sum with one data point. *)
Lemma sum_datapoints_type_witness :
  inBounds store1 extraDims1
  /\ exists out h',
       convertIntDatapoints growslice [Some intPoint]
         (makeBaseDataPoint
            {| Name := "requests_total";
               Data := MetricDataTypeIntSum true AggregationTemporalityDelta
                         [Some intPoint] |})
         extraDims1 store1 = Some (out, h')
       /\ Forall (fun dp => MetricTypeOf dp = Some COUNTER) out.
Proof.
  split; [exact store1_inBounds|].
  destruct (sum_datapoints_type FormatFloat growslice
              {| metricTranslator := None |} "requests_total" true
              AggregationTemporalityDelta extraDims1 store1 store1_inBounds)
    as [H _].
  destruct (H [Some intPoint]) as (out & h' & Hrun & _ & _ & _ & Hc & _).
  exists out, h'. split; [exact Hrun|exact (Hc eq_refl eq_refl)].
Defined.

(** C2 on a histogram data point with two buckets and one bound, a count
    of 3 and a sum of 7: the four datapoints, with their names, values
    and dimensions. *)
Lemma histogram_data_point_flat_points_witness :
  dimsOf store1 extraDims1
  = Some [{| Key := "service.name"; Value := "checkout" |}]
  /\ exists groups h',
       convertIntHistogram FormatFloat growslice
         [Some histPoint; None; Some badHistPoint]
         (makeBaseDataPoint histMetric) extraDims1 store1
       = Some (concat groups, h')
       /\ exists countDP sumDP bucket1 bucket2 rest,
            groups = [countDP; sumDP; bucket1; bucket2] :: rest
            /\ view h' countDP
               = Some {| fpMetric := "latency_count"; fpTimestamp := 5;
                         fpValue := {| StrValue := None; DoubleValue := None;
                                       IntValue := Some 3 |};
                         fpType := Some COUNTER;
                         fpDimensions :=
                           [{| Key := "service.name"; Value := "checkout" |};
                            {| Key := "path"; Value := "/a" |}] |}
            /\ view h' sumDP
               = Some {| fpMetric := "latency"; fpTimestamp := 5;
                         fpValue := {| StrValue := None; DoubleValue := None;
                                       IntValue := Some 7 |};
                         fpType := Some COUNTER;
                         fpDimensions :=
                           [{| Key := "service.name"; Value := "checkout" |};
                            {| Key := "path"; Value := "/a" |}] |}
            /\ view h' bucket1
               = Some {| fpMetric := "latency_bucket"; fpTimestamp := 5;
                         fpValue := {| StrValue := None; DoubleValue := None;
                                       IntValue := Some 1 |};
                         fpType := Some COUNTER;
                         fpDimensions :=
                           [{| Key := "service.name"; Value := "checkout" |};
                            {| Key := "path"; Value := "/a" |};
                            {| Key := "upper_bound"; Value := "0.5" |}] |}
            /\ view h' bucket2
               = Some {| fpMetric := "latency_bucket"; fpTimestamp := 5;
                         fpValue := {| StrValue := None; DoubleValue := None;
                                       IntValue := Some 2 |};
                         fpType := Some COUNTER;
                         fpDimensions :=
                           [{| Key := "service.name"; Value := "checkout" |};
                            {| Key := "path"; Value := "/a" |};
                            {| Key := "upper_bound"; Value := "+Inf" |}] |}.
Proof.
  split; [reflexivity|].
  destruct (histogram_data_point_flat_points FormatFloat growslice histMetric
              extraDims1 store1 _ eq_refl) as [H _].
  destruct (H [Some histPoint; None; Some badHistPoint])
    as (groups & h' & Hrun & HF).
  exists groups, h'. split; [exact Hrun|].
  cbn [nonNil] in HF. inversion HF as [|x g xs gs Hx _]; subst.
  destruct (Hx eq_refl)
    as (c & s & b & v & -> & _ & Hsmall & _ & Hvc & Hvs & Hbk & _).
  cbn [histPoint ihp_BucketCounts ihp_ExplicitBounds app combine] in Hbk.
  inversion Hbk as [|? b1 ? bs1 (v1 & Hv1 & _ & Hb1) Hbk1]; subst.
  inversion Hbk1 as [|? b2 ? bs2 (v2 & Hv2 & _ & Hb2) Hbk2]; subst.
  inversion Hbk2; subst.
  assert (v = 3) as -> by (apply Hsmall; cbn; lia).
  assert (v1 = 1) as -> by (apply Hv1; cbn; lia).
  assert (v2 = 2) as -> by (apply Hv2; cbn; lia).
  exists c, s, b1, b2, gs. split; [reflexivity|].
  split; [exact Hvc|]. split; [exact Hvs|]. split; [exact Hb1|exact Hb2].
Defined.

(** C3 on the batch with the label [a.b] and a rule that renames the
    key [a.b] to [c]. *)
Lemma translate_each_metric_then_sanitize_witness :
  let c := {| metricTranslator := Some renameDotted |} in
  let pts :=
    [{| Metric := "m"; Timestamp := 1;
        DatumValue := {| StrValue := None; DoubleValue := None;
                         IntValue := Some 1 |};
        MetricTypeOf := Some GAUGE;
        Dimensions := {| arr := Some 0%nat; len := 1; cap := 1 |} |}] in
  let h1 := {| objects := [{| Key := "c"; Value := "x" |}];
               arrays := [[Some 0%nat]] |} in
  let fps :=
    [{| fpMetric := "m"; fpTimestamp := 1;
        fpValue := {| StrValue := None; DoubleValue := None;
                      IntValue := Some 1 |};
        fpType := Some GAUGE;
        fpDimensions := [{| Key := "c"; Value := "x" |}] |}] in
  (do e <- resourceAttributesToDimensions growslice AttributeValueToString
             AttributeCloudAccount AttributeCloudRegion AttributeHostID
             AttributeCloudProvider AttributeCloudProviderAWS
             AttributeCloudProviderGCP SFxAccessTokenLabel
             (ResourceAttributes dottedBatch);
   rangeLoop (fun m acc =>
                do dps <- metricToSfxDataPoints FormatFloat growslice c m e;
                ret (acc ++ dps))
     (batchMetrics dottedBatch) []) emptyHeap = Some (pts, h1)
  /\ mapM (view h1) pts = Some fps
  /\ exists h2,
       MetricDataToSignalFxV2 isExcludingLatin FormatFloat growslice
         AttributeValueToString AttributeCloudAccount AttributeCloudRegion
         AttributeHostID AttributeCloudProvider AttributeCloudProviderAWS
         AttributeCloudProviderGCP SFxAccessTokenLabel c dottedBatch emptyHeap
       = Some (pts, h2)
       /\ mapM (view h2) pts = Some fps.
Proof.
  intros c pts h1 fps.
  assert (H1 : (do e <- resourceAttributesToDimensions growslice
                         AttributeValueToString AttributeCloudAccount
                         AttributeCloudRegion AttributeHostID
                         AttributeCloudProvider AttributeCloudProviderAWS
                         AttributeCloudProviderGCP SFxAccessTokenLabel
                         (ResourceAttributes dottedBatch);
                rangeLoop (fun m acc =>
                             do dps <- metricToSfxDataPoints FormatFloat
                                         growslice c m e;
                             ret (acc ++ dps))
                  (batchMetrics dottedBatch) []) emptyHeap = Some (pts, h1))
    by reflexivity.
  assert (H2 : mapM (view h1) pts = Some fps) by reflexivity.
  split; [exact H1|]. split; [exact H2|].
  destruct (translate_each_metric_then_sanitize isExcludingLatin FormatFloat
              growslice AttributeValueToString AttributeCloudAccount
              AttributeCloudRegion AttributeHostID AttributeCloudProvider
              AttributeCloudProviderAWS AttributeCloudProviderGCP
              SFxAccessTokenLabel c dottedBatch emptyHeap pts h1 fps H1 H2)
    as [_ (h2 & Hrun & Hv)].
  exists h2. split; [exact Hrun|]. rewrite Hv. reflexivity.
Defined.


(** C5 on the resource of the design document. *)
Lemma aws_unique_id_dimension_witness :
  getStringAttr awsAttributes AttributeCloudProvider
  = AttributeCloudProviderAWS
  /\ getStringAttr awsAttributes AttributeCloudAccount <> ""%string
  /\ getStringAttr awsAttributes AttributeCloudRegion <> ""%string
  /\ getStringAttr awsAttributes AttributeHostID <> ""%string
  /\ exists dims h',
       resourceAttributesToDimensions growslice AttributeValueToString
         AttributeCloudAccount AttributeCloudRegion AttributeHostID
         AttributeCloudProvider AttributeCloudProviderAWS
         AttributeCloudProviderGCP SFxAccessTokenLabel awsAttributes emptyHeap
       = Some (dims, h')
       /\ dimsOf h' dims
          = Some [{| Key := "AWSUniqueId"; Value := "i-1_us-east-1_111" |};
                  {| Key := "service.name"; Value := "checkout" |}].
Proof.
  assert (Hp : getStringAttr awsAttributes AttributeCloudProvider
               = AttributeCloudProviderAWS) by reflexivity.
  assert (Ha : getStringAttr awsAttributes AttributeCloudAccount <> ""%string)
    by (vm_compute; discriminate).
  assert (Hr : getStringAttr awsAttributes AttributeCloudRegion <> ""%string)
    by (vm_compute; discriminate).
  assert (Hi : getStringAttr awsAttributes AttributeHostID <> ""%string)
    by (vm_compute; discriminate).
  repeat (split; [assumption|]).
  destruct (aws_unique_id_dimension growslice AttributeValueToString
              AttributeCloudAccount AttributeCloudRegion AttributeHostID
              AttributeCloudProvider AttributeCloudProviderAWS
              AttributeCloudProviderGCP SFxAccessTokenLabel awsAttributes
              emptyHeap Hp Ha Hr Hi) as (dims & h' & Hrun & Hds & _).
  exists dims, h'. split; [exact Hrun|]. rewrite Hds. reflexivity.
Defined.

(** C6 on the resource of the design document, with a region. *)
Lemma gcp_id_dimension_witness :
  AttributeCloudProviderGCP <> AttributeCloudProviderAWS
  /\ AttributeCloudRegion <> AttributeCloudAccount
  /\ AttributeCloudRegion <> AttributeHostID
  /\ AttributeCloudRegion <> AttributeCloudProvider
  /\ AttributeCloudRegion <> SFxAccessTokenLabel
  /\ getStringAttr gcpAttributes AttributeCloudProvider
     = AttributeCloudProviderGCP
  /\ getStringAttr gcpAttributes AttributeCloudAccount <> ""%string
  /\ getStringAttr gcpAttributes AttributeHostID <> ""%string
  /\ exists dims h',
       resourceAttributesToDimensions growslice AttributeValueToString
         AttributeCloudAccount AttributeCloudRegion AttributeHostID
         AttributeCloudProvider AttributeCloudProviderAWS
         AttributeCloudProviderGCP SFxAccessTokenLabel gcpAttributes emptyHeap
       = Some (dims, h')
       /\ dimsOf h' dims
          = Some [{| Key := "gcp_id"; Value := "acc1_h1" |};
                  {| Key := "cloud.region"; Value := "europe-west1" |}].
Proof.
  assert (H1 : AttributeCloudProviderGCP <> AttributeCloudProviderAWS)
    by (vm_compute; discriminate).
  assert (H2 : AttributeCloudRegion <> AttributeCloudAccount)
    by (vm_compute; discriminate).
  assert (H3 : AttributeCloudRegion <> AttributeHostID)
    by (vm_compute; discriminate).
  assert (H4 : AttributeCloudRegion <> AttributeCloudProvider)
    by (vm_compute; discriminate).
  assert (H5 : AttributeCloudRegion <> SFxAccessTokenLabel)
    by (vm_compute; discriminate).
  assert (Hp : getStringAttr gcpAttributes AttributeCloudProvider
               = AttributeCloudProviderGCP) by reflexivity.
  assert (Ha : getStringAttr gcpAttributes AttributeCloudAccount <> ""%string)
    by (vm_compute; discriminate).
  assert (Hi : getStringAttr gcpAttributes AttributeHostID <> ""%string)
    by (vm_compute; discriminate).
  repeat (split; [assumption|]).
  destruct (gcp_id_dimension growslice AttributeValueToString
              AttributeCloudAccount AttributeCloudRegion AttributeHostID
              AttributeCloudProvider AttributeCloudProviderAWS
              AttributeCloudProviderGCP SFxAccessTokenLabel gcpAttributes
              emptyHeap H1 H2 H3 H4 H5 Hp Ha Hi)
    as (dims & h' & Hrun & Hds & _).
  exists dims, h'. split; [exact Hrun|]. rewrite Hds. reflexivity.
Defined.

(** C7 on the sum of the design document. *)
Lemma labels_follow_resource_dimensions_witness :
  dimsOf store1 extraDims1
  = Some [{| Key := "service.name"; Value := "checkout" |}]
  /\ exists dp h',
       convertIntDatapoints growslice [Some intPoint] basePoint1 extraDims1
         store1 = Some ([dp], h')
       /\ view h' dp
          = Some {| fpMetric := "requests_total"; fpTimestamp := 1000;
                    fpValue := {| StrValue := None; DoubleValue := None;
                                  IntValue := Some 42 |};
                    fpType := Some CUMULATIVE_COUNTER;
                    fpDimensions :=
                      [{| Key := "service.name"; Value := "checkout" |};
                       {| Key := "path"; Value := "/a" |}] |}.
Proof.
  split; [reflexivity|].
  destruct (labels_follow_resource_dimensions growslice basePoint1 extraDims1
              store1 _ eq_refl) as [H _].
  destruct (H [Some intPoint]) as (out & h' & Hrun & HF).
  cbn [nonNil] in HF.
  inversion HF as [|x dp xs out' Hv Hnil]; subst. inversion Hnil; subst.
  exists dp, h'. split; [exact Hrun|]. rewrite Hv. reflexivity.
Defined.

(** C8 on a key with a dot and a space. *)
Lemma filterKeyChars_sanitizes_witness :
  isASCII "a.b c" = true
  /\ "a.b c"%string <> ""%string
  /\ matchesKeyPattern (filterKeyChars isExcludingLatin "a.b c") = true.
Proof.
  assert (Ha : isASCII "a.b c" = true) by reflexivity.
  assert (Hn : "a.b c"%string <> ""%string) by discriminate.
  split; [exact Ha|]. split; [exact Hn|].
  destruct (filterKeyChars_sanitizes isExcludingLatin "a.b c")
    as (_ & _ & _ & _ & H & _).
  exact (H Ha Hn).
Defined.

(** C9 on a resource with an access token and a data point one of whose
    labels has the access-token key. *)
Lemma access_token_never_a_dimension_witness :
  SFxAccessTokenLabel <> "AWSUniqueId"%string
  /\ SFxAccessTokenLabel <> "gcp_id"%string
  /\ filterKeyChars isExcludingLatin SFxAccessTokenLabel
     <> SFxAccessTokenLabel
  /\ (exists dims h' ds,
        resourceAttributesToDimensions growslice AttributeValueToString
          AttributeCloudAccount AttributeCloudRegion AttributeHostID
          AttributeCloudProvider AttributeCloudProviderAWS
          AttributeCloudProviderGCP SFxAccessTokenLabel
          (ResourceAttributes tokenBatch) emptyHeap
        = Some (dims, h')
        /\ dimsOf h' dims = Some ds
        /\ Forall (fun d => Key d <> SFxAccessTokenLabel) ds)
  /\ exists pts h2 fps,
       MetricDataToSignalFxV2 isExcludingLatin FormatFloat growslice
         AttributeValueToString AttributeCloudAccount AttributeCloudRegion
         AttributeHostID AttributeCloudProvider AttributeCloudProviderAWS
         AttributeCloudProviderGCP SFxAccessTokenLabel
         {| metricTranslator := None |} tokenBatch emptyHeap
       = Some (pts, h2)
       /\ mapM (view h2) pts = Some fps
       /\ Forall
            (fun fp =>
               Forall (fun d => Key d <> SFxAccessTokenLabel)
                 (fpDimensions fp))
            fps.
Proof.
  assert (H1 : SFxAccessTokenLabel <> "AWSUniqueId"%string)
    by (vm_compute; discriminate).
  assert (H2 : SFxAccessTokenLabel <> "gcp_id"%string)
    by (vm_compute; discriminate).
  assert (H3 : filterKeyChars isExcludingLatin SFxAccessTokenLabel
               <> SFxAccessTokenLabel)
    by (vm_compute; discriminate).
  split; [exact H1|]. split; [exact H2|]. split; [exact H3|].
  destruct (access_token_never_a_dimension isExcludingLatin FormatFloat
              growslice AttributeValueToString AttributeCloudAccount
              AttributeCloudRegion AttributeHostID AttributeCloudProvider
              AttributeCloudProviderAWS AttributeCloudProviderGCP
              SFxAccessTokenLabel tokenBatch emptyHeap H1 H2)
    as [(dims & h' & ds & Hrun & Hds & Hno & _) Hbatch].
  split; [exists dims, h', ds; auto|].
  edestruct (Hbatch H3 {| metricTranslator := None |})
    as (h2 & fps & Hrun2 & Hv & Hall);
    [reflexivity|reflexivity|].
  eexists _, h2, fps. split; [exact Hrun2|]. split; [exact Hv|exact Hall].
Defined.

(** C10 on a histogram converted against a resource dimension list. *)
Lemma conversion_leaves_extraDims_witness :
  inBounds store1 extraDims1
  /\ exists out h',
       convertIntHistogram FormatFloat growslice
         [Some histPoint; None; Some badHistPoint]
         (makeBaseDataPoint histMetric) extraDims1 store1 = Some (out, h')
       /\ sliceUnchanged store1 h' extraDims1.
Proof.
  split; [exact store1_inBounds|].
  destruct (conversion_leaves_extraDims FormatFloat growslice
              (makeBaseDataPoint histMetric) extraDims1 store1
              store1_inBounds) as (_ & _ & H & _).
  destruct (H [Some histPoint; None; Some badHistPoint])
    as (out & h' & Hrun & Hun & _).
  exists out, h'. auto.
Defined.

(** X1 on a timestamp of 1.5 milliseconds. *)
Lemma timestamp_whole_milliseconds_witness :
  0 <= 1500000 < 2 ^ 63 /\ timestampToSignalFx 1500000 = 1.
Proof.
  assert (H : 0 <= 1500000 < 2 ^ 63) by lia.
  split; [exact H|].
  destruct (timestamp_whole_milliseconds 1500000 H) as [Hq _].
  rewrite Hq. reflexivity.
Defined.

(** X2 on the largest timestamp. *)
Lemma timestamp_beyond_int64_witness :
  2 ^ 63 <= 2 ^ 64 - 1 < 2 ^ 64 /\ timestampToSignalFx (2 ^ 64 - 1) = 0.
Proof.
  assert (H : 2 ^ 63 <= 2 ^ 64 - 1 < 2 ^ 64) by lia.
  split; [exact H|].
  destruct (timestamp_beyond_int64 (2 ^ 64 - 1) H) as [Hq _].
  rewrite Hq. reflexivity.
Defined.

(** X3 on a resource with an unknown provider, on one of AWS without a
    region and on one of GCP without an account. *)
Lemma no_cloud_identifier_keeps_attributes_witness :
  (exists dims h',
     resourceAttributesToDimensions growslice AttributeValueToString
       AttributeCloudAccount AttributeCloudRegion AttributeHostID
       AttributeCloudProvider AttributeCloudProviderAWS
       AttributeCloudProviderGCP SFxAccessTokenLabel
       [("cloud.provider"%string, AttributeValueSTRING "azure");
        ("host.id"%string, AttributeValueSTRING "vm-1")] emptyHeap
     = Some (dims, h')
     /\ dimsOf h' dims
        = Some [{| Key := "cloud.provider"; Value := "azure" |};
                {| Key := "host.id"; Value := "vm-1" |}])
  /\ (exists dims h',
        resourceAttributesToDimensions growslice AttributeValueToString
          AttributeCloudAccount AttributeCloudRegion AttributeHostID
          AttributeCloudProvider AttributeCloudProviderAWS
          AttributeCloudProviderGCP SFxAccessTokenLabel
          [("cloud.provider"%string, AttributeValueSTRING "aws");
           ("host.id"%string, AttributeValueSTRING "i-1");
           ("cloud.account.id"%string, AttributeValueSTRING "111")]
          emptyHeap
        = Some (dims, h')
        /\ dimsOf h' dims
           = Some [{| Key := "cloud.provider"; Value := "aws" |};
                   {| Key := "host.id"; Value := "i-1" |};
                   {| Key := "cloud.account.id"; Value := "111" |}])
  /\ (exists dims h',
        resourceAttributesToDimensions growslice AttributeValueToString
          AttributeCloudAccount AttributeCloudRegion AttributeHostID
          AttributeCloudProvider AttributeCloudProviderAWS
          AttributeCloudProviderGCP SFxAccessTokenLabel
          [("cloud.provider"%string, AttributeValueSTRING "gcp");
           ("host.id"%string, AttributeValueSTRING "h1");
           ("cloud.account.id"%string, AttributeValueINT 7)]
          emptyHeap
        = Some (dims, h')
        /\ dimsOf h' dims
           = Some [{| Key := "cloud.provider"; Value := "gcp" |};
                   {| Key := "host.id"; Value := "h1" |};
                   {| Key := "cloud.account.id";
                      Value := AttributeValueToString (AttributeValueINT 7)
                                 false |}]).
Proof.
  split; [|split].
  - destruct (no_cloud_identifier_keeps_attributes growslice
                AttributeValueToString AttributeCloudAccount
                AttributeCloudRegion AttributeHostID AttributeCloudProvider
                AttributeCloudProviderAWS AttributeCloudProviderGCP
                SFxAccessTokenLabel
                [("cloud.provider"%string, AttributeValueSTRING "azure");
                 ("host.id"%string, AttributeValueSTRING "vm-1")] emptyHeap)
      as (dims & h' & Hrun & Hds & _).
    + left. split; vm_compute; discriminate.
    + exists dims, h'. split; [exact Hrun|]. rewrite Hds. reflexivity.
  - destruct (no_cloud_identifier_keeps_attributes growslice
                AttributeValueToString AttributeCloudAccount
                AttributeCloudRegion AttributeHostID AttributeCloudProvider
                AttributeCloudProviderAWS AttributeCloudProviderGCP
                SFxAccessTokenLabel
                [("cloud.provider"%string, AttributeValueSTRING "aws");
                 ("host.id"%string, AttributeValueSTRING "i-1");
                 ("cloud.account.id"%string, AttributeValueSTRING "111")]
                emptyHeap)
      as (dims & h' & Hrun & Hds & _).
    + right. left. split; [reflexivity|]. right. left. reflexivity.
    + exists dims, h'. split; [exact Hrun|]. rewrite Hds. reflexivity.
  - destruct (no_cloud_identifier_keeps_attributes growslice
                AttributeValueToString AttributeCloudAccount
                AttributeCloudRegion AttributeHostID AttributeCloudProvider
                AttributeCloudProviderAWS AttributeCloudProviderGCP
                SFxAccessTokenLabel
                [("cloud.provider"%string, AttributeValueSTRING "gcp");
                 ("host.id"%string, AttributeValueSTRING "h1");
                 ("cloud.account.id"%string, AttributeValueINT 7)]
                emptyHeap)
      as (dims & h' & Hrun & Hds & _).
    + right. right. split; [reflexivity|].
      split; [vm_compute; discriminate|]. left. reflexivity.
    + exists dims, h'. split; [exact Hrun|]. rewrite Hds. reflexivity.
Defined.

(** X4 on a resource with the access token and nothing else. *)
Lemma token_alone_gives_nil_slice_witness :
  resourceAttributesToDimensions growslice AttributeValueToString
    AttributeCloudAccount AttributeCloudRegion AttributeHostID
    AttributeCloudProvider AttributeCloudProviderAWS
    AttributeCloudProviderGCP SFxAccessTokenLabel
    [(SFxAccessTokenLabel, AttributeValueSTRING "secret")] store1
  = Some (nilSlice, store1).
Proof.
  apply (token_alone_gives_nil_slice growslice AttributeValueToString
           AttributeCloudAccount AttributeCloudRegion AttributeHostID
           AttributeCloudProvider AttributeCloudProviderAWS
           AttributeCloudProviderGCP SFxAccessTokenLabel
           [(SFxAccessTokenLabel, AttributeValueSTRING "secret")] store1).
  - repeat constructor.
  - vm_compute; discriminate.
  - vm_compute; discriminate.
  - vm_compute; discriminate.
Defined.

(** X6 on two datapoints that share a dimension. *)
Lemma sanitizer_changes_keys_only_witness :
  sanitizeDataPointDimensions isExcludingLatin sharedPoints store1
  = Some (tt, store1Sanitized)
  /\ arrays store1Sanitized = arrays store1
  /\ length (objects store1Sanitized) = length (objects store1).
Proof.
  assert (H : sanitizeDataPointDimensions isExcludingLatin sharedPoints store1
              = Some (tt, store1Sanitized)) by reflexivity.
  split; [exact H|].
  destruct (sanitizer_changes_keys_only isExcludingLatin sharedPoints store1
              store1Sanitized H) as (Ha & Hl & _).
  split; [exact Ha|exact Hl].
Defined.

(** X7 on the same datapoints. *)
Lemma sanitizer_pass_idempotent_witness :
  sanitizeDataPointDimensions isExcludingLatin sharedPoints store1
  = Some (tt, store1Sanitized)
  /\ sanitizeDataPointDimensions isExcludingLatin sharedPoints
       store1Sanitized
     = Some (tt, store1Sanitized).
Proof.
  assert (H : sanitizeDataPointDimensions isExcludingLatin sharedPoints store1
              = Some (tt, store1Sanitized)) by reflexivity.
  split; [exact H|].
  exact (sanitizer_pass_idempotent isExcludingLatin sharedPoints store1
           store1Sanitized H).
Defined.

(** X8 on a key with a dot and a blank. *)
Lemma filterKeyChars_ascii_bytewise_witness :
  isASCII "http.status code" = true
  /\ filterKeyChars isExcludingLatin "http.status code" = "http_status_code"%string.
Proof.
  assert (H : isASCII "http.status code" = true) by reflexivity.
  split; [exact H|].
  destruct (filterKeyChars_ascii_bytewise isExcludingLatin
              "http.status code" H) as (Hb & _ & _).
  rewrite Hb. reflexivity.
Defined.

(** X9 on a key that is valid. *)
Lemma filterKeyChars_fixes_valid_keys_witness :
  isASCII "k8s-pod_name" = true
  /\ filterKeyChars isExcludingLatin "k8s-pod_name" = "k8s-pod_name"%string.
Proof.
  assert (H : isASCII "k8s-pod_name" = true) by reflexivity.
  split; [exact H|].
  apply (filterKeyChars_fixes_valid_keys isExcludingLatin "k8s-pod_name" H).
  reflexivity.
Defined.

(** X10 on two keys that start with the euro sign and the letter A,
    and go on with [.b] and with [_b]. *)
Lemma filterKeyChars_merges_keys_witness :
  byte_val "." < 128 /\ keyChar "." = false
  /\ filterKeyChars isExcludingLatin (euroKey ++ ".b")
     = filterKeyChars isExcludingLatin (euroKey ++ "_b").
Proof.
  assert (H2 : byte_val "." < 128) by reflexivity.
  assert (H3 : keyChar "." = false) by reflexivity.
  split; [exact H2|]. split; [exact H3|].
  exact (filterKeyChars_merges_keys isExcludingLatin euroKey "." "b" H2 H3).
Defined.

(** X13 on a key of four bytes that is sanitized to two. *)
Lemma filterKeyChars_never_longer_witness :
  unicode.IsLetter isExcludingLatin RuneError = false
  /\ unicode.IsDigit isExcludingLatin RuneError = false
  /\ (String.length (filterKeyChars isExcludingLatin euroKey)
      <= String.length euroKey)%nat.
Proof.
  assert (H1 : unicode.IsLetter isExcludingLatin RuneError = false)
    by reflexivity.
  assert (H2 : unicode.IsDigit isExcludingLatin RuneError = false)
    by reflexivity.
  split; [exact H1|]. split; [exact H2|].
  exact (filterKeyChars_never_longer isExcludingLatin euroKey H1 H2).
Defined.

(** X14 on a gauge with one data point and a nil entry. *)
Lemma gauge_and_histogram_datapoints_type_witness :
  inBounds store1 extraDims1
  /\ exists out h',
       metricToSfxDataPoints FormatFloat growslice (NewMetricsConverter None)
         gaugeMetric extraDims1 store1 = Some (out, h')
       /\ Forall (fun dp => MetricTypeOf dp = Some GAUGE) out.
Proof.
  split; [exact store1_inBounds|].
  destruct (gauge_and_histogram_datapoints_type FormatFloat growslice
              gaugeMetric extraDims1 store1 store1_inBounds)
    as (out & h' & Hrun & Hg & _).
  exists out, h'. split; [exact Hrun|]. apply Hg. left. eexists. reflexivity.
Defined.

(** X15 on a monotonic sum of unspecified temporality. *)
Lemma unspecified_temporality_is_cumulative_witness :
  inBounds store1 extraDims1
  /\ exists out h',
       metricToSfxDataPoints FormatFloat growslice (NewMetricsConverter None)
         unspecifiedSum extraDims1 store1 = Some (out, h')
       /\ Forall (fun dp => MetricTypeOf dp = Some CUMULATIVE_COUNTER) out.
Proof.
  split; [exact store1_inBounds|].
  apply (unspecified_temporality_is_cumulative FormatFloat growslice
           unspecifiedSum extraDims1 store1 store1_inBounds).
  left. eexists. reflexivity.
Defined.

(** X16 on a histogram data point with a bound and no bucket count. *)
Lemma histogram_without_bucket_counts_witness :
  dimsOf store1 extraDims1
  = Some [{| Key := "service.name"; Value := "checkout" |}]
  /\ exists out h',
       convertIntHistogram FormatFloat growslice [Some noBucketPoint]
         (makeBaseDataPoint histMetric) extraDims1 store1
       = Some (out, h')
       /\ length out = 2%nat.
Proof.
  assert (H : dimsOf store1 extraDims1
              = Some [{| Key := "service.name"; Value := "checkout" |}])
    by reflexivity.
  split; [exact H|].
  destruct (histogram_without_bucket_counts FormatFloat growslice histMetric
              extraDims1 store1 _ H) as [Hi _].
  destruct (Hi [Some noBucketPoint]) as (groups & h' & Hrun & HF).
  cbn [nonNil] in HF.
  inversion HF as [|x g xs gs Hx Hrest]; subst. inversion Hrest; subst.
  destruct (Hx eq_refl) as (countDP & sumDP & -> & _).
  exists (concat [[countDP; sumDP]]), h'. split; [exact Hrun|reflexivity].
Defined.

(** X17 on a label map with one label. *)
Lemma labelsToDimensions_shares_extraDims_witness :
  inBounds store1 extraDims1
  /\ exists s h',
       labelsToDimensions growslice [("path"%string, "/a"%string)]
         extraDims1 store1 = Some (s, h')
       /\ elems h' s = [Some 0%nat; Some 1%nat]
       /\ objects h'
          = objects store1 ++ [{| Key := "path"; Value := "/a" |}].
Proof.
  split; [exact store1_inBounds|].
  destruct (labelsToDimensions_shares_extraDims growslice
              [("path"%string, "/a"%string)] extraDims1 store1
              store1_inBounds)
    as (s & h' & Hrun & _ & _ & _ & Hel & Hobj & _).
  exists s, h'. split; [exact Hrun|]. split; [exact Hel|exact Hobj].
Defined.

(** X18 on a histogram metric. *)
Lemma datapoints_share_resource_dimensions_witness :
  inBounds store1 extraDims1
  /\ exists out h',
       metricToSfxDataPoints FormatFloat growslice (NewMetricsConverter None)
         histMetric extraDims1 store1 = Some (out, h')
       /\ Forall
            (fun dp =>
               exists own,
                 elems h' (Dimensions dp) = Some 0%nat :: List.map Some own)
            out.
Proof.
  split; [exact store1_inBounds|].
  destruct (datapoints_share_resource_dimensions FormatFloat growslice
              histMetric extraDims1 store1 store1_inBounds)
    as (out & h' & Hrun & HF).
  exists out, h'. split; [exact Hrun|].
  eapply Forall_impl; [exact HF|].
  intros dp (own & Hel & _). exists own. exact Hel.
Defined.

(** X22 on a histogram data point with a count of [2^63]. *)
Lemma histogram_count_reinterpreted_witness :
  inBounds store1 extraDims1
  /\ exists out h',
       convertIntHistogram FormatFloat growslice [Some hugeCountPoint]
         (makeBaseDataPoint histMetric) extraDims1 store1
       = Some (out, h')
       /\ exists countDP rest,
            out = countDP :: rest
            /\ IntValue (DatumValue countDP) = Some (- 2 ^ 63).
Proof.
  split; [exact store1_inBounds|].
  destruct (histogram_count_reinterpreted FormatFloat growslice
              (makeBaseDataPoint histMetric) extraDims1 store1
              store1_inBounds) as [Hi _].
  destruct (Hi [Some hugeCountPoint]) as (groups & h' & Hrun & HF).
  cbn [nonNil] in HF.
  inversion HF as [|x g xs gs Hx Hrest]; subst. inversion Hrest; subst.
  destruct Hx as (countDP & rest & -> & _ & Hbig).
  exists (concat [countDP :: rest]), h'. split; [exact Hrun|].
  exists countDP, (rest ++ []). split; [reflexivity|].
  rewrite Hbig; [reflexivity|]. cbn [ihp_Count hugeCountPoint]. lia.
Defined.

(** X5 on a slice of two entries, a datapoint and nil. *)
Lemma sanitizer_returns_iff_pointers_valid_witness :
  None ∈ [Some (setDimensions extraDims1 basePoint1); None]
  /\ sanitizeDataPointDimensions_ptr isExcludingLatin
       [Some (setDimensions extraDims1 basePoint1); None] store1
     = None.
Proof.
  assert (H : None ∈ [Some (setDimensions extraDims1 basePoint1); None])
    by (right; left).
  split; [exact H|].
  exact (proj1 (proj2 (sanitizer_returns_iff_pointers_valid isExcludingLatin
                         [Some (setDimensions extraDims1 basePoint1); None]
                         store1)) H).
Defined.

(** X19 on a batch whose second metric has nil data. *)
Lemma batch_datapoint_count_witness :
  hasNilData nilDataBatch = true
  /\ MetricDataToSignalFxV2_orig isExcludingLatin FormatFloat growslice
       AttributeValueToString AttributeCloudAccount AttributeCloudRegion
       AttributeHostID AttributeCloudProvider AttributeCloudProviderAWS
       AttributeCloudProviderGCP SFxAccessTokenLabel
       (NewMetricsConverter None) nilDataBatch emptyHeap
     = None.
Proof.
  assert (H : hasNilData nilDataBatch = true) by reflexivity.
  split; [exact H|].
  exact (proj1 (batch_datapoint_count isExcludingLatin FormatFloat growslice
                  AttributeValueToString AttributeCloudAccount
                  AttributeCloudRegion AttributeHostID AttributeCloudProvider
                  AttributeCloudProviderAWS AttributeCloudProviderGCP
                  SFxAccessTokenLabel nilDataBatch emptyHeap) H).
Defined.

(** X20 on the batch of one gauge whose data point has the label
    [a.b]. *)
Lemma batch_dimensions_sanitized_witness :
  hasNilData (withData dottedBatch) = false
  /\ exists out h' fps,
       MetricDataToSignalFxV2_orig isExcludingLatin FormatFloat growslice
         AttributeValueToString AttributeCloudAccount AttributeCloudRegion
         AttributeHostID AttributeCloudProvider AttributeCloudProviderAWS
         AttributeCloudProviderGCP SFxAccessTokenLabel
         (NewMetricsConverter None) (withData dottedBatch) emptyHeap
       = Some (out, h')
       /\ mapM (view h') out = Some fps
       /\ Forall
            (fun fp =>
               Forall (fun d => filterKeyChars isExcludingLatin (Key d)
                                = Key d)
                 (fpDimensions fp))
            fps.
Proof.
  assert (H : hasNilData (withData dottedBatch) = false) by reflexivity.
  split; [exact H|].
  destruct (proj2 (batch_dimensions_sanitized isExcludingLatin FormatFloat
                     growslice AttributeValueToString AttributeCloudAccount
                     AttributeCloudRegion AttributeHostID
                     AttributeCloudProvider AttributeCloudProviderAWS
                     AttributeCloudProviderGCP SFxAccessTokenLabel
                     (withData dottedBatch) emptyHeap) H)
    as (batch & out & h' & _ & Hrun & fps & Hfps & _ & Hkeys).
  exists out, h', fps. split; [exact Hrun|]. split; [exact Hfps|exact Hkeys].
Defined.

(** X21 on the batch of a resource with an access token. *)
Lemma conversion_writes_to_nothing_older_witness :
  hasNilData (withData tokenBatch) = false
  /\ exists out h',
       MetricDataToSignalFxV2_orig isExcludingLatin FormatFloat growslice
         AttributeValueToString AttributeCloudAccount AttributeCloudRegion
         AttributeHostID AttributeCloudProvider AttributeCloudProviderAWS
         AttributeCloudProviderGCP SFxAccessTokenLabel
         (NewMetricsConverter None) (withData tokenBatch) store1
       = Some (out, h')
       /\ objects store1 `prefix_of` objects h'
       /\ arrays store1 `prefix_of` arrays h'.
Proof.
  assert (H : hasNilData (withData tokenBatch) = false) by reflexivity.
  split; [exact H|].
  destruct (proj2 (conversion_writes_to_nothing_older isExcludingLatin
                     FormatFloat growslice AttributeValueToString
                     AttributeCloudAccount AttributeCloudRegion
                     AttributeHostID AttributeCloudProvider
                     AttributeCloudProviderAWS AttributeCloudProviderGCP
                     SFxAccessTokenLabel (withData tokenBatch) store1) H)
    as (batch & out & h' & _ & Hrun & Ho & Ha).
  exists out, h'. split; [exact Hrun|]. split; [exact Ho|exact Ha].
Defined.

(** X23 on the batch of a resource with an access token. *)
Lemma datapoints_own_their_dimensions_witness :
  hasNilData (withData tokenBatch) = false
  /\ exists out h' (infos : list (list nat * nat)),
       MetricDataToSignalFxV2_orig isExcludingLatin FormatFloat growslice
         AttributeValueToString AttributeCloudAccount AttributeCloudRegion
         AttributeHostID AttributeCloudProvider AttributeCloudProviderAWS
         AttributeCloudProviderGCP SFxAccessTokenLabel
         (NewMetricsConverter None) (withData tokenBatch) emptyHeap
       = Some (out, h')
       /\ length infos = length out
       /\ NoDup (List.map snd infos)
       /\ NoDup (concat (List.map fst infos)).
Proof.
  assert (H : hasNilData (withData tokenBatch) = false) by reflexivity.
  split; [exact H|].
  destruct (proj2 (datapoints_own_their_dimensions isExcludingLatin
                     FormatFloat growslice AttributeValueToString
                     AttributeCloudAccount AttributeCloudRegion
                     AttributeHostID AttributeCloudProvider
                     AttributeCloudProviderAWS AttributeCloudProviderGCP
                     SFxAccessTokenLabel (withData tokenBatch) emptyHeap) H)
    as (batch & out & h' & _ & Hrun & e & h0 & infos & _ & _ & HF & Ha & Ho
        & _).
  exists out, h', infos. split; [exact Hrun|].
  split; [symmetry; exact (Forall2_length _ _ _ HF)|].
  split; [exact Ha|exact Ho].
Defined.
End Witness.

(** ** Where the design document and the converter part *)

Module Counterexample.
Import Sample.

(** C2 as the design document has it: the count datapoint carries the
    point count. The count of a histogram data point is a [uint64] and
    the value of a datapoint an [int64]: for the data point with one
    bucket, no bound and the count [2^63], which has as many bucket
    counts as bounds and one, the count datapoint and the bucket
    datapoint carry [- 2^63], not the count. *)
Lemma count_beyond_int64 :
  length (ihp_BucketCounts overflowHistPoint)
  = S (length (ihp_ExplicitBounds overflowHistPoint))
  /\ ihp_Count overflowHistPoint = 2 ^ 63
  /\ resultViews
       (convertIntHistogram FormatFloat growslice [Some overflowHistPoint]
          (makeBaseDataPoint histMetric) extraDims1 store1)
     = Some [{| fpMetric := "latency_count"; fpTimestamp := 5;
                fpValue := {| StrValue := None; DoubleValue := None;
                              IntValue := Some (- 2 ^ 63) |};
                fpType := Some COUNTER;
                fpDimensions :=
                  [{| Key := "service.name"; Value := "checkout" |}] |};
             {| fpMetric := "latency"; fpTimestamp := 5;
                fpValue := {| StrValue := None; DoubleValue := None;
                              IntValue := Some 7 |};
                fpType := Some COUNTER;
                fpDimensions :=
                  [{| Key := "service.name"; Value := "checkout" |}] |};
             {| fpMetric := "latency_bucket"; fpTimestamp := 5;
                fpValue := {| StrValue := None; DoubleValue := None;
                              IntValue := Some (- 2 ^ 63) |};
                fpType := Some COUNTER;
                fpDimensions :=
                  [{| Key := "service.name"; Value := "checkout" |};
                   {| Key := "upper_bound"; Value := "+Inf" |}] |}]
  /\ - 2 ^ 63 <> ihp_Count overflowHistPoint.
Proof.
  split; [reflexivity|]. split; [reflexivity|].
  split; [vm_compute; reflexivity|].
  intros H. vm_compute in H. discriminate H.
Qed.

(** C3 as the design document has it: the rule translator after the
    sanitizer. With a rule that renames the key [a.b] to [c] the two
    orders differ: the converter translates first, the rule meets the key
    [a.b] and the datapoint leaves with the key [c]; sanitizing first
    would turn the key into [a_b], which the rule does not rename. *)
Lemma translator_runs_before_sanitizer :
  resultViews
    (MetricDataToSignalFxV2 isExcludingLatin FormatFloat growslice
       AttributeValueToString AttributeCloudAccount AttributeCloudRegion
       AttributeHostID AttributeCloudProvider AttributeCloudProviderAWS
       AttributeCloudProviderGCP SFxAccessTokenLabel
       {| metricTranslator := Some renameDotted |} dottedBatch emptyHeap)
  = Some [{| fpMetric := "m"; fpTimestamp := 1;
             fpValue := {| StrValue := None; DoubleValue := None;
                           IntValue := Some 1 |};
             fpType := Some GAUGE;
             fpDimensions := [{| Key := "c"; Value := "x" |}] |}]
  /\ resultViews
       (sanitizeThenTranslate isExcludingLatin FormatFloat growslice
          AttributeValueToString AttributeCloudAccount AttributeCloudRegion
          AttributeHostID AttributeCloudProvider AttributeCloudProviderAWS
          AttributeCloudProviderGCP SFxAccessTokenLabel
          {| metricTranslator := Some renameDotted |} dottedBatch emptyHeap)
     = Some [{| fpMetric := "m"; fpTimestamp := 1;
                fpValue := {| StrValue := None; DoubleValue := None;
                              IntValue := Some 1 |};
                fpType := Some GAUGE;
                fpDimensions := [{| Key := "a_b"; Value := "x" |}] |}].
Proof. split; vm_compute; reflexivity. Qed.

(** C8 as the design document has it: every ASCII key. The empty key
    is an ASCII string, it is mapped to itself, and the empty string does
    not match [[A-Za-z0-9_-]+]. *)
Lemma empty_key_does_not_match :
  isASCII "" = true
  /\ filterKeyChars isExcludingLatin "" = ""%string
  /\ matchesKeyPattern (filterKeyChars isExcludingLatin "") = false.
Proof. repeat split. Qed.

End Counterexample.
